(** * DeepResearch: research session orchestrator and history store

  A shallow embedding of [src/services/geminiService.ts] and of the history
  handlers of [src/App.tsx], followed by the properties of the specification
  that were checked against it.

  Conventions of the embedding.
  - A JavaScript string is the list of its UTF-16 code units ([jsstring]).
  - A call that may throw returns a [completion]: [Return v] or [Throw e].
  - React state is passed explicitly; a handler reads the state of the
    render it was created in and writes through the setters.
  - [console.warn] and [console.error] only print; they are left out. *)

From Stdlib Require Import String Ascii Decimal DecimalN Bool ZArith NArith Lia List.
Import ListNotations.

Set Implicit Arguments.
Set Warnings "-register-all".

(** * JavaScript strings *)

Definition code_unit := N.
Definition jsstring := list code_unit.

(** A literal of the source, given here as an ASCII text. *)
Definition lit (s : string) : jsstring :=
map N_of_ascii (list_ascii_of_string s).
Arguments lit s%_string.

(** The double quote, which the literals of this file never contain. *)
Definition dq : jsstring := [34%N].

Definition lbrace : code_unit := 123%N.
Definition rbrace : code_unit := 125%N.

Module JsString.

(** Strict equality [===] on strings. *)
Fixpoint eqb (a b : jsstring) : bool :=
  match a, b with
  | [], [] => true
  | x :: a', y :: b' => N.eqb x y && eqb a' b'
  | _, _ => false
  end.

(** [s.indexOf(c)] for a one-unit search string: the least index holding
    [c], or -1. *)
Fixpoint indexOf_from (c : code_unit) (s : jsstring) (i : Z) : Z :=
  match s with
  | [] => (-1)%Z
  | x :: r => if N.eqb x c then i else indexOf_from c r (i + 1)%Z
  end.

Definition indexOf (s : jsstring) (c : code_unit) : Z := indexOf_from c s 0%Z.

(** [s.lastIndexOf(c)]: the greatest index holding [c], or -1. *)
Fixpoint lastIndexOf_from (c : code_unit) (s : jsstring) (i found : Z) : Z :=
  match s with
  | [] => found
  | x :: r => lastIndexOf_from c r (i + 1)%Z (if N.eqb x c then i else found)
  end.

Definition lastIndexOf (s : jsstring) (c : code_unit) : Z :=
  lastIndexOf_from c s 0%Z (-1)%Z.

(** [s.substring(a, b)]: both bounds are clamped to [0, length] and swapped
    when out of order. *)
Definition clamp (len i : Z) : Z := Z.min (Z.max i 0) len.

Definition substring (s : jsstring) (a b : Z) : jsstring :=
  let len := Z.of_nat (length s) in
  let a' := clamp len a in
  let b' := clamp len b in
  let from := Z.min a' b' in
  let to := Z.max a' b' in
  firstn (Z.to_nat (to - from)) (skipn (Z.to_nat from) s).

(** White space and line terminators, as [trim] understands them. *)
Definition isWhiteSpace (c : code_unit) : bool :=
  existsb (N.eqb c)
    [9; 10; 11; 12; 13; 32; 160; 5760; 8232; 8233; 8239; 8287; 12288; 65279]%N
  || (N.leb 8192 c && N.leb c 8202).

Fixpoint trimStart (s : jsstring) : jsstring :=
  match s with
  | [] => []
  | c :: r => if isWhiteSpace c then trimStart r else s
  end.

Definition trimEnd (s : jsstring) : jsstring := rev (trimStart (rev s)).

Definition trim (s : jsstring) : jsstring := trimEnd (trimStart s).

(** [arr.join(sep)] on an array of strings. *)
Fixpoint join (sep : jsstring) (l : list jsstring) : jsstring :=
  match l with
  | [] => []
  | x :: r => match r with [] => x | _ :: _ => x ++ sep ++ join sep r end
  end.

(** Decimal digits of a non-negative integer, as a template literal or
    [toString()] renders it (integers below 10^21). *)
Fixpoint digits (u : Decimal.uint) : jsstring :=
  match u with
  | Nil => []
  | D0 r => 48%N :: digits r
  | D1 r => 49%N :: digits r
  | D2 r => 50%N :: digits r
  | D3 r => 51%N :: digits r
  | D4 r => 52%N :: digits r
  | D5 r => 53%N :: digits r
  | D6 r => 54%N :: digits r
  | D7 r => 55%N :: digits r
  | D8 r => 56%N :: digits r
  | D9 r => 57%N :: digits r
  end.

Definition ofNumber (n : N) : jsstring := digits (N.to_uint n).

(** A value of type [string | undefined] inside a template literal. *)
Definition ofOptional (v : option jsstring) : jsstring :=
  match v with
  | Some s => s
  | None => lit "undefined"
  end.

(** Truthiness of a [string | undefined | null] value. *)
Definition truthy (v : option jsstring) : bool :=
  match v with
  | Some (_ :: _) => true
  | _ => false
  end.

(** [x] occurs in [s] as a contiguous substring. *)
Definition includes (s x : jsstring) : Prop :=
  exists pre post, s = pre ++ x ++ post.

Fixpoint startsWith (s x : jsstring) {struct x} : bool :=
  match x, s with
  | [], _ => true
  | c :: x', d :: s' => N.eqb c d && startsWith s' x'
  | _ :: _, [] => false
  end.

Fixpoint includesb (s x : jsstring) : bool :=
  startsWith s x ||
  match s with
  | [] => false
  | _ :: s' => includesb s' x
  end.

End JsString.

(** * Completions *)

(** What a JavaScript [throw] carries in this program. *)
Inductive exn : Type :=
| Error (message : jsstring)          (* [new Error(message)] *)
| SyntaxError                         (* raised by [JSON.parse] *)
| DOMException (name : jsstring)      (* raised by [localStorage.setItem] *)
| TransportFailure (detail : jsstring). (* rejection of the model transport *)

Inductive completion (A : Type) : Type :=
| Return (a : A)
| Throw (e : exn).
Arguments Return {A} a.
Arguments Throw {A} e.

(** * JSON.parse

  The platform's parser, written as the two automata of the JSON grammar:
  a lexer that reads one code unit per step and a parser that reads one
  token per step with a stack of open containers.  A number is kept as
  the lexeme written in the text and an object as its members in the
  order written. *)

Module JSON.

Inductive json : Type :=
| JNull
| JBool (b : bool)
| JNumber (lexeme : jsstring)
| JString (s : jsstring)
| JArray (elements : list json)
| JObject (members : list (jsstring * json)).

Inductive token : Type :=
| TLBrace | TRBrace | TLBracket | TRBracket | TColon | TComma
| TString (s : jsstring)
| TNumber (lexeme : jsstring)
| TTrue | TFalse | TNull.

(** ** Lexer *)

(** Where the lexer stands inside a number. *)
Inductive numstate : Type :=
| NMinus | NZero | NInt | NDot | NFrac | NExp | NExpSign | NExpDigits.

Inductive lexstate : Type :=
| LStart
| LString (acc : jsstring)                       (* units read, reversed *)
| LEscape (acc : jsstring)                       (* after a backslash *)
| LUnicode (acc : jsstring) (n : nat) (v : N)    (* [n] hex digits of \u read *)
| LNumber (st : numstate) (acc : jsstring)
| LKeyword (rest : jsstring) (t : token).

Definition isDigit (c : code_unit) : bool := N.leb 48 c && N.leb c 57.
Definition isDigit19 (c : code_unit) : bool := N.leb 49 c && N.leb c 57.
Definition isJsonSpace (c : code_unit) : bool :=
  existsb (N.eqb c) [9; 10; 13; 32]%N.

Definition hexValue (c : code_unit) : option N :=
  if isDigit c then Some (c - 48)%N
  else if N.leb 65 c && N.leb c 70 then Some (c - 55)%N
  else if N.leb 97 c && N.leb c 102 then Some (c - 87)%N
  else None.

Definition isExponentMark (c : code_unit) : bool := N.eqb c 101 || N.eqb c 69.

Definition num_step (st : numstate) (c : code_unit) : option numstate :=
  match st with
  | NMinus => if N.eqb c 48 then Some NZero
              else if isDigit19 c then Some NInt else None
  | NZero => if N.eqb c 46 then Some NDot
             else if isExponentMark c then Some NExp else None
  | NInt => if isDigit c then Some NInt
            else if N.eqb c 46 then Some NDot
            else if isExponentMark c then Some NExp else None
  | NDot => if isDigit c then Some NFrac else None
  | NFrac => if isDigit c then Some NFrac
             else if isExponentMark c then Some NExp else None
  | NExp => if N.eqb c 43 || N.eqb c 45 then Some NExpSign
            else if isDigit c then Some NExpDigits else None
  | NExpSign => if isDigit c then Some NExpDigits else None
  | NExpDigits => if isDigit c then Some NExpDigits else None
  end.

Definition num_final (st : numstate) : bool :=
  match st with
  | NZero | NInt | NFrac | NExpDigits => true
  | NMinus | NDot | NExp | NExpSign => false
  end.

(** The unit an escape letter stands for. *)
Definition escape (c : code_unit) : option code_unit :=
  if N.eqb c 34 then Some 34%N          (* quote *)
  else if N.eqb c 92 then Some 92%N     (* backslash *)
  else if N.eqb c 47 then Some 47%N     (* slash *)
  else if N.eqb c 98 then Some 8%N      (* b: backspace *)
  else if N.eqb c 102 then Some 12%N    (* f: form feed *)
  else if N.eqb c 110 then Some 10%N    (* n: line feed *)
  else if N.eqb c 114 then Some 13%N    (* r: carriage return *)
  else if N.eqb c 116 then Some 9%N     (* t: tab *)
  else None.

(** One unit read between two tokens. *)
Definition lex_start (c : code_unit) : option (lexstate * list token) :=
  if isJsonSpace c then Some (LStart, [])
  else if N.eqb c 123 then Some (LStart, [TLBrace])
  else if N.eqb c 125 then Some (LStart, [TRBrace])
  else if N.eqb c 91 then Some (LStart, [TLBracket])
  else if N.eqb c 93 then Some (LStart, [TRBracket])
  else if N.eqb c 58 then Some (LStart, [TColon])
  else if N.eqb c 44 then Some (LStart, [TComma])
  else if N.eqb c 34 then Some (LString [], [])
  else if N.eqb c 45 then Some (LNumber NMinus [c], [])
  else if N.eqb c 48 then Some (LNumber NZero [c], [])
  else if isDigit19 c then Some (LNumber NInt [c], [])
  else if N.eqb c 116 then Some (LKeyword (lit "rue") TTrue, [])
  else if N.eqb c 102 then Some (LKeyword (lit "alse") TFalse, [])
  else if N.eqb c 110 then Some (LKeyword (lit "ull") TNull, [])
  else None.

Definition lex_step (st : lexstate) (c : code_unit)
  : option (lexstate * list token) :=
  match st with
  | LStart => lex_start c
  | LString acc =>
      if N.eqb c 34 then Some (LStart, [TString (rev acc)])
      else if N.eqb c 92 then Some (LEscape acc, [])
      else if N.ltb c 32 then None
      else Some (LString (c :: acc), [])
  | LEscape acc =>
      if N.eqb c 117 then Some (LUnicode acc 0 0%N, [])
      else match escape c with
           | Some u => Some (LString (u :: acc), [])
           | None => None
           end
  | LUnicode acc n v =>
      match hexValue c with
      | Some d =>
          let v' := (v * 16 + d)%N in
          if Nat.eqb n 3 then Some (LString (v' :: acc), [])
          else Some (LUnicode acc (S n) v', [])
      | None => None
      end
  | LNumber ns acc =>
      match num_step ns c with
      | Some ns' => Some (LNumber ns' (c :: acc), [])
      | None =>
          if num_final ns then
            match lex_start c with
            | Some (st', toks) => Some (st', TNumber (rev acc) :: toks)
            | None => None
            end
          else None
      end
  | LKeyword rest t =>
      match rest with
      | [] => None
      | x :: rest' =>
          if N.eqb c x then
            match rest' with
            | [] => Some (LStart, [t])
            | _ :: _ => Some (LKeyword rest' t, [])
            end
          else None
      end
  end.

Definition lex_end (st : lexstate) : option (list token) :=
  match st with
  | LStart => Some []
  | LNumber ns acc => if num_final ns then Some [TNumber (rev acc)] else None
  | _ => None
  end.

Fixpoint lex (st : lexstate) (s : jsstring) : option (list token) :=
  match s with
  | [] => lex_end st
  | c :: r =>
      match lex_step st c with
      | Some (st', toks) =>
          match lex st' r with
          | Some more => Some (toks ++ more)
          | None => None
          end
      | None => None
      end
  end.

(** ** Parser *)

(** An open container that waits for the value being read. *)
Inductive frame : Type :=
| FArray (done : list json)                         (* elements, reversed *)
| FObject (done : list (jsstring * json)) (key : jsstring).

Inductive pstate : Type :=
| PValue (stack : list frame)             (* a value must start *)
| PFirstElem (stack : list frame)         (* after [[]: a value or []] *)
| PFirstKey (stack : list frame)          (* after [{]: a key or [}] *)
| PKey (done : list (jsstring * json)) (stack : list frame)
| PColon (done : list (jsstring * json)) (key : jsstring) (stack : list frame)
| PAfterElem (done : list json) (stack : list frame)
| PAfterMember (done : list (jsstring * json)) (stack : list frame)
| PDone (v : json).

(** A finished value goes to the innermost open container. *)
Definition deliver (v : json) (stack : list frame) : pstate :=
  match stack with
  | [] => PDone v
  | FArray done :: up => PAfterElem (v :: done) up
  | FObject done key :: up => PAfterMember ((key, v) :: done) up
  end.

Definition value_start (t : token) (stack : list frame) : option pstate :=
  match t with
  | TLBracket => Some (PFirstElem stack)
  | TLBrace => Some (PFirstKey stack)
  | TString s => Some (deliver (JString s) stack)
  | TNumber l => Some (deliver (JNumber l) stack)
  | TTrue => Some (deliver (JBool true) stack)
  | TFalse => Some (deliver (JBool false) stack)
  | TNull => Some (deliver JNull stack)
  | TRBrace | TRBracket | TColon | TComma => None
  end.

Definition parse_step (st : pstate) (t : token) : option pstate :=
  match st with
  | PValue stack => value_start t stack
  | PFirstElem stack =>
      match t with
      | TRBracket => Some (deliver (JArray []) stack)
      | _ => value_start t (FArray [] :: stack)
      end
  | PFirstKey stack =>
      match t with
      | TRBrace => Some (deliver (JObject []) stack)
      | TString k => Some (PColon [] k stack)
      | _ => None
      end
  | PKey done stack =>
      match t with
      | TString k => Some (PColon done k stack)
      | _ => None
      end
  | PColon done k stack =>
      match t with
      | TColon => Some (PValue (FObject done k :: stack))
      | _ => None
      end
  | PAfterElem done stack =>
      match t with
      | TComma => Some (PValue (FArray done :: stack))
      | TRBracket => Some (deliver (JArray (rev done)) stack)
      | _ => None
      end
  | PAfterMember done stack =>
      match t with
      | TComma => Some (PKey done stack)
      | TRBrace => Some (deliver (JObject (rev done)) stack)
      | _ => None
      end
  | PDone _ => None
  end.

Fixpoint parse_tokens (st : pstate) (ts : list token) : option json :=
  match ts with
  | [] => match st with PDone v => Some v | _ => None end
  | t :: r =>
      match parse_step st t with
      | Some st' => parse_tokens st' r
      | None => None
      end
  end.

(** [JSON.parse(text)]; [None] stands for the [SyntaxError] it throws. *)
Definition parse (text : jsstring) : option json :=
  match lex LStart text with
  | Some ts => parse_tokens (PValue []) ts
  | None => None
  end.

End JSON.

Import JSON.


(** * Data model *)

(** Modelled from the spec: [src/types.ts] is not among the sources.  The
    fields are those of section 3 of the specification (Article) and of the
    uses in [geminiService.ts]; [journal] and [url] are optional. *)
Module Article.
Record t : Type := mk {
  title : jsstring;
  authors : jsstring;
  journal : option jsstring;
  publication_date : jsstring;
  ai_summary : jsstring;
  significance : jsstring;
  url : option jsstring
}.

(** [a.journal || 'Unknown'] *)
Definition journal_or_Unknown (a : t) : jsstring :=
  match journal a with
  | Some (c :: r) => c :: r
  | Some [] | None => lit "Unknown"
  end.
End Article.

(** Modelled from the spec: [src/types.ts] is not among the sources
    (DiscoveryResult of section 3, named [ResearchResult] in the code). *)
Module ResearchResult.
Record t : Type := mk {
  topic : jsstring;
  summary : jsstring;
  suggestedVisualPrompt : jsstring;
  articles : list Article.t
}.
End ResearchResult.

(** Modelled from the spec: [src/types.ts] is not among the sources
    (GenerationConfig of section 3, as [App.tsx] builds it).  [focus] and
    [language] are the strings found at run time, whatever the declared
    union types say. *)
Module ResearchConfig.
Record t : Type := mk {
  focus : jsstring;
  count : N;
  language : jsstring
}.
End ResearchConfig.

(** [arr.map((a, i) => f a i)] *)
Fixpoint mapi_from (A B : Type) (f : A -> nat -> B) (l : list A) (i : nat)
  : list B :=
  match l with
  | [] => []
  | a :: r => f a i :: mapi_from f r (S i)
  end.

Definition mapi (A B : Type) (f : A -> nat -> B) (l : list A) : list B :=
  mapi_from f l 0.

(** * services/geminiService.ts *)

Module GeminiService.

(** The model transport, an external collaborator: the request it is given
    and what comes back. *)
Record GenerateContentParameters : Type := {
  model : jsstring;
  contents : jsstring;
  systemInstruction : jsstring;
  googleSearch : bool;
  thinkingBudget : N
}.

Record GenerateContentResponse : Type := {
  text : option jsstring       (* [response.text], possibly undefined *)
}.

Record Env : Type := {
  API_KEY : option jsstring;   (* [process.env.API_KEY] *)
  generateContent :
    GenerateContentParameters -> completion GenerateContentResponse
}.

(** Helper to extract JSON from mixed text output. *)
Definition cleanJson (text : jsstring) : jsstring :=
  let start := JsString.indexOf text lbrace in
  let end_ := JsString.lastIndexOf text rbrace in
  if (start =? -1)%Z || (end_ =? -1)%Z || (start >? end_)%Z then
    JsString.trim text
  else
    JsString.substring text start (end_ + 1)%Z.

(** The object literal [languageNames], read at a key: its three own
    properties.  (Members inherited from [Object.prototype], such as
    [constructor], are not modelled: at the keys listed in
    [Object_prototype_members] the lookup of the code does not give
    [undefined].) *)
Definition languageNames (key : jsstring) : option jsstring :=
  if JsString.eqb key (lit "en") then Some (lit "English")
  else if JsString.eqb key (lit "zh") then Some (lit "Chinese (Simplified)")
  else if JsString.eqb key (lit "ja") then Some (lit "Japanese")
  else None.

Definition Object_prototype_members : list jsstring :=
  [ lit "constructor"; lit "__proto__"; lit "hasOwnProperty";
    lit "isPrototypeOf"; lit "propertyIsEnumerable"; lit "toLocaleString";
    lit "toString"; lit "valueOf"; lit "__defineGetter__";
    lit "__defineSetter__"; lit "__lookupGetter__"; lit "__lookupSetter__" ].

Definition classicBlock : jsstring :=
  concat [
    lit "PRIORITY: FOCUS HEAVILY ON HISTORY.
      1. Identify the most seminal ";
    dq; lit "Foundational"; dq;
    lit " papers that started the field (the classics).
      2. Include a few recent papers only if they fundamentally changed the original paradigms.
      3. The list should be dominated by the most cited, historical works." ].

Definition recentBlock : jsstring :=
  concat [
    lit "PRIORITY: FOCUS HEAVILY ON THE LAST 5 YEARS.
      1. Identify key ";
    dq; lit "Recent Breakthroughs"; dq; lit " or "; dq; lit "State of the Art";
    dq; lit " papers primarily from 2020-2025.
      2. Only include the absolute most vital 1-2 historical papers for context.
      3. The list should be dominated by recent advancements." ].

Definition balancedBlock : jsstring :=
  concat [
    lit "PRIORITY: BALANCE HISTORY AND MODERNITY.
      1. Identify the most seminal ";
    dq; lit "Foundational"; dq;
    lit " papers that started the field (the classics).
      2. CRITICAL: Identify key ";
    dq; lit "Recent Breakthroughs"; dq; lit " or "; dq; lit "State of the Art";
    dq; lit " papers from the last 3-5 years (2020-2025).
      3. The list MUST be a 50/50 mix of history and modern state-of-the-art." ].

Definition researchTopic_systemInstruction (targetLanguage : option jsstring) (focusInstruction : jsstring) : jsstring :=
  concat [
    lit "You are an expert academic researcher and historian of science. 
  Your goal is to research a specific concept, method, or field provided by the user.
  
  IMPORTANT LANGUAGE REQUIREMENT:
  The user has requested the output in ";
    JsString.ofOptional targetLanguage; lit ".
  - The ";
    dq; lit "summary"; dq; lit ", "; dq; lit "ai_summary"; dq; lit ", and "; dq;
    lit "significance"; dq; lit " fields MUST be written in ";
    JsString.ofOptional targetLanguage; lit ".
  - The ";
    dq; lit "title"; dq; lit ", "; dq; lit "authors"; dq; lit ", and "; dq;
    lit "journal"; dq;
    lit " should generally remain in their original language (usually English for science) unless there is a standard translation.

  STRICT PAPER SELECTION CRITERIA:
  1. ARTICLE TYPE: 
     - Select ONLY original ";
    dq; lit "Research Articles"; dq; lit " (Primary Research).
     - STRICTLY EXCLUDE ";
    dq; lit "Review Articles"; dq;
    lit " (systematic reviews, literature reviews).
     - STRICTLY EXCLUDE ";
    dq; lit "Letters"; dq;
    lit " (short communications, letters to the editor), "; dq; lit "Editorials";
    dq; lit ", and "; dq; lit "Perspectives"; dq; lit ".
  
  2. QUALITY & IMPACT:
     - Prioritize papers published in top-tier, high-impact journals (e.g., Nature, Science, Cell, PNAS, or top conferences/journals specific to the field).
     - Prioritize papers with high citation counts relative to their publication year.
     - Use your academic judgment to select papers that represent true milestones in scientific progress.
  
  ";
    focusInstruction; lit "
  
  4. Summarize the historical development and evolution of the field in ";
    JsString.ofOptional targetLanguage; lit ".
  5. Explain the significance of each selected paper in ";
    JsString.ofOptional targetLanguage; lit ".
  6. Create a visual description for a timeline that represents this evolution.
  
  Return the output in strictly valid JSON format. Do not include markdown code blocks if possible, just the raw JSON string." ].

Definition researchTopic_prompt (topic : jsstring) (count : N) (targetLanguage : option jsstring) : jsstring :=
  concat [
    lit "Conduct deep research on the field: "; dq; topic; dq; lit ".
  
  Use Google Search to verify authors, titles, publication dates, article types, journal names, and citation impact.
  Ensure ALL selected papers are Primary Research Articles. Do not include Reviews.
  
  TARGET ARTICLE COUNT: ";
    JsString.ofNumber count; lit "
  You must aim to find ";
    JsString.ofNumber count; lit " distinct, high-quality papers. 
  If there aren't enough seminal papers to meet this number (e.g., for a very new field), list as many as possible, but do not hallucinate.
  
  Output JSON structure:
  {
    ";
    dq; lit "topic"; dq; lit ": "; dq; topic; dq; lit ",
    ";
    dq; lit "summary"; dq; lit ": "; dq;
    lit "A comprehensive narrative summary of how this field developed in ";
    JsString.ofOptional targetLanguage;
    lit ", explicitly mentioning recent trends in the last paragraph..."; dq;
    lit ",
    ";
    dq; lit "suggestedVisualPrompt"; dq; lit ": "; dq;
    lit "A detailed prompt to generate a timeline infographic showing..."; dq;
    lit ",
    ";
    dq; lit "articles"; dq; lit ": [
      {
        ";
    dq; lit "title"; dq; lit ": "; dq; lit "Exact Title"; dq; lit ",
        ";
    dq; lit "authors"; dq; lit ": "; dq; lit "List of authors (comma separated)";
    dq; lit ",
        ";
    dq; lit "journal"; dq; lit ": "; dq;
    lit "Full name of the journal where it was published (e.g. Nature, NeurIPS)";
    dq; lit ",
        ";
    dq; lit "publication_date"; dq; lit ": "; dq;
    lit "YYYY-MM-DD (or YYYY if exact date unknown)"; dq; lit ",
        ";
    dq; lit "ai_summary"; dq; lit ": "; dq;
    lit "Brief summary of the content in "; JsString.ofOptional targetLanguage;
    dq; lit ",
        ";
    dq; lit "significance"; dq; lit ": "; dq;
    lit "Why this paper is important (mention journal/impact if relevant) in ";
    JsString.ofOptional targetLanguage; dq; lit ",
        ";
    dq; lit "url"; dq; lit ": "; dq;
    lit "URL to the paper (or search result link)"; dq; lit "
      }
    ]
  }" ].

Definition articleList_entry (a : Article.t) (i : nat) : jsstring :=
  concat [
    lit "
    [";
    JsString.ofNumber (N.of_nat (i + 1)); lit "] Title: "; Article.title a;
    lit "
    Authors: ";
    Article.authors a; lit "
    Journal: ";
    JsString.ofOptional (Article.journal a); lit "
    Year: ";
    Article.publication_date a; lit "
    Summary: ";
    Article.ai_summary a; lit "
    Significance: ";
    Article.significance a; lit "
  " ].

Definition ieeeStyle : jsstring :=
  concat [
    lit "CITATION STYLE: IEEE (Numeric).
      - Use numeric citations in square brackets like [1], [2] in the text.
      - CRITICAL: The References list MUST be sorted by the order of appearance in the text (Citation Order), NOT alphabetically.
      - The References section MUST be a numbered list corresponding to the appearance order." ].

Definition mlaStyle : jsstring :=
  concat [
    lit "CITATION STYLE: MLA.
      - Use (Author Page) or (Author) style in text.
      - References should be labeled ";
    dq; lit "Works Cited"; dq; lit " and formatted in MLA style (Alphabetical)." ].

Definition harvardStyle : jsstring :=
  concat [
    lit "CITATION STYLE: Harvard.
      - Use (Author, Year) in text.
      - References should be alphabetical and formatted in Harvard style." ].

Definition apaStyle : jsstring :=
  concat [
    lit "CITATION STYLE: APA 7th Edition.
      - Use (Author, Year) in text.
      - References should be labeled ";
    dq; lit "References"; dq;
    lit " and formatted in APA 7th style (Alphabetical)." ].

Definition generateLiteratureReview_prompt (result : ResearchResult.t) (targetLang : option jsstring) (styleInstruction articleList : jsstring) : jsstring :=
  concat [
    lit "
  Write a high-quality academic Literature Review based ONLY on the provided articles about ";
    dq; ResearchResult.topic result; dq; lit ".

  LANGUAGE: Write the review in ";
    JsString.ofOptional targetLang; lit ".

  ";
    styleInstruction; lit "

  STRUCTURE:
  1. Title (Top of page)
  2. Introduction: Define the scope and importance of the topic.
  3. Thematic Analysis: Synthesize the papers by themes, methodology, or chronological evolution. DO NOT just list them one by one. Compare and contrast findings.
  4. Conclusion: Summarize the state of the field and potential future directions.
  5. References / Works Cited: 
     - Strictly formatted as a MARKDOWN LIST (e.g., ";
    dq; lit "1. [1] Author..."; dq; lit " or "; dq; lit "- Author..."; dq;
    lit "). 
     - ENSURE every reference starts on a NEW LINE. 
     - Do NOT group them into a single paragraph.

  SOURCE DATA:
  ";
    articleList; lit "
  " ].

Definition generateLiteratureReview_systemInstruction : jsstring :=
  concat [
    lit "You are an expert academic writer specializing in literature reviews. 
  You write in a formal, objective, and synthesized manner.
  You strictly follow the requested citation style.
  For IEEE style, you STRICTLY respect the order of appearance for the bibliography.
  You do not hallucinate sources outside of the provided list.
  Return the output in Markdown format." ].

Definition contextString_entry (a : Article.t) (i : nat) : jsstring :=
  concat [
    JsString.ofNumber (N.of_nat (i + 1)); lit ". "; dq; Article.title a; dq;
    lit " ("; Article.publication_date a; lit ") by "; Article.authors a;
    lit ". Journal: "; Article.journal_or_Unknown a; lit ". Significance: ";
    Article.significance a; lit ". Summary: "; Article.ai_summary a ].

Definition contextString_text (context : ResearchResult.t) (entries : jsstring) : jsstring :=
  concat [
    lit "
    TOPIC: ";
    ResearchResult.topic context; lit "
    
    SUMMARY:
    ";
    ResearchResult.summary context; lit "
    
    KEY ARTICLES (Foundational & Recent):
    ";
    entries; lit "
  " ].

Definition chat_systemInstruction (context : ResearchResult.t) (contextString : jsstring) : jsstring :=
  concat [
    lit "You are an intelligent research assistant helping a user explore the topic: ";
    dq; ResearchResult.topic context; dq; lit ".
  You have access to the research summary and key articles listed below.
  Use this context to answer the user's questions in a helpful, academic, yet accessible manner.
  If the user asks about something not in the context, you can use your general knowledge but mention that it wasn't in the specific generated report.
  
  CONTEXT DATA:
  ";
    contextString; lit "
  " ].

(** The [switch (config.focus)] of [researchTopic]. *)
Definition focusInstruction (focus : jsstring) : jsstring :=
  if JsString.eqb focus (lit "classic") then classicBlock
  else if JsString.eqb focus (lit "recent") then recentBlock
  else balancedBlock.   (* case 'balanced': default: *)

Definition researchTopic (env : Env) (topic : jsstring)
  (config : ResearchConfig.t) : completion json :=
  if negb (JsString.truthy (API_KEY env)) then
    Throw (Error (lit "API Key is missing"))
  else
    let modelId := lit "gemini-3-pro-preview" in
    let targetLanguage := languageNames (ResearchConfig.language config) in
    let focusInstruction := focusInstruction (ResearchConfig.focus config) in
    let systemInstruction :=
      researchTopic_systemInstruction targetLanguage focusInstruction in
    let prompt :=
      researchTopic_prompt topic (ResearchConfig.count config) targetLanguage in
    match generateContent env
            {| model := modelId; contents := prompt;
               systemInstruction := systemInstruction;
               googleSearch := true; thinkingBudget := 16000 |} with
    | Throw error => Throw error                      (* catch: log, rethrow *)
    | Return response =>
        match text response with
        | None | Some [] => Throw (Error (lit "No response from Gemini"))
        | Some (c :: r) =>
            let jsonString := cleanJson (c :: r) in
            match JSON.parse jsonString with
            | Some data => Return data
            | None => Throw SyntaxError
            end
        end
    end.

(** The [switch (citationStyle)] of [generateLiteratureReview]. *)
Definition styleInstruction (citationStyle : jsstring) : jsstring :=
  if JsString.eqb citationStyle (lit "ieee") then ieeeStyle
  else if JsString.eqb citationStyle (lit "mla") then mlaStyle
  else if JsString.eqb citationStyle (lit "harvard") then harvardStyle
  else apaStyle.        (* case 'apa': default: *)

Definition articleList (result : ResearchResult.t) : jsstring :=
  JsString.join (lit "
") (mapi articleList_entry (ResearchResult.articles result)).

Definition generateLiteratureReview (env : Env) (result : ResearchResult.t)
  (language citationStyle : jsstring) : completion jsstring :=
  if negb (JsString.truthy (API_KEY env)) then
    Throw (Error (lit "API Key is missing"))
  else
    let modelId := lit "gemini-3-pro-preview" in
    let targetLang := languageNames language in
    let prompt :=
      generateLiteratureReview_prompt result targetLang
        (styleInstruction citationStyle) (articleList result) in
    match generateContent env
            {| model := modelId; contents := prompt;
               systemInstruction := generateLiteratureReview_systemInstruction;
               googleSearch := false; thinkingBudget := 16000 |} with
    | Throw error => Throw error                      (* catch: log, rethrow *)
    | Return response =>
        (* response.text || "Failed to generate literature review." *)
        match text response with
        | Some (c :: r) => Return (c :: r)
        | Some [] | None => Return (lit "Failed to generate literature review.")
        end
    end.

(** The text [contextString] of [getResearchChatSession]. *)
Definition contextString (context : ResearchResult.t) : jsstring :=
  contextString_text context
    (JsString.join (lit "
") (mapi contextString_entry (ResearchResult.articles context))).

(** [getResearchChatSession]: the configuration the chat is created with. *)
Definition getResearchChatSession (env : Env) (context : ResearchResult.t)
  : completion (jsstring * jsstring) :=
  if negb (JsString.truthy (API_KEY env)) then
    Throw (Error (lit "API Key is missing"))
  else
    Return (lit "gemini-3-pro-preview",
            chat_systemInstruction context (contextString context)).

End GeminiService.

(** * App.tsx: history store and handlers *)

(** Modelled from the spec: [src/types.ts] is not among the sources
    (Session of section 3, as [handleSearch] builds it).  [result] is the
    value [JSON.parse] returned: the cast to [ResearchResult] checks
    nothing at run time.  [None] stands for [null]. *)
Module HistoryItem.
Record t : Type := mk {
  id : jsstring;
  timestamp : N;
  topic : jsstring;
  result : json;
  timelineImage : option jsstring;
  literatureReview : option jsstring;
  config : ResearchConfig.t
}.
End HistoryItem.

(** [Partial<HistoryItem>]: for each key, [None] when the object does not
    carry it. *)
Module Updates.
Record t : Type := mk {
  id : option jsstring;
  timestamp : option N;
  topic : option jsstring;
  result : option json;
  timelineImage : option (option jsstring);
  literatureReview : option (option jsstring);
  config : option ResearchConfig.t
}.

Definition none : t := mk None None None None None None None.

(** [{ timelineImage: url }] *)
Definition ofTimelineImage (url : jsstring) : t :=
  mk None None None None (Some (Some url)) None None.

(** [{ literatureReview: review }] *)
Definition ofLiteratureReview (review : jsstring) : t :=
  mk None None None None None (Some (Some review)) None.
End Updates.

Definition orElse (A : Type) (o : option A) (d : A) : A :=
  match o with
  | Some a => a
  | None => d
  end.

(** [{ ...item, ...updates }] *)
Definition spread (item : HistoryItem.t) (updates : Updates.t) : HistoryItem.t :=
  {| HistoryItem.id := orElse (Updates.id updates) (HistoryItem.id item);
     HistoryItem.timestamp :=
       orElse (Updates.timestamp updates) (HistoryItem.timestamp item);
     HistoryItem.topic := orElse (Updates.topic updates) (HistoryItem.topic item);
     HistoryItem.result :=
       orElse (Updates.result updates) (HistoryItem.result item);
     HistoryItem.timelineImage :=
       orElse (Updates.timelineImage updates) (HistoryItem.timelineImage item);
     HistoryItem.literatureReview :=
       orElse (Updates.literatureReview updates)
              (HistoryItem.literatureReview item);
     HistoryItem.config :=
       orElse (Updates.config updates) (HistoryItem.config item) |}.

Module App.

(** The [useState] cells of the component. *)
Record State : Type := {
  query : jsstring;
  isSearching : bool;
  result : option json;
  error : option jsstring;
  config : ResearchConfig.t;
  showSettings : bool;
  timelineImage : option jsstring;
  literatureReview : option jsstring;
  historyOpen : bool;
  historyItems : list HistoryItem.t;
  currentResearchId : option jsstring
}.

(** [localStorage] at the key ['deep_research_history'].  The blob is kept
    as the list it serializes; [accepts] tells which writes the browser
    takes (a refused write raises, as on an exceeded quota). *)
Record Storage : Type := {
  stored : option (list HistoryItem.t);
  accepts : list HistoryItem.t -> bool
}.

Record World : Type := {
  state : State;
  localStorage : Storage
}.

(** Computations that read and write the world and may throw; what was
    written before a throw stays written. *)
Definition M (A : Type) : Type := World -> completion A * World.

Definition ret (A : Type) (a : A) : M A := fun w => (Return a, w).

Definition bind (A B : Type) (m : M A) (k : A -> M B) : M B :=
  fun w =>
    match m w with
    | (Return a, w') => k a w'
    | (Throw e, w') => (Throw e, w')
    end.

Definition lift (A : Type) (c : completion A) : M A := fun w => (c, w).

(** [try { body } catch (e) { handler }] *)
Definition try_catch (A : Type) (body : M A) (handler : exn -> M A) : M A :=
  fun w =>
    match body w with
    | (Return a, w') => (Return a, w')
    | (Throw e, w') => handler e w'
    end.

(** [try { body } finally { fin }] *)
Definition try_finally (A : Type) (body : M A) (fin : M unit) : M A :=
  fun w =>
    match body w with
    | (r, w') =>
        match fin w' with
        | (Return _, w'') => (r, w'')
        | (Throw e, w'') => (Throw e, w'')
        end
    end.

Declare Scope js_scope.
Delimit Scope js_scope with js.
Notation "x <- m ;; k" := (bind m (fun x => k))
  (at level 61, m at next level, right associativity) : js_scope.
Notation "m ;; k" := (bind m (fun _ => k))
  (at level 61, right associativity) : js_scope.
Local Open Scope js_scope.

Definition modify (f : State -> State) : M unit :=
  fun w => (Return tt, {| state := f (state w); localStorage := localStorage w |}).

Definition setIsSearching (v : bool) : M unit :=
  modify (fun s =>
    {| query := query s; isSearching := v; result := result s;
       error := error s; config := config s; showSettings := showSettings s;
       timelineImage := timelineImage s;
       literatureReview := literatureReview s; historyOpen := historyOpen s;
       historyItems := historyItems s;
       currentResearchId := currentResearchId s |}).

Definition setResult (v : option json) : M unit :=
  modify (fun s =>
    {| query := query s; isSearching := isSearching s; result := v;
       error := error s; config := config s; showSettings := showSettings s;
       timelineImage := timelineImage s;
       literatureReview := literatureReview s; historyOpen := historyOpen s;
       historyItems := historyItems s;
       currentResearchId := currentResearchId s |}).

Definition setError (v : option jsstring) : M unit :=
  modify (fun s =>
    {| query := query s; isSearching := isSearching s; result := result s;
       error := v; config := config s; showSettings := showSettings s;
       timelineImage := timelineImage s;
       literatureReview := literatureReview s; historyOpen := historyOpen s;
       historyItems := historyItems s;
       currentResearchId := currentResearchId s |}).

Definition setShowSettings (v : bool) : M unit :=
  modify (fun s =>
    {| query := query s; isSearching := isSearching s; result := result s;
       error := error s; config := config s; showSettings := v;
       timelineImage := timelineImage s;
       literatureReview := literatureReview s; historyOpen := historyOpen s;
       historyItems := historyItems s;
       currentResearchId := currentResearchId s |}).

Definition setTimelineImage (v : option jsstring) : M unit :=
  modify (fun s =>
    {| query := query s; isSearching := isSearching s; result := result s;
       error := error s; config := config s; showSettings := showSettings s;
       timelineImage := v;
       literatureReview := literatureReview s; historyOpen := historyOpen s;
       historyItems := historyItems s;
       currentResearchId := currentResearchId s |}).

Definition setLiteratureReview (v : option jsstring) : M unit :=
  modify (fun s =>
    {| query := query s; isSearching := isSearching s; result := result s;
       error := error s; config := config s; showSettings := showSettings s;
       timelineImage := timelineImage s;
       literatureReview := v; historyOpen := historyOpen s;
       historyItems := historyItems s;
       currentResearchId := currentResearchId s |}).

Definition setHistoryItems (v : list HistoryItem.t) : M unit :=
  modify (fun s =>
    {| query := query s; isSearching := isSearching s; result := result s;
       error := error s; config := config s; showSettings := showSettings s;
       timelineImage := timelineImage s;
       literatureReview := literatureReview s; historyOpen := historyOpen s;
       historyItems := v;
       currentResearchId := currentResearchId s |}).

Definition setCurrentResearchId (v : option jsstring) : M unit :=
  modify (fun s =>
    {| query := query s; isSearching := isSearching s; result := result s;
       error := error s; config := config s; showSettings := showSettings s;
       timelineImage := timelineImage s;
       literatureReview := literatureReview s; historyOpen := historyOpen s;
       historyItems := historyItems s;
       currentResearchId := v |}).

(** [localStorage.setItem('deep_research_history', JSON.stringify(value))] *)
Definition localStorage_setItem (value : list HistoryItem.t) : M unit :=
  fun w =>
    if accepts (localStorage w) value then
      (Return tt,
       {| state := state w;
          localStorage := {| stored := Some value;
                             accepts := accepts (localStorage w) |} |})
    else (Throw (DOMException (lit "QuotaExceededError")), w).

(** The handlers close over the state of the render that created them:
    [render] is what they read, the world is what they write. *)

Definition saveToHistory (render : State) (newItem : HistoryItem.t) : M unit :=
  let updatedHistory := firstn 15 (newItem :: historyItems render) in
  setHistoryItems updatedHistory ;;
  try_catch (localStorage_setItem updatedHistory)
            (fun e => ret tt).

Definition updateHistoryItem (render : State) (id : jsstring)
  (updates : Updates.t) : M unit :=
  let updatedHistory :=
    map (fun item =>
           if JsString.eqb (HistoryItem.id item) id then spread item updates
           else item)
        (historyItems render) in
  setHistoryItems updatedHistory ;;
  try_catch (localStorage_setItem updatedHistory)
            (fun e => ret tt).

(** [currentResearchId === id] *)
Definition isCurrent (current : option jsstring) (id : jsstring) : bool :=
  match current with
  | Some c => JsString.eqb c id
  | None => false
  end.

Definition deleteHistoryItem (render : State) (id : jsstring) : M unit :=
  (* e.stopPropagation() concerns the event only *)
  let updatedHistory :=
    filter (fun item => negb (JsString.eqb (HistoryItem.id item) id))
           (historyItems render) in
  setHistoryItems updatedHistory ;;
  localStorage_setItem updatedHistory ;;
  if isCurrent (currentResearchId render) id then
    setResult None ;;
    setTimelineImage None ;;
    setLiteratureReview None ;;
    setCurrentResearchId None
  else ret tt.

(** [handleSearch]; [now_id] and [now_ts] are the two readings of
    [Date.now()].  The call of [researchTopic] is awaited: the handler is
    taken here as one step, nothing else running in between. *)
Definition handleSearch (env : GeminiService.Env) (now_id now_ts : N)
  (render : State) : M unit :=
  match JsString.trim (query render) with
  | [] => ret tt
  | _ :: _ =>
      setIsSearching true ;;
      setError None ;;
      setResult None ;;
      setTimelineImage None ;;
      setLiteratureReview None ;;
      setShowSettings false ;;
      setCurrentResearchId None ;;
      try_finally
        (try_catch
           (data <- lift (GeminiService.researchTopic env (query render)
                            (config render)) ;;
            setResult (Some data) ;;
            let newId := JsString.ofNumber now_id in
            let newItem :=
              {| HistoryItem.id := newId;
                 HistoryItem.timestamp := now_ts;
                 HistoryItem.topic := query render;
                 HistoryItem.result := data;
                 HistoryItem.timelineImage := None;
                 HistoryItem.literatureReview := None;
                 HistoryItem.config := config render |} in
            setCurrentResearchId (Some newId) ;;
            saveToHistory render newItem)
           (fun err =>
              setError (Some (lit "Failed to research topic. Please check your API key and try again."))))
        (setIsSearching false)
  end.

Definition handleTimelineGenerated (render : State) (url : jsstring) : M unit :=
  setTimelineImage (Some url) ;;
  match currentResearchId render with
  | Some (c :: r) => updateHistoryItem render (c :: r) (Updates.ofTimelineImage url)
  | Some [] | None => ret tt
  end.

Definition handleReviewGenerated (render : State) (review : jsstring) : M unit :=
  setLiteratureReview (Some review) ;;
  match currentResearchId render with
  | Some (c :: r) =>
      updateHistoryItem render (c :: r) (Updates.ofLiteratureReview review)
  | Some [] | None => ret tt
  end.

(** An event reaches the handler of the latest render. *)
Definition dispatch (A : Type) (handler : State -> M A) (w : World)
  : completion A * World :=
  handler (state w) w.

End App.

(** * App.tsx: the handlers given to the history sidebar *)

Module AppSidebar.

Local Notation "m ;; k" := (App.bind m (fun _ => k))
  (at level 61, right associativity).

Definition setQuery (v : jsstring) : App.M unit :=
  App.modify (fun s =>
    {| App.query := v; App.isSearching := App.isSearching s;
       App.result := App.result s; App.error := App.error s;
       App.config := App.config s; App.showSettings := App.showSettings s;
       App.timelineImage := App.timelineImage s;
       App.literatureReview := App.literatureReview s;
       App.historyOpen := App.historyOpen s;
       App.historyItems := App.historyItems s;
       App.currentResearchId := App.currentResearchId s |}).

Definition setConfig (v : ResearchConfig.t) : App.M unit :=
  App.modify (fun s =>
    {| App.query := App.query s; App.isSearching := App.isSearching s;
       App.result := App.result s; App.error := App.error s;
       App.config := v; App.showSettings := App.showSettings s;
       App.timelineImage := App.timelineImage s;
       App.literatureReview := App.literatureReview s;
       App.historyOpen := App.historyOpen s;
       App.historyItems := App.historyItems s;
       App.currentResearchId := App.currentResearchId s |}).

Definition setHistoryOpen (v : bool) : App.M unit :=
  App.modify (fun s =>
    {| App.query := App.query s; App.isSearching := App.isSearching s;
       App.result := App.result s; App.error := App.error s;
       App.config := App.config s; App.showSettings := App.showSettings s;
       App.timelineImage := App.timelineImage s;
       App.literatureReview := App.literatureReview s;
       App.historyOpen := v;
       App.historyItems := App.historyItems s;
       App.currentResearchId := App.currentResearchId s |}).

(** [localStorage.removeItem('deep_research_history')] *)
Definition localStorage_removeItem : App.M unit :=
  fun w =>
    (Return tt,
     {| App.state := App.state w;
        App.localStorage :=
          {| App.stored := None;
             App.accepts := App.accepts (App.localStorage w) |} |}).

(** [clearHistory]; [confirmed] is the answer of the user to [confirm]. *)
Definition clearHistory (confirmed : bool) : App.M unit :=
  if confirmed then
    App.setHistoryItems [] ;;
    localStorage_removeItem
  else App.ret tt.

(** [loadHistoryItem]: it reads nothing of the render. *)
Definition loadHistoryItem (item : HistoryItem.t) : App.M unit :=
  setQuery (HistoryItem.topic item) ;;
  App.setResult (Some (HistoryItem.result item)) ;;
  App.setTimelineImage (HistoryItem.timelineImage item) ;;
  App.setLiteratureReview
    (match HistoryItem.literatureReview item with   (* ... || null *)
     | Some (c :: r) => Some (c :: r)
     | Some [] | None => None
     end) ;;
  setConfig (HistoryItem.config item) ;;
  App.setCurrentResearchId (Some (HistoryItem.id item)) ;;
  setHistoryOpen false ;;
  App.setShowSettings false.

End AppSidebar.

(** * Regular expressions of the code *)

Module JsRegExp.

(** [s.replace(/\n/g, rep)] *)
Fixpoint replace_newlines (rep s : jsstring) : jsstring :=
  match s with
  | [] => []
  | c :: r =>
      if N.eqb c 10 then rep ++ replace_newlines rep r
      else c :: replace_newlines rep r
  end.

(** The class [a-z0-9] under the flag [i] (without [u]): the ASCII letters
    of both cases and the digits. *)
Definition isAsciiAlnum (c : code_unit) : bool :=
  (N.leb 48 c && N.leb c 57) || (N.leb 65 c && N.leb c 90)
  || (N.leb 97 c && N.leb c 122).

(** [s.replace(/[^a-z0-9]/gi, '-')] *)
Definition replace_nonalnum (s : jsstring) : jsstring :=
  map (fun c => if isAsciiAlnum c then c else 45%N) s.

(** [s.toLowerCase()] as it acts on ASCII units; the code applies it to the
    result of [replace_nonalnum] only.  Other units are left as they are,
    which is not what the platform does in general. *)
Definition toLowerCase_ascii (s : jsstring) : jsstring :=
  map (fun c => if N.leb 65 c && N.leb c 90 then (c + 32)%N else c) s.

(** [s.split(/,\s*/)]: [skipping] holds while the white space that follows
    a comma is being consumed.  The head of the result is the piece being
    read. *)
Fixpoint split_from (skipping : bool) (s : jsstring) : list jsstring :=
  match s with
  | [] => [[]]
  | c :: r =>
      if skipping && JsString.isWhiteSpace c then split_from true r
      else if N.eqb c 44 then [] :: split_from true r
      else match split_from false r with
           | piece :: more => (c :: piece) :: more
           | [] => [[c]]
           end
  end.

Definition split_commas (s : jsstring) : list jsstring := split_from false s.

End JsRegExp.

(** * components/ArticleCard.tsx *)

Module ArticleCard.

Definition formatAuthors (authors : jsstring) : jsstring :=
  match authors with
  | [] => []                                   (* if (!authors) return '' *)
  | _ :: _ =>
      let authorList := JsRegExp.split_commas authors in
      if Nat.leb (length authorList) 3 then authors
      else JsString.join (lit ", ") (firstn 3 authorList) ++ lit " et al."
  end.

End ArticleCard.

(** * App.tsx: export of a session as Markdown *)

Module AppExport.

Definition nl : jsstring := [10%N].

(** [arr.forEach((x, index) => ...)] with a body that updates [content]. *)
Fixpoint forEach_from (A : Type) (body : jsstring -> A -> nat -> jsstring)
  (l : list A) (index : nat) (content : jsstring) : jsstring :=
  match l with
  | [] => content
  | x :: r => forEach_from body r (S index) (body content x index)
  end.

(** The body of the loop over [result.articles]. *)
Definition append_article (content : jsstring) (article : Article.t)
  (index : nat) : jsstring :=
  let content :=
    content ++ concat [lit "### "; JsString.ofNumber (N.of_nat (index + 1));
                       lit ". "; Article.title article; nl] in
  let content := content ++ concat [lit "*"; Article.authors article; lit "*"] in
  let content :=
    match Article.publication_date article with
    | _ :: _ =>
        content ++ concat [[32; 8226; 32]%N; lit "**";
                           Article.publication_date article; lit "**"]
    | [] => content
    end in
  let content := content ++ nl ++ nl in
  let content :=
    match Article.url article with
    | Some (c :: r) =>
        content ++ concat [lit "[Read Full Paper]("; c :: r; lit ")"; nl; nl]
    | Some [] | None => content
    end in
  let content :=
    content ++ concat [lit "**Significance**"; nl;
                       Article.significance article; nl; nl] in
  let content :=
    content ++ concat [lit "**AI Summary**"; nl;
                       Article.ai_summary article; nl; nl] in
  content ++ concat [lit "---"; nl; nl].

(** The name of the downloaded file. *)
Definition download_name (result : ResearchResult.t) : jsstring :=
  concat [lit "DeepResearch-";
          JsRegExp.toLowerCase_ascii
            (JsRegExp.replace_nonalnum (ResearchResult.topic result));
          lit ".md"].

(** [handleExportMarkdown]: the name and the text of the file it makes the
    browser download, [None] when it returns at once.  [date] is what
    [new Date().toLocaleString()] gives; [result], [timelineImage] and
    [literatureReview] are the cells of the render. *)
Definition handleExportMarkdown (date : jsstring)
  (result : option ResearchResult.t)
  (timelineImage literatureReview : option jsstring)
  : option (jsstring * jsstring) :=
  match result with
  | None => None
  | Some result =>
      let content := concat [lit "# DeepResearch: ";
                             ResearchResult.topic result; nl] in
      let content :=
        content ++ concat [lit "*Generated by Gemini 3 Pro on "; date;
                           lit "*"; nl; nl] in
      let content := content ++ concat [lit "## Development Summary"; nl] in
      let content :=
        content ++ concat [lit "> ";
                           JsRegExp.replace_newlines (nl ++ lit "> ")
                             (ResearchResult.summary result);
                           nl; nl] in
      let content :=
        match timelineImage with
        | Some (c :: r) =>
            let content := content ++ concat [lit "## Visual Timeline"; nl] in
            content ++ concat [lit "![Timeline of ";
                               ResearchResult.topic result; lit "](";
                               c :: r; lit ")"; nl; nl]
        | Some [] | None => content
        end in
      let content :=
        match literatureReview with
        | Some (c :: r) =>
            let content :=
              content ++ concat [lit "## Literature Review"; nl; nl] in
            content ++ concat [c :: r; nl; nl]
        | Some [] | None => content
        end in
      let content :=
        content ++ concat [lit "## Seminal & Important Articles"; nl; nl] in
      let content :=
        forEach_from append_article (ResearchResult.articles result) 0
          content in
      Some (download_name result, content)
  end.

End AppExport.

(** * services/geminiService.ts: the timeline image stage *)

Module TimelineImage.

(** What this stage may throw: one of the values of [exn], or the
    [TypeError] the engine raises when a property is read on [undefined]
    or [undefined] is called. *)
Inductive thrown : Type :=
| Exn (e : exn)
| TypeError.

Inductive outcome (A : Type) : Type :=
| Done (a : A)
| Raised (t : thrown).
Arguments Done {A} a.
Arguments Raised {A} t.

(** The response of the transport, as far as the stage reads it; every
    level is optional in the SDK. *)
Record Blob : Type := { mimeType : option jsstring; data : option jsstring }.
Record Part : Type := { inlineData : option Blob }.
Record Content : Type := { parts : option (list Part) }.
Record Candidate : Type := { content : option Content }.
Record Response : Type := { candidates : option (list Candidate) }.

Record Request : Type := {
  model : jsstring;
  text : jsstring;                 (* contents.parts[0].text *)
  imageSize : jsstring;
  aspectRatio : jsstring
}.

(** [window.aistudio]: each member may be missing; a call resolves or
    rejects. *)
Record AIStudio : Type := {
  hasSelectedApiKey : option (outcome bool);
  openSelectKey : option (outcome unit)
}.

(** The client is built with [process.env.API_KEY], whatever it holds, and
    asked once. *)
Record Env : Type := {
  aistudio : option AIStudio;
  API_KEY : option jsstring;
  generateContent : option jsstring -> Request -> outcome Response
}.

Definition prompt (targetLang : option jsstring) (visualPrompt : jsstring)
  : jsstring :=
  concat [
    lit "Create a high-quality, professional infographic timeline. 
  Style: Clean, academic, modern data visualization. 
  Language Requirement: All visible text labels inside the infographic MUST be in ";
    JsString.ofOptional targetLang; lit ".
  Content description: "; visualPrompt ].

(** The check of the selected key that opens the function. *)
Definition ensureKey (env : Env) : outcome unit :=
  match aistudio env with
  | Some studio =>
      match hasSelectedApiKey studio with
      | Some call =>
          match call with
          | Raised t => Raised t
          | Done true => Done tt
          | Done false =>
              match openSelectKey studio with
              | Some opened => opened
              | None => Raised TypeError
              end
          end
      | None => Done tt
      end
  | None => Done tt
  end.

(** The loop over the parts: the first one that carries inline data. *)
Fixpoint firstInline (ps : list Part) : option Blob :=
  match ps with
  | [] => None
  | part :: rest =>
      match inlineData part with
      | Some blob => Some blob
      | None => firstInline rest
      end
  end.

Definition noImage : thrown :=
  Exn (Error (lit "No image data found in response")).

Definition dataUrl (blob : Blob) : jsstring :=
  concat [lit "data:"; JsString.ofOptional (mimeType blob); lit ";base64,";
          JsString.ofOptional (data blob)].

Definition readImage (response : Response) : outcome jsstring :=
  match candidates response with
  | None => Raised noImage
  | Some [] => Raised TypeError           (* candidates[0] is undefined *)
  | Some (first :: _) =>
      match content first with
      | None => Raised TypeError          (* content is undefined *)
      | Some c =>
          match parts c with
          | None => Raised noImage
          | Some ps =>
              match firstInline ps with
              | Some blob => Done (dataUrl blob)
              | None => Raised noImage
              end
          end
      end
  end.

Definition generateTimelineImage (env : Env) (visualPrompt size
  language : jsstring) : outcome jsstring :=
  match ensureKey env with
  | Raised t => Raised t
  | Done _ =>
      let targetLang := GeminiService.languageNames language in
      match generateContent env (API_KEY env)
              {| model := lit "gemini-3-pro-image-preview";
                 text := prompt targetLang visualPrompt;
                 imageSize := size;
                 aspectRatio := lit "16:9" |} with
      | Raised t => Raised t                          (* catch: log, rethrow *)
      | Done response => readImage response
      end
  end.

End TimelineImage.

(** * components/TimelineSection.tsx *)

Module TimelineSection.

Record State : Type := {
  size : jsstring;
  loading : bool;
  error : option jsstring
}.



End TimelineSection.

(** * components/ChatWidget.tsx *)

Module ChatWidget.

Inductive role : Type := user | model.

Record Message : Type := {
  id : jsstring;
  role_of : role;
  text : jsstring
}.

(** The cells of the widget and [chatSessionRef.current]: the chat is kept
    as what its [sendMessage] answers to a message, [None] while no chat
    was created. *)
Record State : Type := {
  isOpen : bool;
  messages : list Message;
  input : jsstring;
  isLoading : bool;
  chatSessionRef :
    option (jsstring -> completion GeminiService.GenerateContentResponse)
}.

Definition welcome (researchResult : ResearchResult.t) : Message :=
  {| id := lit "welcome";
     role_of := model;
     text := concat [lit "Hi! I've studied the research on **";
                     ResearchResult.topic researchResult;
                     lit "**. Ask me anything about the summary or the articles!"] |}.

(** The effect that runs when the research result changes.  [connect]
    stands for [ai.chats.create]: the chat that a model and a system
    instruction give. *)
Definition initialize (env : GeminiService.Env)
  (connect : jsstring * jsstring ->
             jsstring -> completion GeminiService.GenerateContentResponse)
  (researchResult : ResearchResult.t) (s : State) : completion State :=
  match GeminiService.getResearchChatSession env researchResult with
  | Throw e => Throw e
  | Return created =>
      Return {| isOpen := isOpen s;
                messages := [welcome researchResult];
                input := input s;
                isLoading := isLoading s;
                chatSessionRef := Some (connect created) |}
  end.

(** [handleSend], taken as one step; [now_user] and [now_reply] are the
    two readings of [Date.now()].  The guard reads the input and the
    loading flag of the render; the messages are updated from their
    current value ([prev => [...prev, m]]). *)
Definition handleSend (now_user now_reply : N) (render s : State) : State :=
  match JsString.trim (input render), chatSessionRef s, isLoading render with
  | _ :: _, Some sendMessage, false =>
      let userMessage :=
        {| id := JsString.ofNumber now_user; role_of := user;
           text := input render |} in
      let reply :=
        match sendMessage (text userMessage) with
        | Return response =>
            match GeminiService.text response with
            | Some (c :: r) => c :: r
            | Some [] | None => lit "I couldn't generate a response."
            end
        | Throw _ =>
            lit "Sorry, I encountered an error while trying to answer that."
        end in
      {| isOpen := isOpen s;
         messages :=
           (messages s ++ [userMessage])
           ++ [{| id := JsString.ofNumber now_reply; role_of := model;
                  text := reply |}];
         input := [];
         isLoading := false;
         chatSessionRef := chatSessionRef s |}
  | _, _, _ => s
  end.

(** [handleSend] up to its [await]: [None] when the guard returns at once;
    otherwise the state with the question appended, the input cleared and
    the widget loading, together with the request that is then in flight,
    kept as what [sendMessage] will answer. *)
Definition handleSend_asks (now_user : N) (render s : State)
  : option (State * completion GeminiService.GenerateContentResponse) :=
  match JsString.trim (input render), chatSessionRef s, isLoading render with
  | _ :: _, Some sendMessage, false =>
      let userMessage :=
        {| id := JsString.ofNumber now_user; role_of := user;
           text := input render |} in
      Some ({| isOpen := isOpen s;
               messages := messages s ++ [userMessage];
               input := [];
               isLoading := true;
               chatSessionRef := chatSessionRef s |},
            sendMessage (text userMessage))
  | _, _, _ => None
  end.

(** [handleSend] from its [await] on, when the request has settled: the
    answer is appended to the messages of that time
    ([prev => [...prev, m]]) and the widget stops loading. *)
Definition handleSend_settles (now_reply : N)
  (settled : completion GeminiService.GenerateContentResponse) (s : State)
  : State :=
  let reply :=
    match settled with
    | Return response =>
        match GeminiService.text response with
        | Some (c :: r) => c :: r
        | Some [] | None => lit "I couldn't generate a response."
        end
    | Throw _ =>
        lit "Sorry, I encountered an error while trying to answer that."
    end in
  {| isOpen := isOpen s;
     messages :=
       messages s
       ++ [{| id := JsString.ofNumber now_reply; role_of := model;
              text := reply |}];
     input := input s;
     isLoading := false;
     chatSessionRef := chatSessionRef s |}.

(** [setInput(e.target.value)] and [setIsOpen(b)]. *)
Definition setInput (value : jsstring) (s : State) : State :=
  {| isOpen := isOpen s; messages := messages s; input := value;
     isLoading := isLoading s; chatSessionRef := chatSessionRef s |}.


(** The heading [handleExport] gives to a message. *)
Definition roleTitle (r : role) : jsstring :=
  match r with
  | user => lit "User"
  | model => lit "Assistant"
  end.

Definition exportEntry (m : Message) : jsstring :=
  concat [lit "### "; roleTitle (role_of m); [10%N]; text m; [10%N]].

(** [handleExport]: the name and the text of the file it makes the browser
    download, [None] when it returns at once.  [date] is what
    [new Date().toLocaleString()] gives. *)
Definition handleExport (date : jsstring) (researchResult : ResearchResult.t)
  (render : State) : option (jsstring * jsstring) :=
  match messages render with
  | [] => None
  | _ :: _ =>
      let title := lit "Research Chat - " ++ ResearchResult.topic researchResult in
      let content :=
        JsString.join ([10%N] ++ lit "---" ++ [10%N; 10%N])
          (map exportEntry (messages render)) in
      let fileContent :=
        concat [lit "# "; title; [10%N]; lit "Date: "; date; [10%N; 10%N];
                content] in
      Some (concat [lit "chat-";
                    JsRegExp.toLowerCase_ascii
                      (JsRegExp.replace_nonalnum
                         (ResearchResult.topic researchResult));
                    lit ".md"],
            fileContent)
  end.

End ChatWidget.

(** * Vocabulary of the statements and sample data *)

(** The text has a [{] at or before a [}]. *)
Definition has_span (text : jsstring) : Prop :=
  exists a b d, text = a ++ lbrace :: b ++ rbrace :: d.

(** Kinds of frames and of values. *)
Definition isFObject (f : frame) : bool :=
  match f with
  | FObject _ _ => true
  | FArray _ => false
  end.

Definition isJObject (v : json) : bool :=
  match v with
  | JObject _ => true
  | _ => false
  end.

(** The parser stands inside an object, or has finished one. *)
Definition in_object (st : pstate) : bool :=
  match st with
  | PValue stack | PFirstElem stack | PAfterElem _ stack =>
      existsb isFObject stack
  | PFirstKey _ | PKey _ _ | PColon _ _ _ | PAfterMember _ _ => true
  | PDone v => isJObject v
  end.

(** The parser has not finished the top-level value. *)
Definition not_done (st : pstate) : Prop :=
  match st with
  | PDone _ => False
  | _ => True
  end.

(** A keyword state only ever carries a keyword token. *)
Definition lex_wf (st : lexstate) : Prop :=
  match st with
  | LKeyword _ t => t = TTrue \/ t = TFalse \/ t = TNull
  | _ => True
  end.

(** The configuration of the scenario of section 8. *)
Definition sample_config : ResearchConfig.t :=
  {| ResearchConfig.focus := lit "recent";
     ResearchConfig.count := 10;
     ResearchConfig.language := lit "en" |}.

(** A transport that answers every request with the same text. *)
Definition env_answering (t : option jsstring) : GeminiService.Env :=
  {| GeminiService.API_KEY := Some (lit "key");
     GeminiService.generateContent :=
       fun _ => Return {| GeminiService.text := t |} |}.

(** The credential is present and the transport answers [t]. *)
Definition answers (env : GeminiService.Env) (t : option jsstring) : Prop :=
  JsString.truthy (GeminiService.API_KEY env) = true
  /\ forall req, GeminiService.generateContent env req
                 = Return {| GeminiService.text := t |}.

(** A response with prose and a markdown fence around the object. *)
Definition fenced_response : jsstring :=
  lit "Sure! ```json
{" ++ dq ++ lit "topic" ++ dq ++ lit ":" ++ dq ++ lit "CRISPR" ++ dq ++ lit "}
```".

(** What [researchTopic] returns when [JSON.parse] is given [candidate]. *)
Definition parsed (candidate : jsstring) : completion json :=
  match JSON.parse candidate with
  | Some v => Return v
  | None => Throw SyntaxError
  end.

(** A session whose id and timestamp are [n]. *)
Definition sample_item (n : N) : HistoryItem.t :=
  {| HistoryItem.id := JsString.ofNumber n;
     HistoryItem.timestamp := n;
     HistoryItem.topic := lit "CRISPR";
     HistoryItem.result := JObject [(lit "topic", JString (lit "CRISPR"))];
     HistoryItem.timelineImage := None;
     HistoryItem.literatureReview := None;
     HistoryItem.config := sample_config |}.

(** A view that shows a session, with the given history and active id. *)
Definition sample_state (history : list HistoryItem.t)
  (current : option jsstring) : App.State :=
  {| App.query := lit "CRISPR";
     App.isSearching := false;
     App.result := Some (JObject [(lit "topic", JString (lit "CRISPR"))]);
     App.error := None;
     App.config := sample_config;
     App.showSettings := false;
     App.timelineImage := Some (lit "data:image/png;base64,AAAA");
     App.literatureReview := Some (lit "# Review");
     App.historyOpen := true;
     App.historyItems := history;
     App.currentResearchId := current |}.

(** A browser that takes every write, and one whose quota is exhausted. *)
Definition roomy (history : list HistoryItem.t) (current : option jsstring)
  : App.World :=
  {| App.state := sample_state history current;
     App.localStorage := {| App.stored := Some history;
                            App.accepts := fun _ => true |} |}.

Definition full (history : list HistoryItem.t) (current : option jsstring)
  : App.World :=
  {| App.state := sample_state history current;
     App.localStorage := {| App.stored := None;
                            App.accepts := fun _ => false |} |}.

(** A history at its capacity. *)
Definition fifteen : list HistoryItem.t :=
  map sample_item [15; 14; 13; 12; 11; 10; 9; 8; 7; 6; 5; 4; 3; 2; 1]%N.

(** The sessions that a deletion of [id] keeps. *)
Definition remaining (id : jsstring) (h : list HistoryItem.t)
  : list HistoryItem.t :=
  filter (fun item => negb (JsString.eqb (HistoryItem.id item) id)) h.

(** [new] is [old] with only the named field set. *)
Definition only_timelineImage_set (url : jsstring) (old new : HistoryItem.t)
  : Prop :=
  HistoryItem.timelineImage new = Some url
  /\ HistoryItem.id new = HistoryItem.id old
  /\ HistoryItem.timestamp new = HistoryItem.timestamp old
  /\ HistoryItem.topic new = HistoryItem.topic old
  /\ HistoryItem.config new = HistoryItem.config old
  /\ HistoryItem.result new = HistoryItem.result old
  /\ HistoryItem.literatureReview new = HistoryItem.literatureReview old.

Definition only_literatureReview_set (review : jsstring)
  (old new : HistoryItem.t) : Prop :=
  HistoryItem.literatureReview new = Some review
  /\ HistoryItem.id new = HistoryItem.id old
  /\ HistoryItem.timestamp new = HistoryItem.timestamp old
  /\ HistoryItem.topic new = HistoryItem.topic old
  /\ HistoryItem.config new = HistoryItem.config old
  /\ HistoryItem.result new = HistoryItem.result old
  /\ HistoryItem.timelineImage new = HistoryItem.timelineImage old.

(** The session [handleSearch] builds from a discovery result. *)
Definition new_session (now_id now_ts : N) (render : App.State) (data : json)
  : HistoryItem.t :=
  {| HistoryItem.id := JsString.ofNumber now_id;
     HistoryItem.timestamp := now_ts;
     HistoryItem.topic := App.query render;
     HistoryItem.result := data;
     HistoryItem.timelineImage := None;
     HistoryItem.literatureReview := None;
     HistoryItem.config := App.config render |}.

(** A transport that rejects every request. *)
Definition env_rejecting (detail : jsstring) : GeminiService.Env :=
  {| GeminiService.API_KEY := Some (lit "key");
     GeminiService.generateContent :=
       fun _ => Throw (TransportFailure detail) |}.

(** No credential. *)
Definition env_without_key : GeminiService.Env :=
  {| GeminiService.API_KEY := None;
     GeminiService.generateContent :=
       fun _ => Return {| GeminiService.text := Some fenced_response |} |}.

(** A discovery result with two articles; the second has no journal. *)
Definition sample_article (n : N) : Article.t :=
  {| Article.title := lit "Paper " ++ JsString.ofNumber n;
     Article.authors := lit "Doudna, J.; Charpentier, E.";
     Article.journal := if N.eqb n 1 then Some (lit "Science") else None;
     Article.publication_date := lit "2012";
     Article.ai_summary := lit "A programmable nuclease.";
     Article.significance := lit "Founding paper.";
     Article.url := None |}.

Definition sample_result : ResearchResult.t :=
  {| ResearchResult.topic := lit "CRISPR";
     ResearchResult.summary := lit "From bacterial immunity to genome editing.";
     ResearchResult.suggestedVisualPrompt := lit "A timeline of CRISPR.";
     ResearchResult.articles := [sample_article 1; sample_article 2] |}.

(** The three focus blocks and the three languages of the code. *)
Definition focus_blocks : list jsstring :=
  [GeminiService.classicBlock; GeminiService.recentBlock;
   GeminiService.balancedBlock].

Definition recognized_languages : list jsstring :=
  [lit "en"; lit "zh"; lit "ja"].

(** The two texts of the discovery request, as [researchTopic] compiles
    them. *)
Definition discovery_instruction (config : ResearchConfig.t) : jsstring :=
  GeminiService.researchTopic_systemInstruction
    (GeminiService.languageNames (ResearchConfig.language config))
    (GeminiService.focusInstruction (ResearchConfig.focus config)).

Definition discovery_prompt (topic : jsstring) (config : ResearchConfig.t)
  : jsstring :=
  GeminiService.researchTopic_prompt topic (ResearchConfig.count config)
    (GeminiService.languageNames (ResearchConfig.language config)).

(** The places of the two texts where the name of the language belongs,
    each with the words that surround it in the text. *)
Definition instruction_language_places (name : jsstring) : list jsstring :=
  [ lit "The user has requested the output in " ++ name ++ lit ".";
    lit " fields MUST be written in " ++ name ++ lit ".";
    lit "development and evolution of the field in " ++ name ++ lit ".";
    lit "the significance of each selected paper in " ++ name ++ lit "." ].

Definition prompt_language_places (name : jsstring) : list jsstring :=
  [ lit "how this field developed in " ++ name ++ lit ", explicitly";
    lit "Brief summary of the content in " ++ name ++ dq;
    lit "(mention journal/impact if relevant) in " ++ name ++ dq ].

(** The compiled texts read [name] at every place of the language. *)
Definition reads_language (topic : jsstring) (config : ResearchConfig.t)
  (name : jsstring) : Prop :=
  Forall (JsString.includes (discovery_instruction config))
    (instruction_language_places name)
  /\ Forall (JsString.includes (discovery_prompt topic config))
       (prompt_language_places name).

(** The request [researchTopic] sends to the transport. *)
Definition discovery_request (topic : jsstring) (config : ResearchConfig.t)
  : GeminiService.GenerateContentParameters :=
  {| GeminiService.model := lit "gemini-3-pro-preview";
     GeminiService.contents := discovery_prompt topic config;
     GeminiService.systemInstruction := discovery_instruction config;
     GeminiService.googleSearch := true;
     GeminiService.thinkingBudget := 16000 |}.

(** ** The events of the application *)

(** What the user, or a finished stage, can make the application do; the
    wiring is that of the JSX of [App].  A stage calls the handler that its
    section was given when the generation started: [captured] is the
    render of that time, which is the latest render only if nothing
    changed while the stage was at work. *)
Inductive action : Type :=
| Search (env : GeminiService.Env) (now_id now_ts : N)   (* onSubmit *)
| Select (item : HistoryItem.t)                          (* onSelect *)
| Delete (id : jsstring)                                 (* onDelete *)
| Clear (confirmed : bool)                               (* onClear *)
| ImageGenerated (captured : App.State) (url : jsstring) (* onImageGenerated *)
| ReviewGenerated (captured : App.State) (review : jsstring).
                                                         (* onReviewGenerated *)

(** An event of the page reaches the handler of the latest render; the
    result of a stage reaches the handler of the render it was captured
    in. *)
Definition perform (a : action) (w : App.World) : completion unit * App.World :=
  match a with
  | Search env now_id now_ts =>
      App.dispatch (App.handleSearch env now_id now_ts) w
  | Select item => AppSidebar.loadHistoryItem item w
  | Delete id => App.dispatch (fun render => App.deleteHistoryItem render id) w
  | Clear confirmed => AppSidebar.clearHistory confirmed w
  | ImageGenerated captured url => App.handleTimelineGenerated captured url w
  | ReviewGenerated captured review =>
      App.handleReviewGenerated captured review w
  end.

(** The render a stage result was captured in, for the two events that
    have one. *)
Definition captured_render (a : action) : option App.State :=
  match a with
  | ImageGenerated captured _ | ReviewGenerated captured _ => Some captured
  | Search _ _ _ | Select _ | Delete _ | Clear _ => None
  end.

Definition history (w : App.World) : list HistoryItem.t :=
  App.historyItems (App.state w).

Definition active (w : App.World) : option jsstring :=
  App.currentResearchId (App.state w).

Definition ids (h : list HistoryItem.t) : list jsstring :=
  map HistoryItem.id h.

(** The list that [updateHistoryItem] writes. *)
Definition updated (id : jsstring) (updates : Updates.t)
  (h : list HistoryItem.t) : list HistoryItem.t :=
  map (fun item =>
         if JsString.eqb (HistoryItem.id item) id then spread item updates
         else item) h.

Definition within_capacity (w : App.World) : Prop := length (history w) <= 15.

(** The active id, if any, is the id of a session of the history. *)
Definition active_present (w : App.World) : Prop :=
  match active w with
  | None => True
  | Some id => In id (ids (history w))
  end.

(** The history that the handler of a render writes is the history of that
    render: such a handler meets [P] when the history of its render
    does. *)
Definition captured_history (P : list HistoryItem.t -> Prop) (a : action)
  : Prop :=
  match captured_render a with
  | Some captured => P (App.historyItems captured)
  | None => True
  end.

(** The events under which the active session stays in the history: a
    selected session comes from the list, a deletion is persisted, the
    history is not cleared under an active session, and the result of a
    stage reaches a handler whose render, if it had an active session, had
    the session that is active now in its history. *)
Definition keeps_active (a : action) (w : App.World) : Prop :=
  match a with
  | Select item => In item (history w)
  | Delete id =>
      App.accepts (App.localStorage w) (remaining id (history w)) = true
  | Clear confirmed => confirmed = false \/ active w = None
  | Search _ _ _ => True
  | ImageGenerated captured _ | ReviewGenerated captured _ =>
      match App.currentResearchId captured, active w with
      | Some (_ :: _), Some id => In id (ids (App.historyItems captured))
      | _, _ => True
      end
  end.

(** A search takes an id that no session carries yet. *)
Definition fresh_id (a : action) (w : App.World) : Prop :=
  match a with
  | Search _ now_id _ => ~ In (JsString.ofNumber now_id) (ids (history w))
  | _ => True
  end.

(** ** The image stage *)

(** The request [generateTimelineImage] sends. *)
Definition image_request (visualPrompt size language : jsstring)
  : TimelineImage.Request :=
  {| TimelineImage.model := lit "gemini-3-pro-image-preview";
     TimelineImage.text :=
       TimelineImage.prompt (GeminiService.languageNames language)
         visualPrompt;
     TimelineImage.imageSize := size;
     TimelineImage.aspectRatio := lit "16:9" |}.

(** An environment without key dialog whose transport answers [response]. *)
Definition image_env (response : TimelineImage.Response) : TimelineImage.Env :=
  {| TimelineImage.aistudio := None;
     TimelineImage.API_KEY := Some (lit "key");
     TimelineImage.generateContent :=
       fun _ _ => TimelineImage.Done response |}.

Definition text_part : TimelineImage.Part :=
  {| TimelineImage.inlineData := None |}.

Definition png_part (payload : jsstring) : TimelineImage.Part :=
  {| TimelineImage.inlineData :=
       Some {| TimelineImage.mimeType := Some (lit "image/png");
               TimelineImage.data := Some payload |} |}.

Definition response_with (ps : list TimelineImage.Part)
  : TimelineImage.Response :=
  {| TimelineImage.candidates :=
       Some [ {| TimelineImage.content :=
                   Some {| TimelineImage.parts := Some ps |} |} ] |}.

(** ** The export *)

(** The lines of a text: what stands between its line feeds. *)
Fixpoint lines (s : jsstring) : list jsstring :=
  match s with
  | [] => [[]]
  | c :: r =>
      if N.eqb c 10 then [] :: lines r
      else match lines r with
           | l :: ls => (c :: l) :: ls
           | [] => [[c]]
           end
  end.

(** A lower-case ASCII letter, a digit or a hyphen. *)
Definition isSlugUnit (c : code_unit) : bool :=
  (N.leb 97 c && N.leb c 122) || (N.leb 48 c && N.leb c 57) || N.eqb c 45.

(** The section the export writes for the article at position [index]. *)
Definition article_section (article : Article.t) (index : nat) : jsstring :=
  AppExport.append_article [] article index.

(** A result whose summary has two lines and whose topic has a space and
    capital letters. *)
Definition export_result : ResearchResult.t :=
  {| ResearchResult.topic := lit "CRISPR Cas9";
     ResearchResult.summary := lit "First line.
Second line.";
     ResearchResult.suggestedVisualPrompt := lit "A timeline of CRISPR.";
     ResearchResult.articles := [sample_article 1; sample_article 2] |}.

(** ** Author lists *)

(** Names as a list of authors is written: no comma inside a name, and no
    white space at the head of a name that follows a comma. *)
Definition plain_name (name : jsstring) : Prop := ~ In 44%N name.

Definition starts_clean (name : jsstring) : Prop :=
  match name with
  | c :: _ => JsString.isWhiteSpace c = false
  | [] => True
  end.

Definition author_names (names : list jsstring) : Prop :=
  Forall plain_name names /\ Forall starts_clean (tl names).

(** ** The chat widget *)





(** A question of the user that is not blank. *)
Definition question (u : ChatWidget.Message) : Prop :=
  ChatWidget.role_of u = ChatWidget.user
  /\ JsString.trim (ChatWidget.text u) <> [].




(** A widget that was just mounted. *)
Definition chat_mounted : ChatWidget.State :=
  {| ChatWidget.isOpen := false;
     ChatWidget.messages := [];
     ChatWidget.input := [];
     ChatWidget.isLoading := false;
     ChatWidget.chatSessionRef := None |}.

(** A chat that fails on every message, and one that answers [t]. *)
Definition chat_failing (_ : jsstring * jsstring) (_ : jsstring)
  : completion GeminiService.GenerateContentResponse :=
  Throw (TransportFailure (lit "offline")).


(** What [handleSend] answers with. *)
Definition reply_to
  (chat : jsstring -> completion GeminiService.GenerateContentResponse)
  (question : jsstring) : jsstring :=
  match chat question with
  | Return response =>
      match GeminiService.text response with
      | Some (c :: r) => c :: r
      | Some [] | None => lit "I couldn't generate a response."
      end
  | Throw _ => lit "Sorry, I encountered an error while trying to answer that."
  end.

(** * Facts about strings *)

Unset Implicit Arguments.

Section StringFacts.

Lemma eqb_eq (a b : jsstring) : JsString.eqb a b = true <-> a = b.
Proof.
  revert b; induction a as [|x a IH]; intros [|y b]; simpl;
    try (split; [discriminate | congruence]); try tauto.
  rewrite andb_true_iff, N.eqb_eq, IH. split.
  - intros [-> ->]; reflexivity.
  - intros E; injection E; auto.
Qed.

Lemma eqb_neq (a b : jsstring) : JsString.eqb a b = false <-> a <> b.
Proof.
  rewrite <- eqb_eq. destruct (JsString.eqb a b); split; congruence.
Qed.

Variable c : code_unit.

Lemma indexOf_from_absent (s : jsstring) (i : Z) :
  ~ In c s -> JsString.indexOf_from c s i = (-1)%Z.
Proof.
  revert i; induction s as [|x s IH]; intros i H; simpl; [reflexivity|].
  destruct (N.eqb_spec x c) as [->|_].
  - exfalso; apply H; left; reflexivity.
  - apply IH. intros Hin; apply H; right; exact Hin.
Qed.

Lemma indexOf_from_first (pre rest : jsstring) (i : Z) :
  ~ In c pre ->
  JsString.indexOf_from c (pre ++ c :: rest) i = (i + Z.of_nat (length pre))%Z.
Proof.
  revert i; induction pre as [|x pre IH]; intros i H; simpl.
  - rewrite N.eqb_refl. lia.
  - destruct (N.eqb_spec x c) as [->|_].
    + exfalso; apply H; left; reflexivity.
    + rewrite IH by (intros Hin; apply H; right; exact Hin). lia.
Qed.

Lemma lastIndexOf_from_absent (s : jsstring) (i found : Z) :
  ~ In c s -> JsString.lastIndexOf_from c s i found = found.
Proof.
  revert i found; induction s as [|x s IH]; intros i found H; simpl;
    [reflexivity|].
  destruct (N.eqb_spec x c) as [->|_].
  - exfalso; apply H; left; reflexivity.
  - apply IH. intros Hin; apply H; right; exact Hin.
Qed.

Lemma lastIndexOf_from_last (pre post : jsstring) (i found : Z) :
  ~ In c post ->
  JsString.lastIndexOf_from c (pre ++ c :: post) i found
  = (i + Z.of_nat (length pre))%Z.
Proof.
  revert i found; induction pre as [|x pre IH]; intros i found H; simpl.
  - rewrite N.eqb_refl, lastIndexOf_from_absent by exact H. lia.
  - rewrite IH by exact H. lia.
Qed.

End StringFacts.

Lemma substring_span (pre mid post : jsstring) :
  JsString.substring (pre ++ mid ++ post)
    (Z.of_nat (length pre)) (Z.of_nat (length pre) + Z.of_nat (length mid))
  = mid.
Proof.
  unfold JsString.substring, JsString.clamp.
  rewrite !length_app.
  set (p := length pre). set (m := length mid). set (q := length post).
  replace (Z.min (Z.max (Z.of_nat p) 0) (Z.of_nat (p + (m + q))))
    with (Z.of_nat p) by lia.
  replace (Z.min (Z.max (Z.of_nat p + Z.of_nat m) 0) (Z.of_nat (p + (m + q))))
    with (Z.of_nat (p + m)) by lia.
  replace (Z.min (Z.of_nat p) (Z.of_nat (p + m))) with (Z.of_nat p) by lia.
  replace (Z.max (Z.of_nat p) (Z.of_nat (p + m))) with (Z.of_nat (p + m)) by lia.
  replace (Z.to_nat (Z.of_nat (p + m) - Z.of_nat p)) with m by lia.
  rewrite Nat2Z.id. subst p m.
  rewrite skipn_app, skipn_all, Nat.sub_diag. simpl.
  rewrite firstn_app, firstn_all, Nat.sub_diag. simpl.
  apply app_nil_r.
Qed.

(** [trim] removes a prefix and a suffix, nothing inside. *)
Lemma trimStart_suffix (s : jsstring) : exists a, s = a ++ JsString.trimStart s.
Proof.
  induction s as [|x s [a IH]]; simpl.
  - exists []; reflexivity.
  - destruct (JsString.isWhiteSpace x).
    + exists (x :: a). simpl. f_equal. exact IH.
    + exists []. reflexivity.
Qed.

Lemma trim_infix (s : jsstring) : exists a b, s = a ++ JsString.trim s ++ b.
Proof.
  unfold JsString.trim, JsString.trimEnd.
  destruct (trimStart_suffix s) as [a Ha].
  destruct (trimStart_suffix (rev (JsString.trimStart s))) as [b Hb].
  exists a, (rev b).
  assert (E : rev (JsString.trimStart (rev (JsString.trimStart s))) ++ rev b
              = JsString.trimStart s).
  { rewrite <- rev_app_distr.
    rewrite <- (rev_involutive (JsString.trimStart s)) at 2.
    f_equal. symmetry. exact Hb. }
  rewrite E. exact Ha.
Qed.

(** ** [cleanJson] *)

Lemma cleanJson_span (pre mid post : jsstring) :
  ~ In lbrace pre -> ~ In rbrace post ->
  GeminiService.cleanJson (pre ++ lbrace :: mid ++ rbrace :: post)
  = lbrace :: mid ++ [rbrace].
Proof.
  intros Hpre Hpost.
  set (text := pre ++ lbrace :: mid ++ rbrace :: post).
  assert (Hs : JsString.indexOf text lbrace = Z.of_nat (length pre)).
  { unfold JsString.indexOf, text.
    rewrite indexOf_from_first by exact Hpre. lia. }
  assert (He : JsString.lastIndexOf text rbrace
               = Z.of_nat (length pre + S (length mid))).
  { unfold JsString.lastIndexOf, text.
    replace (pre ++ lbrace :: mid ++ rbrace :: post)
      with ((pre ++ lbrace :: mid) ++ rbrace :: post)
      by (rewrite <- app_assoc; reflexivity).
    rewrite lastIndexOf_from_last by exact Hpost.
    rewrite length_app. simpl length. lia. }
  unfold GeminiService.cleanJson. cbv zeta. rewrite Hs, He.
  replace ((Z.of_nat (length pre) =? -1)%Z) with false
    by (symmetry; apply Z.eqb_neq; lia).
  replace ((Z.of_nat (length pre + S (length mid)) =? -1)%Z) with false
    by (symmetry; apply Z.eqb_neq; lia).
  replace ((Z.of_nat (length pre) >? Z.of_nat (length pre + S (length mid)))%Z)
    with false by (symmetry; rewrite Z.gtb_ltb; apply Z.ltb_ge; lia).
  cbn [orb].
  replace text with (pre ++ (lbrace :: mid ++ [rbrace]) ++ post)
    by (unfold text; simpl; rewrite <- app_assoc; reflexivity).
  replace (Z.of_nat (length pre + S (length mid)) + 1)%Z
    with (Z.of_nat (length pre)
          + Z.of_nat (length (lbrace :: mid ++ [rbrace])))%Z.
  - apply substring_span.
  - simpl length. rewrite length_app. simpl. lia.
Qed.

(** Some [{] before some [}] gives the first [{] and the last [}]. *)
Lemma first_occurrence (c : code_unit) (s : jsstring) :
  In c s -> exists pre rest, s = pre ++ c :: rest /\ ~ In c pre.
Proof.
  induction s as [|x s IH]; simpl; [tauto|].
  intros H. destruct (N.eq_dec x c) as [->|Hne].
  - exists [], s. split; [reflexivity | intros []].
  - destruct H as [H|H]; [contradiction|].
    destruct (IH H) as (pre & rest & -> & Hpre).
    exists (x :: pre), rest. split; [reflexivity|].
    intros [E|Hin]; [contradiction | exact (Hpre Hin)].
Qed.

Lemma last_occurrence (c : code_unit) (s : jsstring) :
  In c s -> exists pre post, s = pre ++ c :: post /\ ~ In c post.
Proof.
  intros H. apply in_rev in H.
  destruct (first_occurrence _ _ H) as (a & b & E & Ha).
  exists (rev b), (rev a). split.
  - rewrite <- (rev_involutive s), E, rev_app_distr. simpl.
    rewrite <- app_assoc. reflexivity.
  - intros Hin. apply Ha. apply in_rev. exact Hin.
Qed.

Lemma has_span_bounds (text : jsstring) :
  has_span text ->
  exists pre mid post,
    text = pre ++ lbrace :: mid ++ rbrace :: post
    /\ ~ In lbrace pre /\ ~ In rbrace post.
Proof.
  intros (a & b & d & ->).
  destruct (first_occurrence lbrace (a ++ lbrace :: b)) as (pre & r1 & E1 & Hpre).
  { apply in_or_app; right; left; reflexivity. }
  destruct (last_occurrence rbrace (r1 ++ rbrace :: d)) as (mid & post & E2 & Hpost).
  { apply in_or_app; right; left; reflexivity. }
  exists pre, mid, post. split; [|split; assumption].
  rewrite <- E2.
  replace (a ++ lbrace :: b ++ rbrace :: d) with ((a ++ lbrace :: b) ++ rbrace :: d)
    by (rewrite <- app_assoc; reflexivity).
  rewrite E1, <- app_assoc. reflexivity.
Qed.

Lemma no_span_cases (text : jsstring) :
  ~ In lbrace text \/ ~ In rbrace text
  \/ (exists a b, text = a ++ rbrace :: b /\ ~ In lbrace a /\ ~ In rbrace b) ->
  ~ has_span text.
Proof.
  intros H (x & y & z & E). subst text.
  destruct H as [H | [H | (a & b & E & Ha & Hb)]].
  - apply H. apply in_or_app; right; left; reflexivity.
  - apply H. apply in_or_app; right; right.
    apply in_or_app; right; left; reflexivity.
  - symmetry in E. apply app_eq_app in E.
    destruct E as (l & [[E1 E2] | [E1 E2]]).
    + destruct l as [|u l]; simpl in E2.
      * discriminate E2.
      * injection E2 as <- _. apply Ha. rewrite E1.
        apply in_or_app; right; left; reflexivity.
    + destruct l as [|u l]; simpl in E2.
      * discriminate E2.
      * injection E2 as _ E2. apply Hb. rewrite E2.
        apply in_or_app; right; right.
        apply in_or_app; right; left; reflexivity.
Qed.

(** The two situations of [cleanJson] leave no text out. *)
Lemma span_or_fallback (text : jsstring) :
  has_span text
  \/ (~ In lbrace text \/ ~ In rbrace text
      \/ (exists a b, text = a ++ rbrace :: b
                      /\ ~ In lbrace a /\ ~ In rbrace b)).
Proof.
  destruct (in_dec N.eq_dec rbrace text) as [Hr|Hr]; [|right; right; left; exact Hr].
  destruct (last_occurrence _ _ Hr) as (a & b & E & Hb).
  destruct (in_dec N.eq_dec lbrace a) as [Hl|Hl].
  - left. apply in_split in Hl. destruct Hl as (a1 & a2 & ->).
    exists a1, a2, b. rewrite E, <- app_assoc. reflexivity.
  - right. right. right. exists a, b. auto.
Qed.

Lemma cleanJson_fallback (text : jsstring) :
  ~ has_span text -> GeminiService.cleanJson text = JsString.trim text.
Proof.
  intros Hno. unfold GeminiService.cleanJson. cbv zeta.
  destruct (in_dec N.eq_dec lbrace text) as [Hl|Hl].
  2:{ unfold JsString.indexOf. rewrite indexOf_from_absent by exact Hl.
      reflexivity. }
  destruct (in_dec N.eq_dec rbrace text) as [Hr|Hr].
  2:{ unfold JsString.lastIndexOf.
      rewrite lastIndexOf_from_absent by exact Hr.
      rewrite orb_true_r. reflexivity. }
  destruct (first_occurrence _ _ Hl) as (pre & rest & E1 & Hpre).
  destruct (last_occurrence _ _ Hr) as (p2 & post & E2 & Hpost).
  assert (Hlen : length p2 < length pre).
  { destruct (Nat.lt_ge_cases (length p2) (length pre)) as [L|L]; [exact L|].
    exfalso. apply Hno.
    assert (E : pre ++ lbrace :: rest = p2 ++ rbrace :: post) by congruence.
    apply app_eq_app in E. destruct E as (l & [[Ea Eb] | [Ea Eb]]).
    - destruct l as [|u l].
      + simpl in Eb. discriminate Eb.
      + rewrite Ea, length_app in L. simpl in L. lia.
    - destruct l as [|u l].
      + simpl in Eb. discriminate Eb.
      + simpl in Eb. injection Eb as <- Eb.
        exists pre, l, post. rewrite E2, Ea, <- app_assoc. reflexivity. }
  assert (Hs : JsString.indexOf text lbrace = Z.of_nat (length pre)).
  { unfold JsString.indexOf. rewrite E1.
    rewrite indexOf_from_first by exact Hpre. lia. }
  assert (He : JsString.lastIndexOf text rbrace = Z.of_nat (length p2)).
  { unfold JsString.lastIndexOf. rewrite E2.
    rewrite lastIndexOf_from_last by exact Hpost. lia. }
  rewrite Hs, He.
  replace ((Z.of_nat (length pre) >? Z.of_nat (length p2))%Z) with true
    by (symmetry; rewrite Z.gtb_ltb; apply Z.ltb_lt; lia).
  rewrite !orb_true_r. reflexivity.
Qed.

(** * Facts about the JSON automata *)

Section ParserFacts.

Lemma deliver_outside (v : json) (stack : list frame) :
  isJObject v = false -> existsb isFObject stack = false ->
  in_object (deliver v stack) = false.
Proof.
  intros Hv Hs. destruct stack as [|[d|d k] up]; simpl in *.
  - exact Hv.
  - exact Hs.
  - discriminate Hs.
Qed.

Lemma parse_step_outside (st st' : pstate) (t : token) :
  in_object st = false -> t <> TLBrace ->
  parse_step st t = Some st' -> in_object st' = false.
Proof.
  intros Hst Ht Hstep.
  destruct st; simpl in Hst; try discriminate Hst;
    destruct t; simpl in Hstep; try discriminate Hstep; try congruence;
    injection Hstep as <-;
    try (apply deliver_outside; [reflexivity | simpl; exact Hst]);
    simpl; exact Hst.
Qed.

(** An object comes out only if a [{] token was read. *)
Lemma parse_tokens_lbrace (ts : list token) (st : pstate) (v : json) :
  parse_tokens st ts = Some v -> in_object st = false -> isJObject v = true ->
  In TLBrace ts.
Proof.
  revert st; induction ts as [|t r IH]; intros st Hp Hst Hv; simpl in Hp.
  - destruct st; try discriminate Hp. injection Hp as ->.
    simpl in Hst. congruence.
  - destruct (parse_step st t) as [st'|] eqn:Hstep; [|discriminate Hp].
    assert (D : {t = TLBrace} + {t <> TLBrace})
      by (destruct t; ((left; reflexivity) || (right; discriminate))).
    destruct D as [->|Hne]; [left; reflexivity|].
    right. apply (IH st' Hp); [|exact Hv].
    exact (parse_step_outside _ _ _ Hst Hne Hstep).
Qed.

Lemma deliver_done (v w : json) (stack : list frame) :
  deliver v stack = PDone w -> v = w.
Proof.
  destruct stack as [|[d|d k] up]; simpl; congruence.
Qed.

Lemma parse_step_done_object (st : pstate) (t : token)
  (m : list (jsstring * json)) :
  parse_step st t = Some (PDone (JObject m)) -> t = TRBrace.
Proof.
  intros H.
  destruct st; destruct t; simpl in H; try discriminate H; try reflexivity;
    injection H as H; apply deliver_done in H; discriminate H.
Qed.

(** An object comes out only if the last token is [}]. *)
Lemma parse_tokens_rbrace (ts : list token) (st : pstate)
  (m : list (jsstring * json)) :
  parse_tokens st ts = Some (JObject m) -> not_done st ->
  exists front, ts = front ++ [TRBrace].
Proof.
  revert st; induction ts as [|t r IH]; intros st Hp Hst; simpl in Hp.
  - destruct st; try discriminate Hp. destruct Hst.
  - destruct (parse_step st t) as [st'|] eqn:Hstep; [|discriminate Hp].
    destruct r as [|t2 r2].
    + simpl in Hp. destruct st'; try discriminate Hp. injection Hp as ->.
      apply parse_step_done_object in Hstep. subst t. exists []. reflexivity.
    + assert (Hnd : not_done st').
      { destruct st'; simpl; auto. simpl in Hp. discriminate Hp. }
      destruct (IH st' Hp Hnd) as [front E].
      exists (t :: front). rewrite E. reflexivity.
Qed.

Ltac break_if H :=
  match type of H with
  | context [if ?b then _ else _] => destruct b eqn:?
  end.

Lemma lex_start_braces (c : code_unit) (st' : lexstate) (toks : list token) :
  lex_start c = Some (st', toks) ->
  lex_wf st'
  /\ (In TLBrace toks -> c = lbrace /\ st' = LStart /\ toks = [TLBrace])
  /\ (In TRBrace toks -> c = rbrace).
Proof.
  unfold lex_start. intros H.
  repeat (break_if H; [injection H as <- <-|]); try discriminate H;
    (split; [simpl; auto|]);
    (split; [intros Hin | intros Hin]); simpl in Hin;
    repeat (destruct Hin as [Hin|Hin]; try discriminate Hin);
    try contradiction;
    repeat match goal with
           | E : N.eqb _ _ = true |- _ => apply N.eqb_eq in E
           end;
    subst; auto.
Qed.

Ltac no_tokens := split; [simpl; auto | split; intros []].

Lemma lex_step_braces (st st' : lexstate) (c : code_unit) (toks : list token) :
  lex_wf st -> lex_step st c = Some (st', toks) ->
  lex_wf st'
  /\ (In TLBrace toks ->
      c = lbrace /\ st' = LStart /\ exists front, toks = front ++ [TLBrace])
  /\ (In TRBrace toks -> c = rbrace).
Proof.
  intros Hwf H. destruct st as [|acc|acc|acc n v|ns acc|rest t]; simpl in H.
  - destruct (lex_start_braces _ _ _ H) as (W & L & R).
    split; [exact W|]. split; [|exact R].
    intros Hin. destruct (L Hin) as (-> & -> & ->).
    repeat split. exists []. reflexivity.
  - repeat (break_if H; [try discriminate H; injection H as <- <-|]);
      try (injection H as <- <-);
      (split; [simpl; auto|]); split; intros Hin; simpl in Hin;
      repeat (destruct Hin as [Hin|Hin]; try discriminate Hin); contradiction.
  - break_if H.
    + injection H as <- <-. no_tokens.
    + destruct (escape c); [|discriminate H].
      injection H as <- <-. no_tokens.
  - destruct (hexValue c); [|discriminate H].
    break_if H; injection H as <- <-; no_tokens.
  - destruct (num_step ns c).
    + injection H as <- <-. no_tokens.
    + destruct (num_final ns); [|discriminate H].
      destruct (lex_start c) as [[st2 toks2]|] eqn:Hs; [|discriminate H].
      injection H as <- <-.
      destruct (lex_start_braces _ _ _ Hs) as (W & L & R).
      split; [exact W|]. split.
      * intros [Hin|Hin]; [discriminate Hin|].
        destruct (L Hin) as (-> & -> & ->).
        repeat split. exists [TNumber (rev acc)]. reflexivity.
      * intros [Hin|Hin]; [discriminate Hin|]. exact (R Hin).
  - destruct rest as [|x rest']; [discriminate H|].
    break_if H; [|discriminate H].
    destruct rest' as [|y rest2]; injection H as <- <-; simpl.
    + split; [exact I|].
      split; intros [Hin|[]]; subst t;
        destruct Hwf as [W|[W|W]]; discriminate W.
    + split; [exact Hwf|]. split; intros [].
Qed.

Lemma lex_end_braces (st : lexstate) (ts : list token) :
  lex_end st = Some ts -> ~ In TLBrace ts /\ ~ In TRBrace ts.
Proof.
  destruct st; simpl; try discriminate.
  - intros E; injection E as <-. split; intros [].
  - destruct (num_final st); [|discriminate].
    intros E; injection E as <-.
    split; intros [Hin|[]]; discriminate Hin.
Qed.

(** A [{] token stands for a [{] of the text, read between two tokens. *)
Lemma lex_lbrace (s : jsstring) (st : lexstate) (ts : list token) :
  lex_wf st -> lex st s = Some ts -> In TLBrace ts ->
  exists a b ts1 ts2,
    s = a ++ lbrace :: b /\ lex LStart b = Some ts2
    /\ ts = ts1 ++ TLBrace :: ts2.
Proof.
  revert st ts; induction s as [|c r IH]; intros st ts Hwf Hlex Hin;
    simpl in Hlex.
  - apply lex_end_braces in Hlex. destruct Hlex as [H _]. contradiction.
  - destruct (lex_step st c) as [[st' toks]|] eqn:Hstep; [|discriminate Hlex].
    destruct (lex st' r) as [more|] eqn:Hmore; [|discriminate Hlex].
    injection Hlex as <-.
    destruct (lex_step_braces _ _ _ _ Hwf Hstep) as (W & L & _).
    apply in_app_or in Hin. destruct Hin as [Hin|Hin].
    + destruct (L Hin) as (-> & -> & front & ->).
      exists [], r, front, more. repeat split.
      * exact Hmore.
      * rewrite <- app_assoc. reflexivity.
    + destruct (IH st' more W Hmore Hin) as (a & b & ts1 & ts2 & -> & Hb & ->).
      exists (c :: a), b, (toks ++ ts1), ts2. repeat split.
      * exact Hb.
      * rewrite <- app_assoc. reflexivity.
Qed.

Lemma lex_rbrace (s : jsstring) (st : lexstate) (ts : list token) :
  lex_wf st -> lex st s = Some ts -> In TRBrace ts -> In rbrace s.
Proof.
  revert st ts; induction s as [|c r IH]; intros st ts Hwf Hlex Hin;
    simpl in Hlex.
  - apply lex_end_braces in Hlex. destruct Hlex as [_ H]. contradiction.
  - destruct (lex_step st c) as [[st' toks]|] eqn:Hstep; [|discriminate Hlex].
    destruct (lex st' r) as [more|] eqn:Hmore; [|discriminate Hlex].
    injection Hlex as <-.
    destruct (lex_step_braces _ _ _ _ Hwf Hstep) as (W & _ & R).
    apply in_app_or in Hin. destruct Hin as [Hin|Hin].
    + left. exact (R Hin).
    + right. exact (IH st' more W Hmore Hin).
Qed.

(** A text that parses to an object has a [{] before a [}]. *)
Lemma parse_object_span (s : jsstring) (m : list (jsstring * json)) :
  JSON.parse s = Some (JObject m) -> has_span s.
Proof.
  unfold JSON.parse. intros H.
  destruct (lex LStart s) as [ts|] eqn:Hlex; [|discriminate H].
  assert (Hl : In TLBrace ts)
    by (apply (parse_tokens_lbrace _ _ _ H); reflexivity).
  destruct (parse_tokens_rbrace _ (PValue []) _ H I) as [front Hr].
  destruct (lex_lbrace _ LStart _ I Hlex Hl) as (a & b & ts1 & ts2 & -> & Hb & E).
  assert (Hin : In TRBrace ts2).
  { destruct (exists_last (l := ts2)) as (x & y & ->).
    - intros ->. rewrite E in Hr. apply app_inj_tail in Hr.
      destruct Hr as [_ Hr]. discriminate Hr.
    - rewrite E in Hr.
      replace (ts1 ++ TLBrace :: x ++ [y]) with ((ts1 ++ TLBrace :: x) ++ [y])
        in Hr by (rewrite <- app_assoc; reflexivity).
      apply app_inj_tail in Hr. destruct Hr as [_ ->].
      apply in_or_app; right; left; reflexivity. }
  apply (lex_rbrace _ LStart _ I Hb) in Hin.
  apply in_split in Hin. destruct Hin as (b1 & b2 & ->).
  exists a, b1, b2. reflexivity.
Qed.

End ParserFacts.

Lemma has_span_infix (s a b : jsstring) : has_span s -> has_span (a ++ s ++ b).
Proof.
  intros (x & y & z & ->). exists (a ++ x), y, (z ++ b).
  rewrite <- !app_assoc. simpl. rewrite <- !app_assoc. reflexivity.
Qed.

Lemma fallback_never_object (text : jsstring) (m : list (jsstring * json)) :
  ~ has_span text -> JSON.parse (JsString.trim text) <> Some (JObject m).
Proof.
  intros Hno H. apply Hno.
  destruct (trim_infix text) as (a & b & E). rewrite E.
  apply has_span_infix. exact (parse_object_span _ _ H).
Qed.

(** * Structured-output recovery *)

Lemma researchTopic_answered (env : GeminiService.Env) (topic : jsstring)
  (config : ResearchConfig.t) (text : jsstring) :
  answers env (Some text) -> text <> [] ->
  GeminiService.researchTopic env topic config
  = parsed (GeminiService.cleanJson text).
Proof.
  intros [Hkey Hgen] Hne. unfold GeminiService.researchTopic.
  rewrite Hkey. cbn [negb]. cbv zeta. rewrite Hgen. cbn [GeminiService.text].
  destruct text as [|c r]; [contradiction|]. reflexivity.
Qed.

(** C1, as the specification states its second half: a text without a
    brace-bounded span always ends in a parse error.  The text [[]] has
    no brace and is returned as an empty array. *)
Lemma recovery_fallback_may_return :
  ~ (forall env topic config text,
       answers env (Some text) -> text <> [] ->
       ~ In lbrace text \/ ~ In rbrace text
       \/ (exists a b, text = a ++ rbrace :: b
                       /\ ~ In lbrace a /\ ~ In rbrace b) ->
       GeminiService.researchTopic env topic config = Throw SyntaxError).
Proof.
  intros H.
  specialize (H (env_answering (Some (lit "[]"))) (lit "CRISPR") sample_config
                (lit "[]")).
  assert (E : GeminiService.researchTopic (env_answering (Some (lit "[]")))
                (lit "CRISPR") sample_config = Return (JArray []))
    by (vm_compute; reflexivity).
  rewrite E in H. 
  assert (A : Return (JArray []) = @Throw json SyntaxError).
  { apply H.
    - split; [reflexivity | intros req; reflexivity].
    - discriminate.
    - left. vm_compute. intuition discriminate. }
  discriminate A.
Qed.

(** C1 (amended).  For a non-empty response text: when [{] first occurs at
    [pre] and [}] last occurs before [post], with the first before the
    last, recovery is the parse of exactly the span between them,
    inclusive; when the text has no [{], or no [}], or no [{] up to its
    last [}], recovery is the parse of the whole trimmed text, which fails
    with a parse error or returns a value that is not an object. *)
Theorem researchTopic_recovery (env : GeminiService.Env) (topic : jsstring)
  (config : ResearchConfig.t) (text : jsstring) :
  answers env (Some text) -> text <> [] ->
  (forall pre mid post,
      text = pre ++ lbrace :: mid ++ rbrace :: post ->
      ~ In lbrace pre -> ~ In rbrace post ->
      GeminiService.researchTopic env topic config
      = parsed (lbrace :: mid ++ [rbrace]))
  /\ (~ In lbrace text \/ ~ In rbrace text
      \/ (exists a b, text = a ++ rbrace :: b
                      /\ ~ In lbrace a /\ ~ In rbrace b) ->
      GeminiService.researchTopic env topic config
      = parsed (JsString.trim text)
      /\ forall m, GeminiService.researchTopic env topic config
                   <> Return (JObject m)).
Proof.
  intros Hans Hne. rewrite (researchTopic_answered env topic config text Hans Hne).
  split.
  - intros pre mid post -> Hpre Hpost.
    rewrite cleanJson_span by assumption. reflexivity.
  - intros Hcase. apply no_span_cases in Hcase.
    rewrite (cleanJson_fallback _ Hcase). split; [reflexivity|].
    intros m. unfold parsed.
    destruct (JSON.parse (JsString.trim text)) as [v|] eqn:E; [|discriminate].
    intros Hv. injection Hv as ->.
    exact (fallback_never_object text m Hcase E).
Qed.

Lemma researchTopic_recovery_witness :
  GeminiService.researchTopic (env_answering (Some fenced_response))
    (lit "CRISPR") sample_config
  = Return (JObject [(lit "topic", JString (lit "CRISPR"))]).
Proof.
  destruct (researchTopic_recovery (env_answering (Some fenced_response))
              (lit "CRISPR") sample_config fenced_response) as [Hspan _].
  - split; [reflexivity | intros req; reflexivity].
  - discriminate.
  - rewrite (Hspan (lit "Sure! ```json
") (dq ++ lit "topic" ++ dq ++ lit ":" ++ dq ++ lit "CRISPR" ++ dq) (lit "
```")).
    + vm_compute. reflexivity.
    + vm_compute. reflexivity.
    + vm_compute. intuition discriminate.
    + vm_compute. intuition discriminate.
Defined.

(** The two responses of the scenario of section 8: the fenced object is
    recovered (above); a refusal in prose is a parse error. *)
Example refusal_is_malformed :
  GeminiService.researchTopic (env_answering (Some (lit "I cannot help.")))
    (lit "CRISPR") sample_config
  = Throw SyntaxError.
Proof. vm_compute. reflexivity. Qed.

(** Unbalanced braces: a lone [{] falls back to the whole text and fails. *)
Example unbalanced_is_malformed :
  GeminiService.researchTopic
    (env_answering (Some (lit "{" ++ dq ++ lit "topic" ++ dq ++ lit ": 1")))
    (lit "CRISPR") sample_config
  = Throw SyntaxError.
Proof. vm_compute. reflexivity. Qed.

(** * History store *)

Lemma saveToHistory_run (render : App.State) (newItem : HistoryItem.t)
  (w : App.World) :
  let out := App.saveToHistory render newItem w in
  fst out = Return tt
  /\ App.historyItems (App.state (snd out))
     = firstn 15 (newItem :: App.historyItems render).
Proof.
  unfold App.saveToHistory, App.bind, App.try_catch, App.setHistoryItems,
    App.modify, App.localStorage_setItem, App.ret.
  cbn. destruct (App.accepts (App.localStorage w) _); cbn; split; reflexivity.
Qed.

(** C2.  Inserting a session into the current history makes it the first
    entry, keeps the earlier sessions that survive in their order (they
    are a prefix of the previous list), and leaves min(previous length + 1,
    15) entries; from 15 entries, the last one is dropped and 15 remain. *)
Theorem saveToHistory_capacity (newItem : HistoryItem.t) (w : App.World) :
  let h := App.historyItems (App.state w) in
  let out := App.dispatch (fun render => App.saveToHistory render newItem) w in
  let h' := App.historyItems (App.state (snd out)) in
  fst out = Return tt
  /\ hd_error h' = Some newItem
  /\ (exists kept evicted, h = kept ++ evicted /\ h' = newItem :: kept)
  /\ length h' = Nat.min (length h + 1) 15
  /\ (length h = 15 -> h' = newItem :: removelast h /\ length h' = 15).
Proof.
  cbv zeta. unfold App.dispatch.
  destruct (saveToHistory_run (App.state w) newItem w) as [Hr Hh].
  cbv zeta in Hr, Hh. rewrite Hr, Hh. clear Hr Hh.
  set (h := App.historyItems (App.state w)).
  change (firstn 15 (newItem :: h)) with (newItem :: firstn 14 h).
  split; [reflexivity|]. split; [reflexivity|]. split.
  - exists (firstn 14 h), (skipn 14 h). split; [|reflexivity].
    symmetry. apply firstn_skipn.
  - split.
    + cbn [length]. rewrite length_firstn. lia.
    + intros H15. split.
      * rewrite removelast_firstn_len, H15. reflexivity.
      * cbn [length]. rewrite length_firstn. lia.
Qed.

Lemma saveToHistory_capacity_witness :
  length (App.historyItems (App.state (roomy fifteen None))) = 15
  /\ App.historyItems
       (App.state (snd (App.dispatch
          (fun render => App.saveToHistory render (sample_item 16))
          (roomy fifteen None))))
     = sample_item 16 :: removelast fifteen.
Proof.
  split; [reflexivity|].
  destruct (saveToHistory_capacity (sample_item 16) (roomy fifteen None))
    as (_ & _ & _ & _ & H15).
  exact (proj1 (H15 eq_refl)).
Defined.

Lemma updateHistoryItem_run (render : App.State) (id : jsstring)
  (updates : Updates.t) (w : App.World) :
  let out := App.updateHistoryItem render id updates w in
  fst out = Return tt
  /\ App.historyItems (App.state (snd out))
     = map (fun item =>
              if JsString.eqb (HistoryItem.id item) id
              then spread item updates else item)
           (App.historyItems render).
Proof.
  unfold App.updateHistoryItem, App.bind, App.try_catch, App.setHistoryItems,
    App.modify, App.localStorage_setItem, App.ret.
  cbn. destruct (App.accepts (App.localStorage w) _); cbn; split; reflexivity.
Qed.

(** Create and partial update swallow a refused write. *)
Lemma save_and_update_never_throw (render : App.State) (w : App.World) :
  (forall newItem, fst (App.saveToHistory render newItem w) = Return tt)
  /\ (forall id updates,
        fst (App.updateHistoryItem render id updates w) = Return tt).
Proof.
  split.
  - intros newItem. exact (proj1 (saveToHistory_run render newItem w)).
  - intros id updates. exact (proj1 (updateHistoryItem_run render id updates w)).
Qed.

(** The list part of a deletion does not depend on the write. *)
Lemma deleteHistoryItem_history (render : App.State) (id : jsstring)
  (w : App.World) :
  App.historyItems (App.state (snd (App.deleteHistoryItem render id w)))
  = remaining id (App.historyItems render).
Proof.
  unfold App.deleteHistoryItem, App.bind, App.setHistoryItems, App.modify,
    App.localStorage_setItem, App.ret, remaining.
  cbn. destruct (App.accepts (App.localStorage w) _); cbn.
  - destruct (App.isCurrent (App.currentResearchId render) id); reflexivity.
  - reflexivity.
Qed.

Lemma remaining_spec (id : jsstring) (h : list HistoryItem.t)
  (item : HistoryItem.t) :
  In item (remaining id h) <-> In item h /\ HistoryItem.id item <> id.
Proof.
  unfold remaining. rewrite filter_In, negb_true_iff, eqb_neq. tauto.
Qed.

(** When the write is taken, the view follows the deletion. *)
Lemma deleteHistoryItem_accepted (render : App.State) (id : jsstring)
  (w : App.World) :
  App.accepts (App.localStorage w) (remaining id (App.historyItems render))
  = true ->
  let out := App.deleteHistoryItem render id w in
  let s' := App.state (snd out) in
  fst out = Return tt
  /\ (App.isCurrent (App.currentResearchId render) id = true ->
      App.result s' = None /\ App.timelineImage s' = None
      /\ App.literatureReview s' = None /\ App.currentResearchId s' = None)
  /\ (App.isCurrent (App.currentResearchId render) id = false ->
      App.result s' = App.result (App.state w)
      /\ App.timelineImage s' = App.timelineImage (App.state w)
      /\ App.literatureReview s' = App.literatureReview (App.state w)
      /\ App.currentResearchId s' = App.currentResearchId (App.state w)).
Proof.
  intros Hacc.
  unfold App.deleteHistoryItem, App.bind, App.setHistoryItems, App.modify,
    App.localStorage_setItem, App.ret, App.setResult, App.setTimelineImage,
    App.setLiteratureReview, App.setCurrentResearchId.
  unfold remaining in Hacc. cbn. rewrite Hacc. cbn.
  destruct (App.isCurrent (App.currentResearchId render) id); cbn;
    repeat split; intros; try discriminate; reflexivity.
Qed.

(** When the write is refused, the exception leaves the handler and the
    view is left as it was. *)
Lemma deleteHistoryItem_refused (render : App.State) (id : jsstring)
  (w : App.World) :
  App.accepts (App.localStorage w) (remaining id (App.historyItems render))
  = false ->
  let out := App.deleteHistoryItem render id w in
  let s' := App.state (snd out) in
  fst out = Throw (DOMException (lit "QuotaExceededError"))
  /\ App.result s' = App.result (App.state w)
  /\ App.timelineImage s' = App.timelineImage (App.state w)
  /\ App.literatureReview s' = App.literatureReview (App.state w)
  /\ App.currentResearchId s' = App.currentResearchId (App.state w).
Proof.
  intros Hacc.
  unfold App.deleteHistoryItem, App.bind, App.setHistoryItems, App.modify,
    App.localStorage_setItem, App.ret.
  unfold remaining in Hacc. cbn. rewrite Hacc. cbn.
  repeat split; reflexivity.
Qed.

(** C3.  Deleting session 2 while the browser refuses the write: the
    exception of [setItem] is not caught and leaves [deleteHistoryItem],
    where [saveToHistory] and [updateHistoryItem] catch it. *)
Theorem deleteHistoryItem_write_failure_escapes :
  fst (App.dispatch
         (fun render => App.deleteHistoryItem render (JsString.ofNumber 2))
         (full [sample_item 2; sample_item 1] (Some (JsString.ofNumber 2))))
  = Throw (DOMException (lit "QuotaExceededError")).
Proof. vm_compute. reflexivity. Qed.

(** C8.  Deleting the active session 3 while the browser refuses the
    write: the session leaves the list, yet the result, the image, the
    review and the active id of the view are not cleared. *)
Theorem deleteHistoryItem_active_not_cleared :
  let w := full [sample_item 3; sample_item 2; sample_item 1]
                (Some (JsString.ofNumber 3)) in
  let s' := App.state (snd (App.dispatch
              (fun render => App.deleteHistoryItem render (JsString.ofNumber 3))
              w)) in
  App.historyItems s' = [sample_item 2; sample_item 1]
  /\ App.currentResearchId s' = Some (JsString.ofNumber 3)
  /\ App.result s' = App.result (App.state w)
  /\ App.result s' <> None
  /\ App.timelineImage s' <> None
  /\ App.literatureReview s' <> None.
Proof. vm_compute. repeat split; discriminate. Qed.

(** ** Partial updates *)

Lemma Forall2_map_self (A : Type) (P : A -> A -> Prop) (f : A -> A)
  (l : list A) :
  (forall x, P x (f x)) -> Forall2 P l (map f l).
Proof.
  intros H. induction l as [|x l IH]; simpl; constructor; auto.
Qed.

(** C4.  A partial update that attaches a timeline image, or a literature
    review, answers normally; position by position, the session whose id
    is addressed differs from the old one in that field only, and every
    other session is the old one. *)
Theorem updateHistoryItem_frame (id url review : jsstring) (w : App.World) :
  let h := App.historyItems (App.state w) in
  let image := App.dispatch (fun render =>
      App.updateHistoryItem render id (Updates.ofTimelineImage url)) w in
  let text := App.dispatch (fun render =>
      App.updateHistoryItem render id (Updates.ofLiteratureReview review)) w in
  (fst image = Return tt
   /\ Forall2 (fun old new =>
         (HistoryItem.id old = id -> only_timelineImage_set url old new)
         /\ (HistoryItem.id old <> id -> new = old))
        h (App.historyItems (App.state (snd image))))
  /\ (fst text = Return tt
      /\ Forall2 (fun old new =>
            (HistoryItem.id old = id -> only_literatureReview_set review old new)
            /\ (HistoryItem.id old <> id -> new = old))
           h (App.historyItems (App.state (snd text)))).
Proof.
  cbv zeta. unfold App.dispatch. split.
  - destruct (updateHistoryItem_run (App.state w) id
                (Updates.ofTimelineImage url) w) as [Hr Hh].
    cbv zeta in Hr, Hh. rewrite Hr, Hh. split; [reflexivity|].
    apply Forall2_map_self. intros old.
    destruct (JsString.eqb (HistoryItem.id old) id) eqn:E.
    + split; [|intros Hne; apply eqb_eq in E; contradiction].
      intros _. unfold only_timelineImage_set. cbn. repeat split; reflexivity.
    + split; [|reflexivity].
      intros He. apply eqb_neq in E. contradiction.
  - destruct (updateHistoryItem_run (App.state w) id
                (Updates.ofLiteratureReview review) w) as [Hr Hh].
    cbv zeta in Hr, Hh. rewrite Hr, Hh. split; [reflexivity|].
    apply Forall2_map_self. intros old.
    destruct (JsString.eqb (HistoryItem.id old) id) eqn:E.
    + split; [|intros Hne; apply eqb_eq in E; contradiction].
      intros _. unfold only_literatureReview_set. cbn.
      repeat split; reflexivity.
    + split; [|reflexivity].
      intros He. apply eqb_neq in E. contradiction.
Qed.

(** The two handlers that attach an artifact go through that update. *)
Lemma handlers_update_current (id url review : jsstring) (w : App.World) :
  App.currentResearchId (App.state w) = Some id -> id <> [] ->
  App.historyItems (App.state (snd (App.dispatch
      (fun render => App.handleTimelineGenerated render url) w)))
  = App.historyItems (App.state (snd (App.dispatch (fun render =>
      App.updateHistoryItem render id (Updates.ofTimelineImage url)) w)))
  /\ App.historyItems (App.state (snd (App.dispatch
      (fun render => App.handleReviewGenerated render review) w)))
  = App.historyItems (App.state (snd (App.dispatch (fun render =>
      App.updateHistoryItem render id (Updates.ofLiteratureReview review)) w))).
Proof.
  intros Hcur Hne. destruct id as [|c r]; [contradiction|].
  unfold App.dispatch, App.handleTimelineGenerated, App.handleReviewGenerated.
  rewrite Hcur.
  unfold App.updateHistoryItem, App.bind, App.try_catch, App.setHistoryItems,
    App.setTimelineImage, App.setLiteratureReview,
    App.modify, App.localStorage_setItem, App.ret.
  cbn. split.
  - destruct (App.accepts (App.localStorage w) _); reflexivity.
  - destruct (App.accepts (App.localStorage w) _); reflexivity.
Qed.

(** C10.  A partial update addressed to an id that no session carries
    answers normally and leaves the list of sessions as it was. *)
Theorem updateHistoryItem_unknown_id (id : jsstring) (updates : Updates.t)
  (w : App.World) :
  (forall item, In item (App.historyItems (App.state w)) ->
                HistoryItem.id item <> id) ->
  let out := App.dispatch (fun render =>
      App.updateHistoryItem render id updates) w in
  fst out = Return tt
  /\ App.historyItems (App.state (snd out)) = App.historyItems (App.state w).
Proof.
  intros Habsent. cbv zeta. unfold App.dispatch.
  destruct (updateHistoryItem_run (App.state w) id updates w) as [Hr Hh].
  cbv zeta in Hr, Hh. rewrite Hr, Hh. split; [reflexivity|].
  rewrite <- (map_id (App.historyItems (App.state w))) at 2.
  apply map_ext_in. intros item Hin.
  destruct (JsString.eqb (HistoryItem.id item) id) eqn:E; [|reflexivity].
  apply eqb_eq in E. exfalso. exact (Habsent item Hin E).
Qed.

Lemma updateHistoryItem_unknown_id_witness :
  let w := roomy [sample_item 2; sample_item 1] (Some (JsString.ofNumber 7)) in
  let out := App.dispatch (fun render =>
      App.updateHistoryItem render (JsString.ofNumber 7)
        (Updates.ofTimelineImage (lit "data:image/png;base64,BBBB"))) w in
  fst out = Return tt
  /\ App.historyItems (App.state (snd out)) = [sample_item 2; sample_item 1].
Proof.
  apply (updateHistoryItem_unknown_id (JsString.ofNumber 7)
           (Updates.ofTimelineImage (lit "data:image/png;base64,BBBB"))
           (roomy [sample_item 2; sample_item 1] (Some (JsString.ofNumber 7)))).
  intros item Hin. simpl in Hin.
  destruct Hin as [<-|[<-|[]]]; vm_compute; discriminate.
Defined.

Lemma updateHistoryItem_frame_witness :
  let w := roomy [sample_item 2; sample_item 1] (Some (JsString.ofNumber 1)) in
  let out := App.dispatch (fun render =>
      App.updateHistoryItem render (JsString.ofNumber 1)
        (Updates.ofTimelineImage (lit "data:image/png;base64,BBBB"))) w in
  Forall2 (fun old new =>
     (HistoryItem.id old = JsString.ofNumber 1 ->
      only_timelineImage_set (lit "data:image/png;base64,BBBB") old new)
     /\ (HistoryItem.id old <> JsString.ofNumber 1 -> new = old))
    [sample_item 2; sample_item 1] (App.historyItems (App.state (snd out))).
Proof.
  exact (proj2 (proj1 (updateHistoryItem_frame (JsString.ofNumber 1)
           (lit "data:image/png;base64,BBBB") (lit "# Review")
           (roomy [sample_item 2; sample_item 1]
                  (Some (JsString.ofNumber 1)))))).
Defined.

(** * Discovery stage *)

(** The reasons for which [researchTopic] throws, and no other. *)
Lemma researchTopic_failures (env : GeminiService.Env) (topic : jsstring)
  (config : ResearchConfig.t) :
  (JsString.truthy (GeminiService.API_KEY env) = false ->
   GeminiService.researchTopic env topic config
   = Throw (Error (lit "API Key is missing")))
  /\ (JsString.truthy (GeminiService.API_KEY env) = true ->
      (forall e, (forall req, GeminiService.generateContent env req = Throw e) ->
                 GeminiService.researchTopic env topic config = Throw e)
      /\ (forall t, (forall req, GeminiService.generateContent env req
                                 = Return {| GeminiService.text := t |}) ->
                    JsString.truthy t = false ->
                    GeminiService.researchTopic env topic config
                    = Throw (Error (lit "No response from Gemini")))
      /\ (forall t, (forall req, GeminiService.generateContent env req
                                 = Return {| GeminiService.text := Some t |}) ->
                    t <> [] ->
                    JSON.parse (GeminiService.cleanJson t) = None ->
                    GeminiService.researchTopic env topic config
                    = Throw SyntaxError)).
Proof.
  unfold GeminiService.researchTopic. split.
  - intros ->. reflexivity.
  - intros ->. cbn [negb]. cbv zeta. split; [|split].
    + intros e He. rewrite He. reflexivity.
    + intros t Ht Hempty. rewrite Ht. cbn [GeminiService.text].
      destruct t as [[|c r]|]; try reflexivity. discriminate Hempty.
    + intros t Ht Hne Hparse. rewrite Ht. cbn [GeminiService.text].
      destruct t as [|c r]; [contradiction|]. rewrite Hparse. reflexivity.
Qed.

Lemma handleSearch_blank (env : GeminiService.Env) (now_id now_ts : N)
  (w : App.World) :
  JsString.trim (App.query (App.state w)) = [] ->
  App.dispatch (App.handleSearch env now_id now_ts) w = (Return tt, w).
Proof.
  intros Hblank. unfold App.dispatch, App.handleSearch. rewrite Hblank.
  reflexivity.
Qed.

Lemma handleSearch_failure (env : GeminiService.Env) (now_id now_ts : N)
  (w : App.World) (e : exn) :
  GeminiService.researchTopic env (App.query (App.state w))
    (App.config (App.state w)) = Throw e ->
  let out := App.dispatch (App.handleSearch env now_id now_ts) w in
  fst out = Return tt
  /\ App.historyItems (App.state (snd out)) = App.historyItems (App.state w)
  /\ App.localStorage (snd out) = App.localStorage w.
Proof.
  intros Hthrow. cbv zeta.
  unfold App.dispatch, App.handleSearch.
  destruct (JsString.trim (App.query (App.state w))) as [|c r].
  - repeat split; reflexivity.
  - rewrite Hthrow. clear Hthrow.
    destruct w as [s ls]. vm_compute. repeat split; reflexivity.
Qed.

Lemma handleSearch_success (env : GeminiService.Env) (now_id now_ts : N)
  (w : App.World) (data : json) :
  GeminiService.researchTopic env (App.query (App.state w))
    (App.config (App.state w)) = Return data ->
  JsString.trim (App.query (App.state w)) <> [] ->
  let out := App.dispatch (App.handleSearch env now_id now_ts) w in
  fst out = Return tt
  /\ App.historyItems (App.state (snd out))
     = firstn 15 (new_session now_id now_ts (App.state w) data
                  :: App.historyItems (App.state w))
  /\ App.result (App.state (snd out)) = Some data
  /\ App.currentResearchId (App.state (snd out))
     = Some (JsString.ofNumber now_id).
Proof.
  intros Hret Hquery. cbv zeta.
  unfold App.dispatch, App.handleSearch.
  destruct (JsString.trim (App.query (App.state w))) as [|c r];
    [contradiction|].
  rewrite Hret. clear Hret Hquery.
  destruct w as [s [st acc]]. vm_compute.
  destruct (acc _); repeat split; reflexivity.
Qed.

(** One failing discovery call of each kind: no credential, a rejected
    request, an answer without text, an answer that is not JSON. *)
Example discovery_failures :
  GeminiService.researchTopic env_without_key (lit "CRISPR") sample_config
  = Throw (Error (lit "API Key is missing"))
  /\ GeminiService.researchTopic (env_rejecting (lit "503")) (lit "CRISPR")
       sample_config
     = Throw (TransportFailure (lit "503"))
  /\ GeminiService.researchTopic (env_answering None) (lit "CRISPR")
       sample_config
     = Throw (Error (lit "No response from Gemini"))
  /\ GeminiService.researchTopic (env_answering (Some (lit "I cannot help.")))
       (lit "CRISPR") sample_config
     = Throw SyntaxError.
Proof. vm_compute. repeat split; reflexivity. Qed.

(** C5.  When the discovery call fails, for whatever reason, the search
    handler answers normally with the list of sessions and the persisted
    blob exactly as before; and the list is different after a search only
    if the discovery call returned a parsed result. *)
Theorem handleSearch_atomic (env : GeminiService.Env) (now_id now_ts : N)
  (w : App.World) :
  let discovery :=
    GeminiService.researchTopic env (App.query (App.state w))
      (App.config (App.state w)) in
  let out := App.dispatch (App.handleSearch env now_id now_ts) w in
  (forall e, discovery = Throw e ->
     fst out = Return tt
     /\ App.historyItems (App.state (snd out)) = App.historyItems (App.state w)
     /\ App.localStorage (snd out) = App.localStorage w)
  /\ (App.historyItems (App.state (snd out))
      <> App.historyItems (App.state w) ->
      exists data, discovery = Return data
        /\ App.historyItems (App.state (snd out))
           = firstn 15 (new_session now_id now_ts (App.state w) data
                        :: App.historyItems (App.state w))).
Proof.
  cbv zeta. split.
  - intros e He. exact (handleSearch_failure env now_id now_ts w e He).
  - intros Hchanged.
    destruct (GeminiService.researchTopic env (App.query (App.state w))
                (App.config (App.state w))) as [data|e] eqn:Hd.
    + exists data. split; [reflexivity|].
      destruct (JsString.trim (App.query (App.state w))) as [|c r] eqn:Hq.
      * exfalso. apply Hchanged.
        rewrite (handleSearch_blank env now_id now_ts w Hq). reflexivity.
      * apply (handleSearch_success env now_id now_ts w data Hd).
        rewrite Hq. discriminate.
    + exfalso. apply Hchanged.
      exact (proj1 (proj2 (handleSearch_failure env now_id now_ts w e Hd))).
Qed.

Lemma handleSearch_atomic_witness :
  let w := roomy [sample_item 2; sample_item 1] (Some (JsString.ofNumber 2)) in
  GeminiService.researchTopic env_without_key (App.query (App.state w))
    (App.config (App.state w)) = Throw (Error (lit "API Key is missing"))
  /\ App.historyItems (App.state (snd (App.dispatch
       (App.handleSearch env_without_key 1700000000000 1700000000001) w)))
     = [sample_item 2; sample_item 1].
Proof.
  cbv zeta. split; [reflexivity|].
  exact (proj1 (proj2 (proj1
    (handleSearch_atomic env_without_key 1700000000000 1700000000001
       (roomy [sample_item 2; sample_item 1] (Some (JsString.ofNumber 2))))
    (Error (lit "API Key is missing")) eq_refl))).
Defined.

(** * Empty responses *)

(** C6, as the specification states it for the literature-review stage: a
    response without text makes the stage fail.  With an absent text the
    stage returns a string. *)
Lemma review_stage_returns_on_empty_text :
  ~ (forall env result language citationStyle t,
       answers env t -> JsString.truthy t = false ->
       exists e,
         GeminiService.generateLiteratureReview env result language
           citationStyle = Throw e).
Proof.
  intros H.
  destruct (H (env_answering None) sample_result (lit "en") (lit "apa") None)
    as [e He].
  - split; [reflexivity | intros req; reflexivity].
  - reflexivity.
  - vm_compute in He. discriminate He.
Qed.

(** C6 (amended).  When the model answers with an absent or empty text, the
    discovery stage fails with the error "No response from Gemini" and
    returns no result, while the literature-review stage does not fail: it
    returns the fixed text "Failed to generate literature review." as its
    artifact. *)
Theorem empty_response_handling (env : GeminiService.Env)
  (topic : jsstring) (config : ResearchConfig.t) (result : ResearchResult.t)
  (language citationStyle : jsstring) (t : option jsstring) :
  answers env t -> JsString.truthy t = false ->
  GeminiService.researchTopic env topic config
  = Throw (Error (lit "No response from Gemini"))
  /\ GeminiService.generateLiteratureReview env result language citationStyle
     = Return (lit "Failed to generate literature review.").
Proof.
  intros [Hkey Hgen] Hempty. split.
  - exact (proj1 (proj2 (proj2 (researchTopic_failures env topic config) Hkey))
                 t Hgen Hempty).
  - unfold GeminiService.generateLiteratureReview.
    rewrite Hkey. cbn [negb]. cbv zeta. rewrite Hgen. cbn [GeminiService.text].
    destruct t as [[|c r]|]; try reflexivity. discriminate Hempty.
Qed.

Lemma empty_response_handling_witness :
  answers (env_answering (Some [])) (Some [])
  /\ GeminiService.researchTopic (env_answering (Some [])) (lit "CRISPR")
       sample_config
     = Throw (Error (lit "No response from Gemini"))
  /\ GeminiService.generateLiteratureReview (env_answering (Some []))
       sample_result (lit "en") (lit "ieee")
     = Return (lit "Failed to generate literature review.").
Proof.
  assert (A : answers (env_answering (Some [])) (Some []))
    by (split; [reflexivity | intros req; reflexivity]).
  split; [exact A|].
  exact (empty_response_handling (env_answering (Some [])) (lit "CRISPR")
           sample_config sample_result (lit "en") (lit "ieee") (Some [])
           A eq_refl).
Defined.

(** * Configuration compiler *)

Lemma startsWith_iff (s x : jsstring) :
  JsString.startsWith s x = true <-> exists post, s = x ++ post.
Proof.
  revert s; induction x as [|c x IH]; intros s; simpl.
  - split; [intros _; exists s; reflexivity | reflexivity].
  - destruct s as [|d s].
    + split; [discriminate | intros [post E]; discriminate E].
    + rewrite andb_true_iff, N.eqb_eq, IH. split.
      * intros [-> [post ->]]. exists post. reflexivity.
      * intros [post E]. injection E as -> ->. split; [reflexivity|].
        exists post. reflexivity.
Qed.

Lemma includesb_iff (s x : jsstring) :
  JsString.includesb s x = true <-> JsString.includes s x.
Proof.
  unfold JsString.includes. induction s as [|d s IH].
  - simpl. rewrite orb_false_r, startsWith_iff. split.
    + intros [post E]. exists [], post. exact E.
    + intros (pre & post & E). destruct pre as [|p pre]; [|discriminate E].
      exists post. exact E.
  - cbn [JsString.includesb]. rewrite orb_true_iff, startsWith_iff, IH. split.
    + intros [[post E] | (pre & post & E)].
      * exists [], post. exact E.
      * exists (d :: pre), post. rewrite E. reflexivity.
    + intros (pre & post & E). destruct pre as [|p pre].
      * left. exists post. exact E.
      * right. injection E as _ E. exists pre, post. exact E.
Qed.

(** [researchTopic] sends the compiled instruction and prompt, once. *)
Lemma researchTopic_sends (env : GeminiService.Env) (topic : jsstring)
  (config : ResearchConfig.t) :
  JsString.truthy (GeminiService.API_KEY env) = true ->
  GeminiService.researchTopic env topic config
  = match GeminiService.generateContent env (discovery_request topic config)
    with
    | Throw e => Throw e
    | Return response =>
        match GeminiService.text response with
        | Some (c :: r) => parsed (GeminiService.cleanJson (c :: r))
        | Some [] | None => Throw (Error (lit "No response from Gemini"))
        end
    end.
Proof.
  intros Hkey. unfold GeminiService.researchTopic. rewrite Hkey.
  reflexivity.
Qed.

Lemma languageNames_cases (language : jsstring) :
  (language = lit "en"
   /\ GeminiService.languageNames language = Some (lit "English"))
  \/ (language = lit "zh"
      /\ GeminiService.languageNames language
         = Some (lit "Chinese (Simplified)"))
  \/ (language = lit "ja"
      /\ GeminiService.languageNames language = Some (lit "Japanese"))
  \/ (~ In language recognized_languages
      /\ GeminiService.languageNames language = None).
Proof.
  unfold GeminiService.languageNames.
  destruct (JsString.eqb language (lit "en")) eqn:E1.
  { left. apply eqb_eq in E1. auto. }
  destruct (JsString.eqb language (lit "zh")) eqn:E2.
  { right; left. apply eqb_eq in E2. auto. }
  destruct (JsString.eqb language (lit "ja")) eqn:E3.
  { right; right; left. apply eqb_eq in E3. auto. }
  right; right; right. split; [|reflexivity].
  apply eqb_neq in E1, E2, E3.
  intros [H|[H|[H|[]]]]; congruence.
Qed.

Lemma focusInstruction_cases (focus : jsstring) :
  (focus = lit "classic"
   /\ GeminiService.focusInstruction focus = GeminiService.classicBlock)
  \/ (focus = lit "recent"
      /\ GeminiService.focusInstruction focus = GeminiService.recentBlock)
  \/ (focus <> lit "classic" /\ focus <> lit "recent"
      /\ GeminiService.focusInstruction focus = GeminiService.balancedBlock).
Proof.
  unfold GeminiService.focusInstruction.
  destruct (JsString.eqb focus (lit "classic")) eqn:E1.
  { left. apply eqb_eq in E1. auto. }
  destruct (JsString.eqb focus (lit "recent")) eqn:E2.
  { right; left. apply eqb_eq in E2. auto. }
  right; right. apply eqb_neq in E1, E2. auto.
Qed.

(** Of the three focus blocks, the compiled instruction contains the one
    that was selected and no other. *)
Lemma instruction_blocks (config : ResearchConfig.t) (b : jsstring) :
  In b focus_blocks ->
  JsString.includesb (discovery_instruction config) b
  = JsString.eqb b
      (GeminiService.focusInstruction (ResearchConfig.focus config)).
Proof.
  unfold discovery_instruction.
  intros [<-|[<-|[<-|[]]]];
  destruct (languageNames_cases (ResearchConfig.language config))
    as [[_ ->]|[[_ ->]|[[_ ->]|[_ ->]]]];
  destruct (focusInstruction_cases (ResearchConfig.focus config))
    as [[_ ->]|[[_ ->]|(_ & _ & ->)]];
  vm_compute; reflexivity.
Qed.

(** C7, as the specification states it for languages: every language value
    is given a natural-language name.  The value ['fr'] is given none. *)
Lemma language_without_default :
  ~ (forall language,
       exists name, GeminiService.languageNames language = Some name).
Proof.
  intros H. destruct (H (lit "fr")) as [name E].
  vm_compute in E. discriminate E.
Qed.

Lemma includes_skip (a rest x : jsstring) :
  JsString.includes rest x -> JsString.includes (a ++ rest) x.
Proof.
  intros (pre & post & ->). exists (a ++ pre), post.
  rewrite <- app_assoc. reflexivity.
Qed.

(** [x1 ++ u ++ x2] lies across three consecutive pieces when the first
    ends with [x1] and the third begins with [x2]. *)
Lemma includes_mid (a u b rest x1 x2 : jsstring) :
  (exists a1, a = a1 ++ x1) -> JsString.startsWith b x2 = true ->
  JsString.includes (a ++ u ++ b ++ rest) (x1 ++ u ++ x2).
Proof.
  intros [a1 ->] Hb. apply startsWith_iff in Hb. destruct Hb as [b2 ->].
  exists a1, (b2 ++ rest). rewrite <- !app_assoc. reflexivity.
Qed.

Ltac find_mid x1 x2 :=
  repeat first
    [ solve [ apply (includes_mid _ _ _ _ x1 x2);
              [ match goal with
                | |- exists a1, ?a = a1 ++ ?x =>
                    exists (firstn (length a - length x) a);
                    vm_compute; reflexivity
                end
              | vm_compute; reflexivity ] ]
    | apply includes_skip ].

(** Whatever the lookup of the language gives is what the two texts read
    at every place of the language. *)
Lemma language_places (topic : jsstring) (config : ResearchConfig.t) :
  reads_language topic config
    (JsString.ofOptional
       (GeminiService.languageNames (ResearchConfig.language config))).
Proof.
  unfold reads_language, discovery_instruction, discovery_prompt,
    instruction_language_places, prompt_language_places,
    GeminiService.researchTopic_systemInstruction,
    GeminiService.researchTopic_prompt.
  remember (JsString.ofOptional
              (GeminiService.languageNames (ResearchConfig.language config)))
    as shown eqn:Eshown.
  clear Eshown. split.
  - cbn [concat]. repeat apply Forall_cons; [| | | |apply Forall_nil].
    + find_mid (lit "The user has requested the output in ") (lit ".").
    + find_mid (lit " fields MUST be written in ") (lit ".").
    + find_mid (lit "development and evolution of the field in ") (lit ".").
    + find_mid (lit "the significance of each selected paper in ") (lit ".").
  - cbn [concat]. repeat apply Forall_cons; [| | |apply Forall_nil].
    + find_mid (lit "how this field developed in ") (lit ", explicitly").
    + find_mid (lit "Brief summary of the content in ") dq.
    + find_mid (lit "(mention journal/impact if relevant) in ") dq.
Qed.

(** C7 (amended).  Compiling the discovery instruction and prompt is a
    total function.  For every focus value the instruction contains exactly
    one of the three focus blocks: the classic one for ['classic'], the
    recent one for ['recent'], the balanced one for any other value.  Each
    of the languages ['en'], ['zh'], ['ja'] is replaced by its name: the
    lookup gives "English", "Chinese (Simplified)", "Japanese", and the
    instruction and the prompt read that name at every place of the
    language, four in the instruction and three in the prompt.  For any
    other language value no default is substituted: the lookup gives
    [undefined] and the compiled texts read "undefined" where the name
    belongs.  (Language values that name a member of [Object.prototype]
    are outside the model of the lookup and are left out.) *)
Theorem configuration_compiler (topic : jsstring) (config : ResearchConfig.t) :
  let focus := ResearchConfig.focus config in
  let language := ResearchConfig.language config in
  let block := GeminiService.focusInstruction focus in
  ~ In language GeminiService.Object_prototype_members ->
  (In block focus_blocks
   /\ (focus = lit "classic" -> block = GeminiService.classicBlock)
   /\ (focus = lit "recent" -> block = GeminiService.recentBlock)
   /\ (focus <> lit "classic" -> focus <> lit "recent" ->
       block = GeminiService.balancedBlock)
   /\ forall b, In b focus_blocks ->
        (JsString.includes (discovery_instruction config) b <-> b = block))
  /\ (language = lit "en" ->
      GeminiService.languageNames language = Some (lit "English")
      /\ reads_language topic config (lit "English"))
  /\ (language = lit "zh" ->
      GeminiService.languageNames language = Some (lit "Chinese (Simplified)")
      /\ reads_language topic config (lit "Chinese (Simplified)"))
  /\ (language = lit "ja" ->
      GeminiService.languageNames language = Some (lit "Japanese")
      /\ reads_language topic config (lit "Japanese"))
  /\ (~ In language recognized_languages ->
      GeminiService.languageNames language = None
      /\ JsString.includes (discovery_instruction config)
           (lit "The user has requested the output in undefined.")
      /\ JsString.includes (discovery_prompt topic config)
           (lit "how this field developed in undefined,")
      /\ reads_language topic config (lit "undefined")).
Proof.
  cbv zeta. intros _. split; [|split; [|split; [|split]]].
  - assert (Hinc : forall b, In b focus_blocks ->
             (JsString.includes (discovery_instruction config) b
              <-> b = GeminiService.focusInstruction
                        (ResearchConfig.focus config))).
    { intros b Hb.
      rewrite <- includesb_iff, (instruction_blocks config b Hb), eqb_eq.
      tauto. }
    destruct (focusInstruction_cases (ResearchConfig.focus config))
      as [[Hf E]|[[Hf E]|(Hf1 & Hf2 & E)]]; rewrite E in *.
    + split; [left; reflexivity|].
      split; [reflexivity|].
      split; [intros Hr; rewrite Hr in Hf; discriminate Hf|].
      split; [intros Hne; contradiction | exact Hinc].
    + split; [right; left; reflexivity|].
      split; [intros Hr; rewrite Hr in Hf; discriminate Hf|].
      split; [reflexivity|].
      split; [intros _ Hne; contradiction | exact Hinc].
    + split; [right; right; left; reflexivity|].
      split; [intros Hc; contradiction|].
      split; [intros Hr; contradiction|].
      split; [reflexivity | exact Hinc].
  - intros E. pose proof (language_places topic config) as H.
    rewrite E in H |- *. split; [reflexivity | exact H].
  - intros E. pose proof (language_places topic config) as H.
    rewrite E in H |- *. split; [reflexivity | exact H].
  - intros E. pose proof (language_places topic config) as H.
    rewrite E in H |- *. split; [reflexivity | exact H].
  - intros Hun. pose proof (language_places topic config) as Hplaces.
    destruct (languageNames_cases (ResearchConfig.language config))
      as [[E _]|[[E _]|[[E _]|[_ E]]]];
      try (exfalso; apply Hun; rewrite E; simpl; tauto).
    rewrite E in Hplaces.
    split; [exact E|]. split; [|split; [|exact Hplaces]].
    + unfold discovery_instruction. rewrite E.
      unfold GeminiService.researchTopic_systemInstruction.
      cbn [concat JsString.ofOptional].
      change (lit "The user has requested the output in undefined.")
        with (lit "The user has requested the output in " ++ lit "undefined"
              ++ lit ".").
      find_mid (lit "The user has requested the output in ") (lit ".").
    + unfold discovery_prompt. rewrite E.
      unfold GeminiService.researchTopic_prompt.
      cbn [concat JsString.ofOptional].
      change (lit "how this field developed in undefined,")
        with (lit "how this field developed in " ++ lit "undefined"
              ++ lit ",").
      find_mid (lit "how this field developed in ") (lit ",").
Qed.

Lemma configuration_compiler_witness :
  let config := {| ResearchConfig.focus := lit "surprise";
                   ResearchConfig.count := 10;
                   ResearchConfig.language := lit "fr" |} in
  let japanese := {| ResearchConfig.focus := lit "recent";
                     ResearchConfig.count := 5;
                     ResearchConfig.language := lit "ja" |} in
  GeminiService.focusInstruction (ResearchConfig.focus config)
  = GeminiService.balancedBlock
  /\ GeminiService.languageNames (ResearchConfig.language config) = None
  /\ JsString.includes (discovery_instruction config)
       (lit "The user has requested the output in undefined.")
  /\ JsString.includes (discovery_prompt (lit "CRISPR") config)
       (lit "how this field developed in undefined,")
  /\ reads_language (lit "CRISPR") config (lit "undefined")
  /\ GeminiService.focusInstruction (ResearchConfig.focus japanese)
     = GeminiService.recentBlock
  /\ reads_language (lit "CRISPR") japanese (lit "Japanese").
Proof.
  cbv zeta.
  destruct (configuration_compiler (lit "CRISPR")
              {| ResearchConfig.focus := lit "surprise";
                 ResearchConfig.count := 10;
                 ResearchConfig.language := lit "fr" |})
    as ((_ & _ & _ & Hbalanced & _) & _ & _ & _ & Hundefined);
    [vm_compute; intuition discriminate|].
  destruct (configuration_compiler (lit "CRISPR")
              {| ResearchConfig.focus := lit "recent";
                 ResearchConfig.count := 5;
                 ResearchConfig.language := lit "ja" |})
    as ((_ & _ & Hrecent & _) & _ & _ & Hja & _);
    [vm_compute; intuition discriminate|].
  split; [apply Hbalanced; vm_compute; discriminate|].
  destruct Hundefined as (H1 & H2 & H3 & H4);
    [vm_compute; intuition discriminate|].
  split; [exact H1|]. split; [exact H2|]. split; [exact H3|].
  split; [exact H4|].
  split; [exact (Hrecent eq_refl) | exact (proj2 (Hja eq_refl))].
Defined.

(** The Japanese configuration, compiled: the name is at its places, and
    no other name is at the first of them. *)
Example japanese_is_named :
  let config := {| ResearchConfig.focus := lit "recent";
                   ResearchConfig.count := 5;
                   ResearchConfig.language := lit "ja" |} in
  reads_language (lit "CRISPR") config (lit "Japanese")
  /\ ~ JsString.includes (discovery_instruction config)
         (lit "The user has requested the output in English.").
Proof.
  cbv zeta. split.
  - exact (language_places (lit "CRISPR")
             {| ResearchConfig.focus := lit "recent";
                ResearchConfig.count := 5;
                ResearchConfig.language := lit "ja" |}).
  - rewrite <- includesb_iff. vm_compute. discriminate.
Qed.

(** * Context builder *)

Lemma mapi_from_length (A B : Type) (f : A -> nat -> B) (l : list A) (i : nat) :
  length (mapi_from f l i) = length l.
Proof.
  revert i; induction l as [|a l IH]; intros i; simpl; [reflexivity|].
  rewrite IH. reflexivity.
Qed.

Lemma mapi_from_nth (A B : Type) (f : A -> nat -> B) (l : list A) (i k : nat)
  (a : A) :
  nth_error l k = Some a -> nth_error (mapi_from f l i) k = Some (f a (i + k)).
Proof.
  revert i k; induction l as [|x l IH]; intros i k H.
  - destruct k; discriminate H.
  - destruct k as [|k]; simpl in *.
    + injection H as ->. rewrite Nat.add_0_r. reflexivity.
    + rewrite (IH (S i) k H). f_equal. f_equal. lia.
Qed.

Lemma digits_inj (u v : Decimal.uint) :
  JsString.digits u = JsString.digits v -> u = v.
Proof.
  revert v; induction u as [|u IH|u IH|u IH|u IH|u IH|u IH|u IH|u IH|u IH|u IH];
    intros v H; destruct v; simpl in H; try discriminate H;
    try reflexivity; injection H as H; f_equal; exact (IH _ H).
Qed.

(** Two positions are never given the same number. *)
Lemma ofNumber_inj (n m : N) :
  JsString.ofNumber n = JsString.ofNumber m -> n = m.
Proof.
  unfold JsString.ofNumber. intros H. apply digits_inj in H.
  rewrite <- (DecimalN.Unsigned.of_to n), <- (DecimalN.Unsigned.of_to m), H.
  reflexivity.
Qed.

(** C9.  The context text is a header, then the lines of the enumeration
    joined by line feeds, then a footer.  The header contains the topic
    and the summary.  There is one line per article, in the order of the
    articles; the line of the article at position k (counting from 0)
    starts with the number k + 1 and carries its title, date, authors,
    journal (or "Unknown"), significance and summary.  Without articles
    the text is the header followed by the footer. *)
Theorem contextString_enumerates (context : ResearchResult.t) :
  let articles := ResearchResult.articles context in
  exists header lines footer,
    GeminiService.contextString context
    = header ++ JsString.join [10%N] lines ++ footer
    /\ JsString.includes header (ResearchResult.topic context)
    /\ JsString.includes header (ResearchResult.summary context)
    /\ length lines = length articles
    /\ (forall k a, nth_error articles k = Some a ->
          nth_error lines k
          = Some (JsString.ofNumber (N.of_nat (k + 1)) ++ lit ". "
                  ++ dq ++ Article.title a ++ dq
                  ++ lit " (" ++ Article.publication_date a ++ lit ") by "
                  ++ Article.authors a
                  ++ lit ". Journal: " ++ Article.journal_or_Unknown a
                  ++ lit ". Significance: " ++ Article.significance a
                  ++ lit ". Summary: " ++ Article.ai_summary a))
    /\ (articles = [] ->
        lines = [] /\ GeminiService.contextString context = header ++ footer).
Proof.
  cbv zeta.
  exists (lit "
    TOPIC: " ++ ResearchResult.topic context ++ lit "
    
    SUMMARY:
    " ++ ResearchResult.summary context ++ lit "
    
    KEY ARTICLES (Foundational & Recent):
    ").
  exists (mapi GeminiService.contextString_entry
            (ResearchResult.articles context)).
  exists (lit "
  ").
  split; [|split; [|split; [|split; [|split]]]].
  - unfold GeminiService.contextString, GeminiService.contextString_text.
    cbn [concat]. rewrite app_nil_r, <- !app_assoc. reflexivity.
  - eexists _, _. reflexivity.
  - exists (lit "
    TOPIC: " ++ ResearchResult.topic context ++ lit "
    
    SUMMARY:
    "). eexists. rewrite <- !app_assoc. reflexivity.
  - apply mapi_from_length.
  - intros k a Hk. unfold mapi.
    rewrite (mapi_from_nth _ _ GeminiService.contextString_entry _ 0 k a Hk).
    unfold GeminiService.contextString_entry. cbn [concat Nat.add].
    rewrite app_nil_r. reflexivity.
  - intros Hnil. split; [rewrite Hnil; reflexivity|].
    unfold GeminiService.contextString, GeminiService.contextString_text.
    rewrite Hnil. cbn [concat mapi mapi_from JsString.join].
    rewrite app_nil_r, <- !app_assoc. reflexivity.
Qed.

Lemma contextString_enumerates_witness :
  exists header lines footer,
    GeminiService.contextString sample_result
    = header ++ JsString.join [10%N] lines ++ footer
    /\ nth_error lines 1
       = Some (lit "2. " ++ dq ++ lit "Paper 2" ++ dq
               ++ lit " (2012) by Doudna, J.; Charpentier, E."
               ++ lit ". Journal: Unknown. Significance: Founding paper."
               ++ lit ". Summary: A programmable nuclease.").
Proof.
  destruct (contextString_enumerates sample_result)
    as (header & lines & footer & E & _ & _ & _ & Hline & _).
  exists header, lines, footer. split; [exact E|].
  rewrite (Hline 1 (sample_article 2) eq_refl). vm_compute. reflexivity.
Defined.

(** * The handlers of the history, event by event *)

Lemma loadHistoryItem_run (item : HistoryItem.t) (w : App.World) :
  let out := AppSidebar.loadHistoryItem item w in
  fst out = Return tt
  /\ history (snd out) = history w
  /\ App.localStorage (snd out) = App.localStorage w
  /\ active (snd out) = Some (HistoryItem.id item)
  /\ App.result (App.state (snd out)) = Some (HistoryItem.result item)
  /\ App.timelineImage (App.state (snd out)) = HistoryItem.timelineImage item.
Proof.
  destruct w as [s ls]. destruct item. vm_compute. repeat split; reflexivity.
Qed.

Lemma clearHistory_run (confirmed : bool) (w : App.World) :
  let out := AppSidebar.clearHistory confirmed w in
  fst out = Return tt
  /\ history (snd out) = (if confirmed then [] else history w)
  /\ App.stored (App.localStorage (snd out))
     = (if confirmed then None else App.stored (App.localStorage w))
  /\ active (snd out) = active w
  /\ App.result (App.state (snd out)) = App.result (App.state w)
  /\ App.timelineImage (App.state (snd out)) = App.timelineImage (App.state w)
  /\ App.literatureReview (App.state (snd out))
     = App.literatureReview (App.state w).
Proof.
  destruct w as [s ls]. destruct confirmed; vm_compute; repeat split; reflexivity.
Qed.

Lemma handleTimelineGenerated_run (render : App.State) (url : jsstring)
  (w : App.World) :
  let out := App.handleTimelineGenerated render url w in
  fst out = Return tt
  /\ history (snd out)
     = match App.currentResearchId render with
       | Some (c :: r) =>
           updated (c :: r) (Updates.ofTimelineImage url)
             (App.historyItems render)
       | Some [] | None => history w
       end
  /\ active (snd out) = active w
  /\ App.timelineImage (App.state (snd out)) = Some url.
Proof.
  unfold App.handleTimelineGenerated, App.updateHistoryItem, App.bind,
    App.try_catch, App.setHistoryItems, App.setTimelineImage, App.modify,
    App.localStorage_setItem, App.ret, history, active, updated.
  destruct (App.currentResearchId render) as [[|c r]|]; cbn;
    try (repeat split; reflexivity).
  destruct (App.accepts (App.localStorage w) _); cbn; repeat split; reflexivity.
Qed.

Lemma handleReviewGenerated_run (render : App.State) (review : jsstring)
  (w : App.World) :
  let out := App.handleReviewGenerated render review w in
  fst out = Return tt
  /\ history (snd out)
     = match App.currentResearchId render with
       | Some (c :: r) =>
           updated (c :: r) (Updates.ofLiteratureReview review)
             (App.historyItems render)
       | Some [] | None => history w
       end
  /\ active (snd out) = active w
  /\ App.literatureReview (App.state (snd out)) = Some review.
Proof.
  unfold App.handleReviewGenerated, App.updateHistoryItem, App.bind,
    App.try_catch, App.setHistoryItems, App.setLiteratureReview, App.modify,
    App.localStorage_setItem, App.ret, history, active, updated.
  destruct (App.currentResearchId render) as [[|c r]|]; cbn;
    try (repeat split; reflexivity).
  destruct (App.accepts (App.localStorage w) _); cbn; repeat split; reflexivity.
Qed.

(** A search whose discovery call fails leaves no session active. *)
Lemma handleSearch_failure_active (env : GeminiService.Env) (now_id now_ts : N)
  (w : App.World) (e : exn) :
  GeminiService.researchTopic env (App.query (App.state w))
    (App.config (App.state w)) = Throw e ->
  JsString.trim (App.query (App.state w)) <> [] ->
  active (snd (App.dispatch (App.handleSearch env now_id now_ts) w)) = None.
Proof.
  intros Hthrow Hquery. unfold App.dispatch, App.handleSearch, active.
  destruct (JsString.trim (App.query (App.state w))) as [|c r];
    [contradiction|].
  rewrite Hthrow. clear Hthrow Hquery.
  destruct w as [s ls]. vm_compute. reflexivity.
Qed.

(** The three outcomes of a search, seen from the history. *)
Lemma search_cases (env : GeminiService.Env) (now_id now_ts : N)
  (w : App.World) :
  let w' := snd (perform (Search env now_id now_ts) w) in
  w' = w
  \/ (history w' = history w /\ active w' = None)
  \/ (exists data,
        history w'
        = firstn 15 (new_session now_id now_ts (App.state w) data :: history w)
        /\ active w' = Some (JsString.ofNumber now_id)).
Proof.
  cbv zeta. unfold perform.
  destruct (JsString.trim (App.query (App.state w))) as [|c r] eqn:Hq.
  - left. rewrite (handleSearch_blank env now_id now_ts w Hq). reflexivity.
  - assert (Hne : JsString.trim (App.query (App.state w)) <> [])
      by (rewrite Hq; discriminate).
    destruct (GeminiService.researchTopic env (App.query (App.state w))
                (App.config (App.state w))) as [data|e] eqn:Hd.
    + right. right. exists data.
      destruct (handleSearch_success env now_id now_ts w data Hd Hne)
        as (_ & Hh & _ & Hc).
      split; assumption.
    + right. left. split.
      * exact (proj1 (proj2 (handleSearch_failure env now_id now_ts w e Hd))).
      * exact (handleSearch_failure_active env now_id now_ts w e Hd Hne).
Qed.

Lemma updated_length (id : jsstring) (updates : Updates.t)
  (h : list HistoryItem.t) :
  length (updated id updates h) = length h.
Proof. unfold updated. apply length_map. Qed.

Lemma remaining_length (id : jsstring) (h : list HistoryItem.t) :
  length (remaining id h) <= length h.
Proof. unfold remaining. apply filter_length_le. Qed.

(** X1.  Whatever the event and whatever the browser answers, a history of
    at most 15 sessions stays a history of at most 15 sessions.  The
    result of a stage reaches the handler of the render in which the
    generation started, which writes the history of that render: then that
    history, too, is one of at most 15 sessions, as the history of the
    latest render is. *)
Theorem capacity_kept (a : action) (w : App.World) :
  within_capacity w ->
  captured_history (fun h => length h <= 15) a ->
  within_capacity (snd (perform a w)).
Proof.
  unfold within_capacity, captured_history. intros Hcap Hcaptured.
  destruct a as [env t1 t2|item|id|c|captured url|captured review].
  - destruct (search_cases env t1 t2 w) as [E | [[E _] | (data & E & _)]];
      cbv zeta in E; rewrite E; try exact Hcap.
    rewrite length_firstn. lia.
  - cbn [perform].
    rewrite (proj1 (proj2 (loadHistoryItem_run item w))). exact Hcap.
  - cbn [perform]. unfold App.dispatch, history at 1.
    rewrite deleteHistoryItem_history.
    pose proof (remaining_length id (App.historyItems (App.state w))).
    unfold history in Hcap. lia.
  - cbn [perform].
    rewrite (proj1 (proj2 (clearHistory_run c w))).
    destruct c; [simpl; lia | exact Hcap].
  - cbn [perform captured_render] in *.
    rewrite (proj1 (proj2 (handleTimelineGenerated_run captured url w))).
    destruct (App.currentResearchId captured) as [[|ch r]|];
      try exact Hcap.
    rewrite updated_length. exact Hcaptured.
  - cbn [perform captured_render] in *.
    rewrite (proj1 (proj2 (handleReviewGenerated_run captured review w))).
    destruct (App.currentResearchId captured) as [[|ch r]|];
      try exact Hcap.
    rewrite updated_length. exact Hcaptured.
Qed.

Lemma capacity_kept_witness :
  within_capacity (roomy fifteen None)
  /\ within_capacity
       (snd (perform (Search (env_answering (Some fenced_response)) 16 16)
                     (roomy fifteen None)))
  /\ within_capacity
       (snd (perform (ImageGenerated
                        (sample_state fifteen (Some (JsString.ofNumber 1)))
                        (lit "data:image/png;base64,BBBB"))
                     (roomy [sample_item 1] None))).
Proof.
  assert (H : within_capacity (roomy fifteen None))
    by (unfold within_capacity; vm_compute; lia).
  split; [exact H|]. split.
  - exact (capacity_kept (Search (env_answering (Some fenced_response)) 16 16)
             (roomy fifteen None) H I).
  - apply (capacity_kept
             (ImageGenerated
                (sample_state fifteen (Some (JsString.ofNumber 1)))
                (lit "data:image/png;base64,BBBB"))
             (roomy [sample_item 1] None)).
    + unfold within_capacity. vm_compute. lia.
    + unfold captured_history. vm_compute. lia.
Defined.

Lemma ids_updated (id : jsstring) (updates : Updates.t)
  (h : list HistoryItem.t) :
  Updates.id updates = None -> ids (updated id updates h) = ids h.
Proof.
  intros Hid. unfold ids, updated. rewrite map_map. apply map_ext.
  intros item. destruct (JsString.eqb (HistoryItem.id item) id); [|reflexivity].
  unfold spread. cbn [HistoryItem.id]. rewrite Hid. reflexivity.
Qed.

Lemma ids_remaining (id x : jsstring) (h : list HistoryItem.t) :
  In x (ids (remaining id h)) <-> In x (ids h) /\ x <> id.
Proof.
  unfold ids. rewrite !in_map_iff. split.
  - intros (item & <- & Hin). apply remaining_spec in Hin.
    destruct Hin as [Hin Hne]. split; [|exact Hne].
    exists item. split; [reflexivity | exact Hin].
  - intros [(item & <- & Hin) Hne]. exists item. split; [reflexivity|].
    apply remaining_spec. split; assumption.
Qed.

Lemma isCurrent_true (current : option jsstring) (id : jsstring) :
  App.isCurrent current id = true <-> current = Some id.
Proof.
  destruct current as [c|]; simpl.
  - rewrite eqb_eq. split; congruence.
  - split; discriminate.
Qed.

(** The handler of the latest render keeps the active session in the
    history. *)
Lemma keeps_active_latest (url review : jsstring) (w : App.World) :
  active_present w ->
  keeps_active (ImageGenerated (App.state w) url) w
  /\ keeps_active (ReviewGenerated (App.state w) review) w.
Proof.
  unfold active_present, keeps_active, active, history.
  intros H. destruct (App.currentResearchId (App.state w)) as [[|c r]|];
    split; try exact I; exact H.
Qed.

(** X2.  If the active id is the id of a session of the history, it still
    is after a search, after the selection of a session of the list, after
    a deletion whose write the browser takes, after a clearing that is
    refused by the user or finds no active session, and after an image or
    a review that reaches a handler whose render, if it had an active
    session, had the session that is active now in its history.  The
    handler of the latest render is such a handler; the handler of an
    earlier render need not be, and when it is not the active id is the id
    of no session afterwards. *)
Theorem active_kept (a : action) (w : App.World) :
  active_present w ->
  (keeps_active a w -> active_present (snd (perform a w)))
  /\ (forall captured, captured_render a = Some captured ->
        (captured = App.state w -> keeps_active a w)
        /\ (active_present (snd (perform a w)) -> keeps_active a w)).
Proof.
  unfold active_present. intros Hact.
  destruct a as [env t1 t2|item|id|c|captured url|captured review].
  - split; [intros Hok | intros captured Hc; discriminate Hc].
    destruct (search_cases env t1 t2 w) as [E | [[_ E] | (data & Eh & Ea)]];
      cbv zeta in *.
    + rewrite E. exact Hact.
    + rewrite E. exact I.
    + rewrite Ea, Eh. left. reflexivity.
  - split; [intros Hok | intros captured Hc; discriminate Hc].
    cbn [perform].
    destruct (loadHistoryItem_run item w) as (_ & Eh & _ & Ea & _).
    cbv zeta in Eh, Ea. rewrite Ea, Eh.
    apply in_map. exact Hok.
  - split; [intros Hok | intros captured Hc; discriminate Hc].
    cbn [perform keeps_active] in *. unfold App.dispatch.
    destruct (deleteHistoryItem_accepted (App.state w) id w Hok)
      as (_ & Hcur & Hother).
    cbv zeta in Hcur, Hother. unfold active, history in *.
    rewrite deleteHistoryItem_history.
    destruct (App.isCurrent (App.currentResearchId (App.state w)) id) eqn:Ec.
    + destruct (Hcur eq_refl) as (_ & _ & _ & ->). exact I.
    + destruct (Hother eq_refl) as (_ & _ & _ & ->).
      destruct (App.currentResearchId (App.state w)) as [cur|]; [|exact I].
      apply ids_remaining. split; [exact Hact|].
      intros ->. simpl in Ec. rewrite (proj2 (eqb_eq id id) eq_refl) in Ec.
      discriminate Ec.
  - split; [intros Hok | intros captured Hc; discriminate Hc].
    cbn [perform keeps_active] in *.
    destruct (clearHistory_run c w) as (_ & Eh & _ & Ea & _).
    cbv zeta in Eh, Ea. rewrite Ea, Eh.
    destruct Hok as [-> | Hnone].
    + exact Hact.
    + rewrite Hnone. exact I.
  - cbn [perform keeps_active captured_render].
    destruct (handleTimelineGenerated_run captured url w)
      as (_ & Eh & Ea & _).
    cbv zeta in Eh, Ea. rewrite Ea, Eh.
    split; [|intros c Hc; injection Hc as <-; split].
    + destruct (active w) as [cur|]; [|intros _; exact I].
      destruct (App.currentResearchId captured) as [[|ch r]|];
        try (intros _; exact Hact).
      rewrite ids_updated by reflexivity. intros H; exact H.
    + intros ->. exact (proj1 (keeps_active_latest url url w Hact)).
    + destruct (active w) as [cur|];
        destruct (App.currentResearchId captured) as [[|ch r]|];
        try (intros _; exact I).
      rewrite ids_updated by reflexivity. intros H; exact H.
  - cbn [perform keeps_active captured_render].
    destruct (handleReviewGenerated_run captured review w)
      as (_ & Eh & Ea & _).
    cbv zeta in Eh, Ea. rewrite Ea, Eh.
    split; [|intros c Hc; injection Hc as <-; split].
    + destruct (active w) as [cur|]; [|intros _; exact I].
      destruct (App.currentResearchId captured) as [[|ch r]|];
        try (intros _; exact Hact).
      rewrite ids_updated by reflexivity. intros H; exact H.
    + intros ->. exact (proj2 (keeps_active_latest review review w Hact)).
    + destruct (active w) as [cur|];
        destruct (App.currentResearchId captured) as [[|ch r]|];
        try (intros _; exact I).
      rewrite ids_updated by reflexivity. intros H; exact H.
Qed.

Lemma active_kept_witness :
  let w := roomy [sample_item 2; sample_item 1] (Some (JsString.ofNumber 1)) in
  let captured := sample_state [sample_item 1] (Some (JsString.ofNumber 1)) in
  let url := lit "data:image/png;base64,BBBB" in
  active_present w
  /\ keeps_active (Delete (JsString.ofNumber 2)) w
  /\ active_present (snd (perform (Delete (JsString.ofNumber 2)) w))
  /\ keeps_active (ImageGenerated captured url) w
  /\ active_present (snd (perform (ImageGenerated captured url) w)).
Proof.
  cbv zeta.
  assert (H1 : active_present
                 (roomy [sample_item 2; sample_item 1]
                        (Some (JsString.ofNumber 1))))
    by (vm_compute; tauto).
  assert (H2 : keeps_active (Delete (JsString.ofNumber 2))
                 (roomy [sample_item 2; sample_item 1]
                        (Some (JsString.ofNumber 1))))
    by reflexivity.
  assert (H3 : keeps_active
                 (ImageGenerated
                    (sample_state [sample_item 1] (Some (JsString.ofNumber 1)))
                    (lit "data:image/png;base64,BBBB"))
                 (roomy [sample_item 2; sample_item 1]
                        (Some (JsString.ofNumber 1))))
    by (vm_compute; tauto).
  split; [exact H1|]. split; [exact H2|]. split; [|split; [exact H3|]].
  - exact (proj1 (active_kept (Delete (JsString.ofNumber 2))
             (roomy [sample_item 2; sample_item 1] (Some (JsString.ofNumber 1)))
             H1) H2).
  - exact (proj1 (active_kept
             (ImageGenerated
                (sample_state [sample_item 1] (Some (JsString.ofNumber 1)))
                (lit "data:image/png;base64,BBBB"))
             (roomy [sample_item 2; sample_item 1] (Some (JsString.ofNumber 1)))
             H1) H3).
Defined.

(** A search finishes while an image is generated for session 1: the
    handler of the image, captured before the search, writes the list of
    its render, and the session of the search, which is the active one, is
    in the history no more. *)
Example stale_image_loses_active :
  let w0 := roomy [sample_item 1] (Some (JsString.ofNumber 1)) in
  let w1 := snd (perform (Search (env_answering (Some fenced_response)) 2 2)
                   w0) in
  let w2 := snd (perform (ImageGenerated (App.state w0)
                            (lit "data:image/png;base64,BBBB")) w1) in
  active_present w0 /\ active_present w1
  /\ active w2 = Some (JsString.ofNumber 2)
  /\ ids (history w2) = [JsString.ofNumber 1]
  /\ ~ active_present w2.
Proof.
  cbv zeta. split; [vm_compute; tauto|]. split; [vm_compute; tauto|].
  split; [vm_compute; reflexivity|]. split; [vm_compute; reflexivity|].
  vm_compute. intuition discriminate.
Qed.

Lemma NoDup_firstn (A : Type) (n : nat) (l : list A) :
  NoDup l -> NoDup (firstn n l).
Proof.
  revert n; induction l as [|x l IH]; intros n H.
  - rewrite firstn_nil. constructor.
  - destruct n as [|n]; [constructor|]. simpl.
    inversion H as [|? ? Hx Hl]; subst. constructor.
    + intros Hin. apply Hx. revert Hin. clear.
      revert n; induction l as [|y l IH]; intros n; destruct n; simpl; try tauto.
      intros [E|Hin]; [left; exact E | right; exact (IH n Hin)].
    + apply IH. exact Hl.
Qed.

Lemma NoDup_ids_remaining (id : jsstring) (h : list HistoryItem.t) :
  NoDup (ids h) -> NoDup (ids (remaining id h)).
Proof.
  unfold ids, remaining. induction h as [|item h IH]; intros H; simpl.
  - constructor.
  - inversion H as [|? ? Hx Hl]; subst.
    destruct (negb (JsString.eqb (HistoryItem.id item) id)); simpl.
    + constructor; [|exact (IH Hl)].
      intros Hin. apply Hx. apply in_map_iff in Hin.
      destruct Hin as (other & E & Hin). apply filter_In in Hin.
      apply in_map_iff. exists other. split; [exact E | exact (proj1 Hin)].
    + exact (IH Hl).
Qed.

(** X3.  Sessions keep distinct ids: if no two sessions of the history
    share an id and a search reads a time whose text is the id of none of
    them, no two sessions share an id after any event.  The result of a
    stage reaches the handler of the render in which the generation
    started, which writes the history of that render: then no two
    sessions of that history share an id either, as in the history of the
    latest render. *)
Theorem distinct_ids_kept (a : action) (w : App.World) :
  NoDup (ids (history w)) -> fresh_id a w ->
  captured_history (fun h => NoDup (ids h)) a ->
  NoDup (ids (history (snd (perform a w)))).
Proof.
  unfold captured_history. intros Hnd Hfresh Hcaptured.
  destruct a as [env t1 t2|item|id|c|captured url|captured review].
  - destruct (search_cases env t1 t2 w) as [E | [[E _] | (data & E & _)]];
      cbv zeta in E; rewrite E; try exact Hnd.
    unfold ids. rewrite <- firstn_map. apply NoDup_firstn.
    cbn [map new_session HistoryItem.id]. constructor; assumption.
  - cbn [perform].
    rewrite (proj1 (proj2 (loadHistoryItem_run item w))). exact Hnd.
  - cbn [perform]. unfold App.dispatch, history at 1.
    rewrite deleteHistoryItem_history. apply NoDup_ids_remaining. exact Hnd.
  - cbn [perform].
    rewrite (proj1 (proj2 (clearHistory_run c w))).
    destruct c; [constructor | exact Hnd].
  - cbn [perform captured_render] in *.
    rewrite (proj1 (proj2 (handleTimelineGenerated_run captured url w))).
    destruct (App.currentResearchId captured) as [[|ch r]|];
      try exact Hnd.
    rewrite ids_updated by reflexivity. exact Hcaptured.
  - cbn [perform captured_render] in *.
    rewrite (proj1 (proj2 (handleReviewGenerated_run captured review w))).
    destruct (App.currentResearchId captured) as [[|ch r]|];
      try exact Hnd.
    rewrite ids_updated by reflexivity. exact Hcaptured.
Qed.

Lemma distinct_ids_kept_witness :
  let w := roomy [sample_item 2; sample_item 1] None in
  let a := Search (env_answering (Some fenced_response)) 3 3 in
  NoDup (ids (history w)) /\ fresh_id a w
  /\ NoDup (ids (history (snd (perform a w)))).
Proof.
  cbv zeta.
  assert (H1 : NoDup (ids (history (roomy [sample_item 2; sample_item 1] None)))).
  { vm_compute. repeat constructor; simpl; intuition discriminate. }
  assert (H2 : fresh_id (Search (env_answering (Some fenced_response)) 3 3)
                 (roomy [sample_item 2; sample_item 1] None)).
  { vm_compute. intuition discriminate. }
  split; [exact H1|]. split; [exact H2|].
  exact (distinct_ids_kept (Search (env_answering (Some fenced_response)) 3 3)
           (roomy [sample_item 2; sample_item 1] None) H1 H2 I).
Defined.

(** * How the handlers of the history compose *)

Lemma remaining_all (id : jsstring) (l : list HistoryItem.t) :
  ~ In id (ids l) -> remaining id l = l.
Proof.
  unfold remaining, ids. induction l as [|x l IH]; intros H; simpl.
  - reflexivity.
  - destruct (JsString.eqb (HistoryItem.id x) id) eqn:E.
    + apply eqb_eq in E. exfalso. apply H. left. exact E.
    + simpl. f_equal. apply IH. intros Hin. apply H. right. exact Hin.
Qed.

Lemma remaining_app (id : jsstring) (a b : list HistoryItem.t) :
  remaining id (a ++ b) = remaining id a ++ remaining id b.
Proof. unfold remaining. apply filter_app. Qed.

Lemma delete_history (id : jsstring) (w : App.World) :
  history (snd (perform (Delete id) w)) = remaining id (history w).
Proof.
  cbn [perform]. unfold App.dispatch, history.
  apply deleteHistoryItem_history.
Qed.

(** X4.  In a history without repeated ids, deleting the id of a session
    removes that one entry and leaves the others where they were, whether
    or not the browser takes the write; deleting an id that no session
    carries leaves the list as it was. *)
Theorem delete_removes_one (id : jsstring) (w : App.World) :
  NoDup (ids (history w)) ->
  (In id (ids (history w)) ->
   exists before item after,
     history w = before ++ item :: after
     /\ HistoryItem.id item = id
     /\ history (snd (perform (Delete id) w)) = before ++ after)
  /\ (~ In id (ids (history w)) ->
      history (snd (perform (Delete id) w)) = history w).
Proof.
  intros Hnd. rewrite delete_history. split.
  - intros Hin. unfold ids in Hin. apply in_map_iff in Hin.
    destruct Hin as (item & Hid & Hin).
    apply in_split in Hin. destruct Hin as (before & after & E).
    exists before, item, after. split; [exact E|]. split; [exact Hid|].
    rewrite E in Hnd |- *. unfold ids in Hnd. rewrite map_app in Hnd.
    cbn [map] in Hnd. rewrite Hid in Hnd.
    pose proof (NoDup_remove_2 _ _ _ Hnd) as Hout.
    rewrite remaining_app.
    change (item :: after) with ([item] ++ after). rewrite remaining_app.
    rewrite (remaining_all id before), (remaining_all id after).
    + unfold remaining. cbn [filter]. rewrite Hid.
      rewrite (proj2 (eqb_eq id id) eq_refl). reflexivity.
    + intros H. apply Hout. apply in_or_app. right. exact H.
    + intros H. apply Hout. apply in_or_app. left. exact H.
  - intros Hout. apply remaining_all. exact Hout.
Qed.

Lemma delete_removes_one_witness :
  let w := full [sample_item 3; sample_item 2; sample_item 1] None in
  NoDup (ids (history w))
  /\ In (JsString.ofNumber 2) (ids (history w))
  /\ exists before item after,
       history w = before ++ item :: after
       /\ HistoryItem.id item = JsString.ofNumber 2
       /\ history (snd (perform (Delete (JsString.ofNumber 2)) w))
          = before ++ after.
Proof.
  cbv zeta.
  assert (H1 : NoDup (ids (history
                 (full [sample_item 3; sample_item 2; sample_item 1] None)))).
  { vm_compute. repeat constructor; simpl; intuition discriminate. }
  assert (H2 : In (JsString.ofNumber 2) (ids (history
                 (full [sample_item 3; sample_item 2; sample_item 1] None)))).
  { vm_compute. tauto. }
  split; [exact H1|]. split; [exact H2|].
  exact (proj1 (delete_removes_one (JsString.ofNumber 2)
           (full [sample_item 3; sample_item 2; sample_item 1] None) H1) H2).
Defined.

Lemma ids_firstn_subset (n : nat) (h : list HistoryItem.t) (x : jsstring) :
  In x (ids (firstn n h)) -> In x (ids h).
Proof.
  unfold ids. rewrite !in_map_iff. intros (item & E & Hin).
  exists item. split; [exact E|].
  rewrite <- (firstn_skipn n h). apply in_or_app. left. exact Hin.
Qed.

(** X5.  A successful search followed by the deletion of the session it
    created gives back the first 14 sessions of the earlier history, hence
    the earlier history itself when it held fewer than 15 sessions; the
    id of the search is assumed to be new. *)
Theorem search_then_delete (env : GeminiService.Env) (now_id now_ts : N)
  (w : App.World) (data : json) :
  GeminiService.researchTopic env (App.query (App.state w))
    (App.config (App.state w)) = Return data ->
  JsString.trim (App.query (App.state w)) <> [] ->
  ~ In (JsString.ofNumber now_id) (ids (history w)) ->
  let w1 := snd (perform (Search env now_id now_ts) w) in
  let w2 := snd (perform (Delete (JsString.ofNumber now_id)) w1) in
  history w2 = firstn 14 (history w)
  /\ (length (history w) < 15 -> history w2 = history w).
Proof.
  intros Hd Hq Hfresh. cbv zeta.
  assert (H : history (snd (perform (Delete (JsString.ofNumber now_id))
                 (snd (perform (Search env now_id now_ts) w))))
              = firstn 14 (history w)).
  { rewrite delete_history.
    destruct (handleSearch_success env now_id now_ts w data Hd Hq)
      as (_ & Hh & _).
    cbv zeta in Hh. cbn [perform]. unfold history at 1. rewrite Hh.
    change (firstn 15 (new_session now_id now_ts (App.state w) data
                       :: App.historyItems (App.state w)))
      with ([new_session now_id now_ts (App.state w) data]
            ++ firstn 14 (history w)).
    rewrite remaining_app.
    assert (E : remaining (JsString.ofNumber now_id)
                  [new_session now_id now_ts (App.state w) data] = []).
    { unfold remaining. cbn [filter new_session HistoryItem.id].
      rewrite (proj2 (eqb_eq _ _) eq_refl). reflexivity. }
    rewrite E. cbn [app].
    apply remaining_all.
    intros Hin. apply Hfresh. exact (ids_firstn_subset 14 _ _ Hin). }
  split; [exact H|].
  intros Hlen. rewrite H. apply firstn_all2. lia.
Qed.

Lemma search_then_delete_witness :
  let w := roomy [sample_item 2; sample_item 1] None in
  let env := env_answering (Some fenced_response) in
  history (snd (perform (Delete (JsString.ofNumber 3))
                  (snd (perform (Search env 3 3) w))))
  = [sample_item 2; sample_item 1].
Proof.
  cbv zeta.
  destruct (search_then_delete (env_answering (Some fenced_response)) 3 3
              (roomy [sample_item 2; sample_item 1] None)
              (JObject [(lit "topic", JString (lit "CRISPR"))]))
    as [_ H].
  - vm_compute. reflexivity.
  - vm_compute. discriminate.
  - vm_compute. intuition discriminate.
  - apply H. vm_compute. lia.
Defined.

Lemma updated_twice (id url1 url2 : jsstring) (h : list HistoryItem.t) :
  updated id (Updates.ofTimelineImage url2)
    (updated id (Updates.ofTimelineImage url1) h)
  = updated id (Updates.ofTimelineImage url2) h.
Proof.
  unfold updated. rewrite map_map. apply map_ext. intros item.
  destruct (JsString.eqb (HistoryItem.id item) id) eqn:E.
  - cbn [spread HistoryItem.id Updates.id Updates.ofTimelineImage orElse].
    rewrite E. reflexivity.
  - rewrite E. reflexivity.
Qed.

Lemma updated_commute (id url review : jsstring) (h : list HistoryItem.t) :
  updated id (Updates.ofLiteratureReview review)
    (updated id (Updates.ofTimelineImage url) h)
  = updated id (Updates.ofTimelineImage url)
      (updated id (Updates.ofLiteratureReview review) h).
Proof.
  unfold updated. rewrite !map_map. apply map_ext. intros item.
  destruct (JsString.eqb (HistoryItem.id item) id) eqn:E.
  - cbn [spread HistoryItem.id Updates.id Updates.ofTimelineImage
         Updates.ofLiteratureReview orElse].
    rewrite E. reflexivity.
  - rewrite E. reflexivity.
Qed.

Lemma image_history (captured : App.State) (url : jsstring) (w : App.World) :
  history (snd (perform (ImageGenerated captured url) w))
  = match App.currentResearchId captured with
    | Some (c :: r) =>
        updated (c :: r) (Updates.ofTimelineImage url)
          (App.historyItems captured)
    | Some [] | None => history w
    end
  /\ active (snd (perform (ImageGenerated captured url) w)) = active w
  /\ App.timelineImage (App.state (snd (perform (ImageGenerated captured url) w)))
     = Some url.
Proof.
  cbn [perform].
  destruct (handleTimelineGenerated_run captured url w) as (_ & Eh & Ea & Ev).
  split; [exact Eh|]. split; [exact Ea | exact Ev].
Qed.

Lemma review_history (captured : App.State) (review : jsstring)
  (w : App.World) :
  history (snd (perform (ReviewGenerated captured review) w))
  = match App.currentResearchId captured with
    | Some (c :: r) =>
        updated (c :: r) (Updates.ofLiteratureReview review)
          (App.historyItems captured)
    | Some [] | None => history w
    end
  /\ active (snd (perform (ReviewGenerated captured review) w)) = active w
  /\ App.literatureReview
       (App.state (snd (perform (ReviewGenerated captured review) w)))
     = Some review.
Proof.
  cbn [perform].
  destruct (handleReviewGenerated_run captured review w)
    as (_ & Eh & Ea & Ev).
  split; [exact Eh|]. split; [exact Ea | exact Ev].
Qed.

(** X6.  Regenerating replaces.  When each generation starts after the
    result of the one before has arrived, two timeline images in a row
    leave the history that the second image alone would give, and an image
    and a review can be attached in either order with the same history.
    When an image and a review are generated at the same time, both
    started in the same render, the result that arrives last decides: the
    history is the one it alone would give, without what the other result
    wrote, though the view shows both. *)
Theorem regenerate_replaces (url1 url2 review : jsstring) (w : App.World) :
  let image (u : jsstring) (v : App.World) :=
    snd (perform (ImageGenerated (App.state v) u) v) in
  let reviewed (t : jsstring) (v : App.World) :=
    snd (perform (ReviewGenerated (App.state v) t) v) in
  let image_late := snd (perform (ImageGenerated (App.state w) url1)
                           (reviewed review w)) in
  let review_late := snd (perform (ReviewGenerated (App.state w) review)
                            (image url1 w)) in
  history (image url2 (image url1 w)) = history (image url2 w)
  /\ history (reviewed review (image url1 w))
     = history (image url1 (reviewed review w))
  /\ history review_late = history (reviewed review w)
  /\ history image_late = history (image url1 w)
  /\ App.timelineImage (App.state review_late) = Some url1
  /\ App.literatureReview (App.state review_late) = Some review
  /\ App.timelineImage (App.state image_late) = Some url1
  /\ App.literatureReview (App.state image_late) = Some review.
Proof.
  cbv zeta.
  destruct (image_history (App.state w) url1 w) as (H1 & A1 & V1).
  destruct (review_history (App.state w) review w) as (Hr & Ar & Vr).
  destruct (image_history (App.state w) url2 w) as (H5 & _ & _).
  remember (snd (perform (ImageGenerated (App.state w) url1) w)) as wi eqn:Ei.
  remember (snd (perform (ReviewGenerated (App.state w) review) w)) as wr
    eqn:Er.
  destruct (image_history (App.state wi) url2 wi) as (H2 & _ & _).
  destruct (review_history (App.state wi) review wi) as (H3 & _ & _).
  destruct (image_history (App.state wr) url1 wr) as (H4 & _ & _).
  destruct (review_history (App.state w) review wi) as (H6 & _ & V6).
  destruct (image_history (App.state w) url1 wr) as (H7 & _ & V7).
  assert (Ti : App.timelineImage
                 (App.state (snd (perform (ReviewGenerated (App.state w) review)
                                    wi))) = Some url1).
  { rewrite <- V1. cbn [perform]. clear.
    destruct wi as [s ls]. destruct w as [s0 ls0]. unfold
      App.handleReviewGenerated, App.updateHistoryItem, App.bind,
      App.try_catch, App.setHistoryItems, App.setLiteratureReview, App.modify,
      App.localStorage_setItem, App.ret.
    cbn [App.state]. destruct (App.currentResearchId s0) as [[|c r]|]; cbn;
      try reflexivity.
    destruct (App.accepts ls _); reflexivity. }
  assert (Tr : App.literatureReview
                 (App.state (snd (perform (ImageGenerated (App.state w) url1)
                                    wr))) = Some review).
  { rewrite <- Vr. cbn [perform]. clear.
    destruct wr as [s ls]. destruct w as [s0 ls0]. unfold
      App.handleTimelineGenerated, App.updateHistoryItem, App.bind,
      App.try_catch, App.setHistoryItems, App.setTimelineImage, App.modify,
      App.localStorage_setItem, App.ret.
    cbn [App.state]. destruct (App.currentResearchId s0) as [[|c r]|]; cbn;
      try reflexivity.
    destruct (App.accepts ls _); reflexivity. }
  fold (active wi) in H2, H3. fold (active wr) in H4.
  fold (history wi) in H2, H3. fold (history wr) in H4.
  fold (active w) in H1, Hr, H5, H6, H7. fold (history w) in H1, Hr, H5, H6, H7.
  rewrite A1 in H2, H3. rewrite Ar in H4.
  rewrite H2, H3, H4, H5, H6, H7, H1, Hr.
  split; [|split; [|split; [|split; [|split; [exact Ti|split; [exact V6|
    split; [exact V7 | exact Tr]]]]]]].
  - destruct (active w) as [[|c r]|]; try reflexivity. apply updated_twice.
  - destruct (active w) as [[|c r]|]; try reflexivity. apply updated_commute.
  - destruct (active w) as [[|c r]|]; reflexivity.
  - destruct (active w) as [[|c r]|]; reflexivity.
Qed.

(** An image and a review generated at the same time for session 1: the
    history keeps the result that arrived last and not the other one. *)
Example concurrent_results_overwrite :
  let w := roomy [sample_item 1] (Some (JsString.ofNumber 1)) in
  let url := lit "data:image/png;base64,BBBB" in
  let review := lit "# Review" in
  history (snd (perform (ReviewGenerated (App.state w) review)
                  (snd (perform (ImageGenerated (App.state w) url) w))))
  = [spread (sample_item 1) (Updates.ofLiteratureReview review)]
  /\ history (snd (perform (ImageGenerated (App.state w) url)
                     (snd (perform (ReviewGenerated (App.state w) review) w))))
     = [spread (sample_item 1) (Updates.ofTimelineImage url)].
Proof. cbv zeta. split; vm_compute; reflexivity. Qed.

Lemma updated_In_other (id : jsstring) (updates : Updates.t)
  (h : list HistoryItem.t) (other : HistoryItem.t) :
  In other h -> HistoryItem.id other <> id -> In other (updated id updates h).
Proof.
  intros Hin Hne. unfold updated. apply in_map_iff. exists other.
  split; [|exact Hin].
  apply eqb_neq in Hne. rewrite Hne. reflexivity.
Qed.

Lemma updated_In_target (id : jsstring) (updates : Updates.t)
  (h : list HistoryItem.t) (item : HistoryItem.t) :
  In item h -> HistoryItem.id item = id ->
  In (spread item updates) (updated id updates h).
Proof.
  intros Hin Hid. unfold updated. apply in_map_iff. exists item.
  split; [|exact Hin].
  rewrite (proj2 (eqb_eq _ _) Hid). reflexivity.
Qed.

Lemma only_image_set (url : jsstring) (item : HistoryItem.t) :
  only_timelineImage_set url item (spread item (Updates.ofTimelineImage url)).
Proof.
  unfold only_timelineImage_set, spread, Updates.ofTimelineImage, orElse.
  cbn [HistoryItem.id HistoryItem.timestamp HistoryItem.topic
       HistoryItem.result HistoryItem.timelineImage
       HistoryItem.literatureReview HistoryItem.config
       Updates.id Updates.timestamp Updates.topic Updates.result
       Updates.timelineImage Updates.literatureReview Updates.config].
  repeat split; reflexivity.
Qed.

(** X7.  A session of the history is selected and a timeline image
    arrives; in both cases the selected session is the active one and the
    view shows the image.  When the image was generated after the
    selection, it is attached to the selected session: that session is in
    the history with the image as its only change and every session with
    another id is kept as it was (a session whose id is the empty string
    gets nothing attached).  When the image was being generated for
    another session at the time of the selection, its handler is the one
    of the render before the selection: the image is attached to the
    session that was active then, and the selected session, under which
    the view shows the image, is kept in the history without it. *)
Theorem select_then_image (item : HistoryItem.t) (url : jsstring)
  (w : App.World) :
  In item (history w) ->
  let w1 := snd (perform (Select item) w) in
  let after := snd (perform (ImageGenerated (App.state w1) url) w1) in
  let pending := snd (perform (ImageGenerated (App.state w) url) w1) in
  (active after = Some (HistoryItem.id item)
   /\ App.timelineImage (App.state after) = Some url
   /\ length (history after) = length (history w)
   /\ (HistoryItem.id item <> [] ->
       In (spread item (Updates.ofTimelineImage url)) (history after)
       /\ only_timelineImage_set url item
            (spread item (Updates.ofTimelineImage url))
       /\ forall other, In other (history w) ->
            HistoryItem.id other <> HistoryItem.id item ->
            In other (history after))
   /\ (HistoryItem.id item = [] -> history after = history w))
  /\ (active pending = Some (HistoryItem.id item)
      /\ App.timelineImage (App.state pending) = Some url
      /\ forall previous,
           active w = Some previous -> previous <> [] ->
           HistoryItem.id item <> previous ->
           In item (history pending)
           /\ forall earlier, In earlier (history w) ->
                HistoryItem.id earlier = previous ->
                In (spread earlier (Updates.ofTimelineImage url))
                   (history pending)).
Proof.
  intros Hin. cbv zeta.
  destruct (loadHistoryItem_run item w) as (_ & Eh & _ & Ea & _).
  cbv zeta in Eh, Ea.
  change (perform (Select item) w) with (AppSidebar.loadHistoryItem item w).
  remember (snd (AppSidebar.loadHistoryItem item w)) as w1 eqn:Ew1.
  clear Ew1. split.
  - destruct (image_history (App.state w1) url w1) as (Hh & Ha & Hv).
    remember (snd (perform (ImageGenerated (App.state w1) url) w1)) as w2
      eqn:Ew2.
    clear Ew2. fold (active w1) in Hh. fold (history w1) in Hh.
    rewrite Ea in Hh, Ha. rewrite Eh in Hh. rewrite Hh, Ha.
    split; [reflexivity|]. split; [exact Hv|].
    destruct (HistoryItem.id item) as [|c r] eqn:Hid.
    + split; [reflexivity|]. split; [intros Hne; contradiction | reflexivity].
    + split; [apply updated_length|].
      split; [|intros Hnil; discriminate Hnil].
      intros _. split; [|split].
      * apply updated_In_target; assumption.
      * apply only_image_set.
      * intros other Ho Hne. apply updated_In_other; assumption.
  - destruct (image_history (App.state w) url w1) as (Hh & Ha & Hv).
    remember (snd (perform (ImageGenerated (App.state w) url) w1)) as w2
      eqn:Ew2.
    clear Ew2. fold (active w) in Hh. fold (history w) in Hh.
    rewrite Ea in Ha. split; [exact Ha|]. split; [exact Hv|].
    intros previous Hprev Hne Hother. rewrite Hprev in Hh.
    destruct previous as [|c r]; [contradiction|]. rewrite Hh. split.
    + apply updated_In_other; assumption.
    + intros earlier He Hid. apply updated_In_target; assumption.
Qed.

Lemma select_then_image_witness :
  let w := roomy [sample_item 2; sample_item 1] (Some (JsString.ofNumber 2)) in
  let url := lit "data:image/png;base64,BBBB" in
  let w1 := snd (perform (Select (sample_item 1)) w) in
  In (sample_item 1) (history w)
  /\ In (spread (sample_item 1) (Updates.ofTimelineImage url))
        (history (snd (perform (ImageGenerated (App.state w1) url) w1)))
  /\ In (sample_item 1)
        (history (snd (perform (ImageGenerated (App.state w) url) w1)))
  /\ In (spread (sample_item 2) (Updates.ofTimelineImage url))
        (history (snd (perform (ImageGenerated (App.state w) url) w1))).
Proof.
  cbv zeta.
  assert (H : In (sample_item 1)
                (history (roomy [sample_item 2; sample_item 1]
                                (Some (JsString.ofNumber 2)))))
    by (right; left; reflexivity).
  split; [exact H|].
  destruct (select_then_image (sample_item 1)
              (lit "data:image/png;base64,BBBB")
              (roomy [sample_item 2; sample_item 1]
                     (Some (JsString.ofNumber 2))) H)
    as ((_ & _ & _ & Hattach & _) & _ & _ & Hpending).
  assert (Hid : HistoryItem.id (sample_item 1) <> [])
    by (vm_compute; discriminate).
  split; [exact (proj1 (Hattach Hid))|].
  destruct (Hpending (JsString.ofNumber 2)) as [Hkept Hprevious].
  - reflexivity.
  - vm_compute. discriminate.
  - vm_compute. discriminate.
  - split; [exact Hkept|].
    apply Hprevious; [left; reflexivity | reflexivity].
Defined.

(** X8.  Clearing the history, once confirmed, empties the list and removes
    the persisted blob but leaves the view as it was, active id included;
    an image generated afterwards is shown and stored nowhere.  A clearing
    that the user refuses changes nothing. *)
Theorem clear_then_image (url : jsstring) (w : App.World) :
  let w1 := snd (perform (Clear true) w) in
  let w2 := snd (perform (ImageGenerated (App.state w1) url) w1) in
  history w1 = []
  /\ App.stored (App.localStorage w1) = None
  /\ active w1 = active w
  /\ App.result (App.state w1) = App.result (App.state w)
  /\ App.timelineImage (App.state w1) = App.timelineImage (App.state w)
  /\ App.literatureReview (App.state w1) = App.literatureReview (App.state w)
  /\ history w2 = []
  /\ App.timelineImage (App.state w2) = Some url
  /\ perform (Clear false) w = (Return tt, w).
Proof.
  cbv zeta.
  destruct (clearHistory_run true w) as (_ & Eh & Es & Ea & Er & Et & El).
  cbv zeta in Eh, Es, Ea, Er, Et, El.
  change (perform (Clear true) w) with (AppSidebar.clearHistory true w).
  remember (snd (AppSidebar.clearHistory true w)) as w1 eqn:Ew1. clear Ew1.
  split; [exact Eh|]. split; [exact Es|]. split; [exact Ea|].
  split; [exact Er|]. split; [exact Et|]. split; [exact El|].
  destruct (image_history (App.state w1) url w1) as (Hh & _ & Hv).
  fold (active w1) in Hh. fold (history w1) in Hh.
  split; [|split].
  - rewrite Hh, Eh. destruct (active w1) as [[|c r]|]; reflexivity.
  - exact Hv.
  - reflexivity.
Qed.

(** X9.  A handler of an earlier render writes the history of that render.
    When a session is deleted while an image is being generated, the
    handler that the image stage then calls, created before the deletion,
    writes the earlier list with the image attached: every session of
    that list with another id than the active one is in the history again,
    the deleted one included. *)
Theorem stale_handler_restores (idA idB url : jsstring) (w0 : App.World) :
  active w0 = Some idA -> idA <> [] ->
  let w1 := snd (perform (Delete idB) w0) in
  let w2 := snd (App.handleTimelineGenerated (App.state w0) url w1) in
  history w2 = updated idA (Updates.ofTimelineImage url) (history w0)
  /\ forall item, In item (history w0) -> HistoryItem.id item <> idA ->
       In item (history w2).
Proof.
  intros Hact Hne. cbv zeta.
  destruct (handleTimelineGenerated_run (App.state w0) url
              (snd (perform (Delete idB) w0))) as (_ & Eh & _).
  cbv zeta in Eh. unfold active in Hact. rewrite Hact in Eh.
  destruct idA as [|c r]; [contradiction|].
  rewrite Eh. split; [reflexivity|].
  intros item Hin Hid. apply updated_In_other; assumption.
Qed.

Lemma stale_handler_restores_witness :
  let w0 := roomy [sample_item 2; sample_item 1] (Some (JsString.ofNumber 1)) in
  let w1 := snd (perform (Delete (JsString.ofNumber 2)) w0) in
  let w2 := snd (App.handleTimelineGenerated (App.state w0)
                   (lit "data:image/png;base64,BBBB") w1) in
  history w1 = [sample_item 1] /\ In (sample_item 2) (history w2).
Proof.
  cbv zeta. split; [vm_compute; reflexivity|].
  destruct (stale_handler_restores (JsString.ofNumber 1) (JsString.ofNumber 2)
              (lit "data:image/png;base64,BBBB")
              (roomy [sample_item 2; sample_item 1]
                     (Some (JsString.ofNumber 1)))) as [_ H].
  - reflexivity.
  - vm_compute. discriminate.
  - apply H.
    + left. reflexivity.
    + vm_compute. discriminate.
Defined.

(** * The service: what the helper and the stages never do *)

Lemma trimStart_idem (s : jsstring) :
  JsString.trimStart (JsString.trimStart s) = JsString.trimStart s.
Proof.
  induction s as [|c r IH]; simpl; [reflexivity|].
  destruct (JsString.isWhiteSpace c) eqn:E; [exact IH|].
  simpl. rewrite E. reflexivity.
Qed.

Lemma trimStart_app (a b : jsstring) :
  JsString.trimStart (a ++ b)
  = match JsString.trimStart a with
    | [] => JsString.trimStart b
    | c :: r => (c :: r) ++ b
    end.
Proof.
  induction a as [|x a IH]; simpl; [destruct (JsString.trimStart b); reflexivity|].
  destruct (JsString.isWhiteSpace x); [exact IH | reflexivity].
Qed.

(** What [trimStart] keeps begins with a unit that is not white space. *)
Lemma trimStart_head (s : jsstring) (c : code_unit) (r : jsstring) :
  JsString.trimStart s = c :: r -> JsString.isWhiteSpace c = false.
Proof.
  induction s as [|x s IH]; simpl; [discriminate|].
  destruct (JsString.isWhiteSpace x) eqn:E; [exact IH|].
  intros H. injection H as <- _. exact E.
Qed.

Lemma trimEnd_cons (c : code_unit) (r : jsstring) :
  JsString.isWhiteSpace c = false ->
  JsString.trimEnd (c :: r) = c :: JsString.trimEnd r.
Proof.
  intros Hc. unfold JsString.trimEnd. simpl rev. rewrite trimStart_app.
  destruct (JsString.trimStart (rev r)) as [|x l] eqn:E.
  - simpl. rewrite Hc. reflexivity.
  - rewrite rev_app_distr. reflexivity.
Qed.

Lemma trimEnd_idem (t : jsstring) :
  JsString.trimEnd (JsString.trimEnd t) = JsString.trimEnd t.
Proof.
  unfold JsString.trimEnd. rewrite rev_involutive, trimStart_idem.
  reflexivity.
Qed.

Lemma trim_idem (s : jsstring) :
  JsString.trim (JsString.trim s) = JsString.trim s.
Proof.
  unfold JsString.trim.
  destruct (JsString.trimStart s) as [|c r] eqn:E.
  - reflexivity.
  - pose proof (trimStart_head s c r E) as Hc.
    assert (H1 : JsString.trimStart (JsString.trimEnd (c :: r))
                 = JsString.trimEnd (c :: r)).
    { rewrite (trimEnd_cons c r Hc). simpl. rewrite Hc. reflexivity. }
    rewrite H1. apply trimEnd_idem.
Qed.

(** X10.  [cleanJson] only cuts: what it returns is a contiguous part of
    the text it was given; and it is idempotent: cleaning a cleaned text
    changes nothing. *)
Theorem cleanJson_cuts (text : jsstring) :
  JsString.includes text (GeminiService.cleanJson text)
  /\ length (GeminiService.cleanJson text) <= length text
  /\ GeminiService.cleanJson (GeminiService.cleanJson text)
     = GeminiService.cleanJson text.
Proof.
  assert (Hinc : JsString.includes text (GeminiService.cleanJson text)
                 /\ GeminiService.cleanJson (GeminiService.cleanJson text)
                    = GeminiService.cleanJson text).
  { destruct (span_or_fallback text) as [Hs|Hf].
    - destruct (has_span_bounds text Hs) as (pre & mid & post & E & Hpre & Hpost).
      subst text. rewrite (cleanJson_span pre mid post Hpre Hpost).
      split.
      + exists pre, post. simpl. rewrite <- app_assoc. reflexivity.
      + change (lbrace :: mid ++ [rbrace])
          with ([] ++ lbrace :: mid ++ rbrace :: []).
        apply cleanJson_span; intros [].
    - apply no_span_cases in Hf.
      rewrite (cleanJson_fallback text Hf). split.
      + destruct (trim_infix text) as (a & b & E). exists a, b. exact E.
      + rewrite cleanJson_fallback; [apply trim_idem|].
        intros Hs. apply Hf.
        destruct (trim_infix text) as (a & b & E). rewrite E.
        apply has_span_infix. exact Hs. }
  destruct Hinc as [Hinc Hidem]. split; [exact Hinc|]. split; [|exact Hidem].
  destruct Hinc as (pre & post & E). rewrite E at 2.
  rewrite !length_app. lia.
Qed.

(** The request [generateLiteratureReview] sends. *)
Lemma review_cases (env : GeminiService.Env) (result : ResearchResult.t)
  (language citationStyle : jsstring) :
  exists request,
    GeminiService.contents request
    = GeminiService.generateLiteratureReview_prompt result
        (GeminiService.languageNames language)
        (GeminiService.styleInstruction citationStyle)
        (GeminiService.articleList result)
    /\ GeminiService.generateLiteratureReview env result language citationStyle
       = if JsString.truthy (GeminiService.API_KEY env) then
           match GeminiService.generateContent env request with
           | Throw e => Throw e
           | Return response =>
               match GeminiService.text response with
               | Some (c :: r) => Return (c :: r)
               | Some [] | None =>
                   Return (lit "Failed to generate literature review.")
               end
           end
         else Throw (Error (lit "API Key is missing")).
Proof.
  eexists. split; [|unfold GeminiService.generateLiteratureReview;
    destruct (JsString.truthy (GeminiService.API_KEY env)); reflexivity].
  reflexivity.
Qed.

(** X11.  The literature-review stage never returns the empty string, and
    it fails in two cases only: the credential is missing, or the
    transport rejects the request. *)
Theorem review_never_empty (env : GeminiService.Env)
  (result : ResearchResult.t) (language citationStyle : jsstring) :
  (forall review,
      GeminiService.generateLiteratureReview env result language citationStyle
      = Return review -> review <> [])
  /\ (forall e,
        GeminiService.generateLiteratureReview env result language
          citationStyle = Throw e ->
        (JsString.truthy (GeminiService.API_KEY env) = false
         /\ e = Error (lit "API Key is missing"))
        \/ exists request,
             GeminiService.contents request
             = GeminiService.generateLiteratureReview_prompt result
                 (GeminiService.languageNames language)
                 (GeminiService.styleInstruction citationStyle)
                 (GeminiService.articleList result)
             /\ GeminiService.generateContent env request = Throw e).
Proof.
  destruct (review_cases env result language citationStyle)
    as (request & Hreq & E).
  rewrite E. clear E.
  destruct (JsString.truthy (GeminiService.API_KEY env)).
  - destruct (GeminiService.generateContent env request) as [response|e0] eqn:Hg.
    + split.
      * intros review H.
        destruct (GeminiService.text response) as [[|c r]|];
          injection H as <-; discriminate.
      * intros e H.
        destruct (GeminiService.text response) as [[|c r]|]; discriminate H.
    + split; [intros review H; discriminate H|].
      intros e H. injection H as <-. right. exists request.
      split; [exact Hreq | exact Hg].
  - split; [intros review H; discriminate H|].
    intros e H. injection H as <-. left. split; reflexivity.
Qed.

Lemma review_never_empty_witness :
  GeminiService.generateLiteratureReview (env_answering (Some []))
    sample_result (lit "en") (lit "apa")
  = Return (lit "Failed to generate literature review.")
  /\ lit "Failed to generate literature review." <> [].
Proof.
  assert (E : GeminiService.generateLiteratureReview (env_answering (Some []))
                sample_result (lit "en") (lit "apa")
              = Return (lit "Failed to generate literature review."))
    by (vm_compute; reflexivity).
  split; [exact E|].
  exact (proj1 (review_never_empty (env_answering (Some [])) sample_result
                  (lit "en") (lit "apa")) _ E).
Defined.

(** X12.  The source data of the review prompt lists the articles in their
    order, one entry per article, the entry of the article at position k
    carrying the index k + 1 in brackets and its fields.  An article
    without journal reads "Journal: undefined" there, where the chat
    context reads "Journal: Unknown". *)
Theorem articleList_enumerates (result : ResearchResult.t) :
  exists entries,
    GeminiService.articleList result = JsString.join [10%N] entries
    /\ length entries = length (ResearchResult.articles result)
    /\ forall k a, nth_error (ResearchResult.articles result) k = Some a ->
         nth_error entries k
         = Some (lit "
    [" ++ JsString.ofNumber (N.of_nat (k + 1)) ++ lit "] Title: "
                 ++ Article.title a ++ lit "
    Authors: " ++ Article.authors a ++ lit "
    Journal: " ++ JsString.ofOptional (Article.journal a) ++ lit "
    Year: " ++ Article.publication_date a ++ lit "
    Summary: " ++ Article.ai_summary a ++ lit "
    Significance: " ++ Article.significance a ++ lit "
  ")
         /\ (Article.journal a = None ->
             JsString.includes (GeminiService.articleList_entry a k)
               (lit "Journal: undefined")
             /\ JsString.includes (GeminiService.contextString_entry a k)
                  (lit "Journal: Unknown")).
Proof.
  exists (mapi GeminiService.articleList_entry (ResearchResult.articles result)).
  split; [reflexivity|]. split; [apply mapi_from_length|].
  intros k a Hk. split.
  - unfold mapi.
    rewrite (mapi_from_nth _ _ GeminiService.articleList_entry _ 0 k a Hk).
    unfold GeminiService.articleList_entry. cbn [concat Nat.add].
    rewrite app_nil_r. reflexivity.
  - intros Hj. split.
    + unfold GeminiService.articleList_entry. rewrite Hj.
      cbn [concat JsString.ofOptional].
      change (lit "Journal: undefined")
        with (lit "Journal: " ++ lit "undefined" ++ []).
      find_mid (lit "Journal: ") (@nil code_unit).
    + unfold GeminiService.contextString_entry, Article.journal_or_Unknown.
      rewrite Hj. cbn [concat].
      change (lit "Journal: Unknown")
        with (lit "Journal: " ++ lit "Unknown" ++ []).
      find_mid (lit "Journal: ") (@nil code_unit).
Qed.

Lemma articleList_enumerates_witness :
  JsString.includes (GeminiService.articleList_entry (sample_article 2) 1)
    (lit "Journal: undefined").
Proof.
  destruct (articleList_enumerates sample_result) as (entries & _ & _ & H).
  exact (proj1 (proj2 (H 1 (sample_article 2) eq_refl) eq_refl)).
Defined.

(** * The timeline image stage *)

Lemma firstInline_first (pre post : list TimelineImage.Part)
  (part : TimelineImage.Part) (blob : TimelineImage.Blob) :
  (forall p, In p pre -> TimelineImage.inlineData p = None) ->
  TimelineImage.inlineData part = Some blob ->
  TimelineImage.firstInline (pre ++ part :: post) = Some blob.
Proof.
  intros Hpre Hpart. induction pre as [|p pre IH]; simpl.
  - rewrite Hpart. reflexivity.
  - rewrite (Hpre p (or_introl eq_refl)). apply IH.
    intros q Hq. apply Hpre. right. exact Hq.
Qed.

Lemma firstInline_some (ps : list TimelineImage.Part)
  (blob : TimelineImage.Blob) :
  TimelineImage.firstInline ps = Some blob ->
  exists pre part post,
    ps = pre ++ part :: post
    /\ (forall p, In p pre -> TimelineImage.inlineData p = None)
    /\ TimelineImage.inlineData part = Some blob.
Proof.
  induction ps as [|p ps IH]; simpl; [discriminate|].
  destruct (TimelineImage.inlineData p) as [b|] eqn:E.
  - intros H. injection H as ->. exists [], p, ps.
    split; [reflexivity|]. split; [intros q []|exact E].
  - intros H. destruct (IH H) as (pre & part & post & -> & Hpre & Hpart).
    exists (p :: pre), part, post. split; [reflexivity|]. split; [|exact Hpart].
    intros q [<-|Hq]; [exact E | exact (Hpre q Hq)].
Qed.

(** X13.  The image stage returns exactly when the parts of the first
    candidate hold inline data, and what it returns is the data URL of the
    first such part: parts before it carry no inline data, parts after it
    and other candidates are not looked at. *)
Theorem image_is_first_inline (env : TimelineImage.Env)
  (visualPrompt size language url : jsstring) :
  TimelineImage.generateTimelineImage env visualPrompt size language
  = TimelineImage.Done url
  <-> exists response first others c pre part post blob,
        TimelineImage.ensureKey env = TimelineImage.Done tt
        /\ TimelineImage.generateContent env (TimelineImage.API_KEY env)
             (image_request visualPrompt size language)
           = TimelineImage.Done response
        /\ TimelineImage.candidates response = Some (first :: others)
        /\ TimelineImage.content first = Some c
        /\ TimelineImage.parts c = Some (pre ++ part :: post)
        /\ (forall p, In p pre -> TimelineImage.inlineData p = None)
        /\ TimelineImage.inlineData part = Some blob
        /\ url = lit "data:" ++ JsString.ofOptional (TimelineImage.mimeType blob)
                 ++ lit ";base64,"
                 ++ JsString.ofOptional (TimelineImage.data blob).
Proof.
  unfold TimelineImage.generateTimelineImage.
  change {| TimelineImage.model := lit "gemini-3-pro-image-preview";
            TimelineImage.text :=
              TimelineImage.prompt (GeminiService.languageNames language)
                visualPrompt;
            TimelineImage.imageSize := size;
            TimelineImage.aspectRatio := lit "16:9" |}
    with (image_request visualPrompt size language).
  split.
  - destruct (TimelineImage.ensureKey env) as [[]|t]; [|discriminate].
    destruct (TimelineImage.generateContent env (TimelineImage.API_KEY env)
                (image_request visualPrompt size language))
      as [response|t] eqn:Hg; [|discriminate].
    unfold TimelineImage.readImage.
    destruct (TimelineImage.candidates response) as [[|first others]|] eqn:Hc;
      try discriminate.
    destruct (TimelineImage.content first) as [c|] eqn:Hct; [|discriminate].
    destruct (TimelineImage.parts c) as [ps|] eqn:Hp; [|discriminate].
    destruct (TimelineImage.firstInline ps) as [blob|] eqn:Hf; [|discriminate].
    intros H. injection H as <-.
    destruct (firstInline_some ps blob Hf) as (pre & part & post & -> & Hpre & Hpart).
    exists response, first, others, c, pre, part, post, blob.
    repeat (split; [first [reflexivity | assumption]|]).
    unfold TimelineImage.dataUrl. cbn [concat]. rewrite app_nil_r.
    reflexivity.
  - intros (response & first & others & c & pre & part & post & blob
            & Hk & Hg & Hc & Hct & Hp & Hpre & Hpart & ->).
    rewrite Hk, Hg. unfold TimelineImage.readImage.
    rewrite Hc, Hct, Hp, (firstInline_first pre post part blob Hpre Hpart).
    unfold TimelineImage.dataUrl. cbn [concat]. rewrite app_nil_r.
    reflexivity.
Qed.

Lemma image_is_first_inline_witness :
  TimelineImage.generateTimelineImage
    (image_env (response_with [text_part; png_part (lit "AAAA");
                               png_part (lit "BBBB")]))
    (lit "A timeline of CRISPR.") (lit "2K") (lit "en")
  = TimelineImage.Done (lit "data:image/png;base64,AAAA").
Proof.
  apply (proj2 (image_is_first_inline _ _ _ _ _)).
  exists (response_with [text_part; png_part (lit "AAAA"); png_part (lit "BBBB")]).
  eexists _, _, _, [text_part], (png_part (lit "AAAA")), [png_part (lit "BBBB")], _.
  repeat (split; [reflexivity|]). split.
  - intros p [<-|[]]. reflexivity.
  - split; reflexivity.
Defined.

(** The scan of a response, case by case. *)
Lemma readImage_failures (response : TimelineImage.Response) :
  (TimelineImage.readImage response = TimelineImage.Raised TimelineImage.TypeError
   <-> TimelineImage.candidates response = Some []
       \/ exists first others,
            TimelineImage.candidates response = Some (first :: others)
            /\ TimelineImage.content first = None)
  /\ (TimelineImage.readImage response
      = TimelineImage.Raised TimelineImage.noImage
      <-> TimelineImage.candidates response = None
          \/ exists first others c,
               TimelineImage.candidates response = Some (first :: others)
               /\ TimelineImage.content first = Some c
               /\ (TimelineImage.parts c = None
                   \/ exists ps, TimelineImage.parts c = Some ps
                        /\ forall p, In p ps ->
                             TimelineImage.inlineData p = None))
  /\ (forall t, TimelineImage.readImage response = TimelineImage.Raised t ->
        t = TimelineImage.TypeError \/ t = TimelineImage.noImage).
Proof.
  unfold TimelineImage.readImage.
  destruct (TimelineImage.candidates response) as [[|first others]|].
  - split; [|split].
    + split; [intros _; left; reflexivity | reflexivity].
    + split; [discriminate|].
      intros [H|(f & o & c & H & _)]; discriminate H.
    + intros t H. injection H as <-. left. reflexivity.
  - destruct (TimelineImage.content first) as [c|] eqn:Hct.
    + destruct (TimelineImage.parts c) as [ps|] eqn:Hp.
      * destruct (TimelineImage.firstInline ps) as [blob|] eqn:Hf.
        -- split; [|split].
           ++ split; [discriminate|].
              intros [H|(f & o & H & Hn)]; [discriminate H|].
              injection H as <- <-. rewrite Hct in Hn. discriminate Hn.
           ++ split; [discriminate|].
              intros [H|(f & o & c' & H & Hc' & Hcase)]; [discriminate H|].
              injection H as <- <-. rewrite Hct in Hc'. injection Hc' as <-.
              destruct Hcase as [Hn|(ps' & Hps & Hall)].
              ** rewrite Hp in Hn. discriminate Hn.
              ** rewrite Hp in Hps. injection Hps as <-.
                 destruct (firstInline_some ps blob Hf)
                   as (pre & part & post & -> & _ & Hpart).
                 rewrite (Hall part) in Hpart; [discriminate Hpart|].
                 apply in_or_app. right. left. reflexivity.
           ++ intros t H. discriminate H.
        -- split; [|split].
           ++ split; [discriminate|].
              intros [H|(f & o & H & Hn)]; [discriminate H|].
              injection H as <- <-. rewrite Hct in Hn. discriminate Hn.
           ++ split; [|reflexivity].
              intros _. right. exists first, others, c.
              split; [reflexivity|]. split; [exact Hct|]. right.
              exists ps. split; [exact Hp|].
              clear Hp. induction ps as [|p ps IH]; [intros q []|].
              simpl in Hf. destruct (TimelineImage.inlineData p) eqn:E;
                [discriminate Hf|].
              intros q [<-|Hq]; [exact E | exact (IH Hf q Hq)].
           ++ intros t H. injection H as <-. right. reflexivity.
      * split; [|split].
        -- split; [discriminate|].
           intros [H|(f & o & H & Hn)]; [discriminate H|].
           injection H as <- <-. rewrite Hct in Hn. discriminate Hn.
        -- split; [|reflexivity].
           intros _. right. exists first, others, c.
           split; [reflexivity|]. split; [exact Hct|]. left. exact Hp.
        -- intros t H. injection H as <-. right. reflexivity.
    + split; [|split].
      * split; [|reflexivity].
        intros _. right. exists first, others. split; [reflexivity | exact Hct].
      * split; [discriminate|].
        intros [H|(f & o & c & H & Hc & _)]; [discriminate H|].
        injection H as <- <-. rewrite Hct in Hc. discriminate Hc.
      * intros t H. injection H as <-. left. reflexivity.
  - split; [|split].
    + split; [discriminate|].
      intros [H|(f & o & H & _)]; discriminate H.
    + split; [|reflexivity]. intros _. left. reflexivity.
    + intros t H. injection H as <-. right. reflexivity.
Qed.

Lemma generateTimelineImage_answered (env : TimelineImage.Env)
  (visualPrompt size language : jsstring) (response : TimelineImage.Response) :
  TimelineImage.ensureKey env = TimelineImage.Done tt ->
  TimelineImage.generateContent env (TimelineImage.API_KEY env)
    (image_request visualPrompt size language) = TimelineImage.Done response ->
  TimelineImage.generateTimelineImage env visualPrompt size language
  = TimelineImage.readImage response.
Proof.
  intros Hk Hg. unfold TimelineImage.generateTimelineImage. rewrite Hk.
  change {| TimelineImage.model := lit "gemini-3-pro-image-preview";
            TimelineImage.text :=
              TimelineImage.prompt (GeminiService.languageNames language)
                visualPrompt;
            TimelineImage.imageSize := size;
            TimelineImage.aspectRatio := lit "16:9" |}
    with (image_request visualPrompt size language).
  rewrite Hg. reflexivity.
Qed.

(** X14.  How the image stage fails on a response.  A response without
    candidates, or whose first candidate has no parts or no part with
    inline data, gives the error "No image data found in response"; a
    response whose list of candidates is empty, or whose first candidate
    has no content, gives a [TypeError] instead.  Nothing else is thrown
    once the transport has answered. *)
Theorem image_failures (env : TimelineImage.Env)
  (visualPrompt size language : jsstring) (response : TimelineImage.Response) :
  TimelineImage.ensureKey env = TimelineImage.Done tt ->
  TimelineImage.generateContent env (TimelineImage.API_KEY env)
    (image_request visualPrompt size language) = TimelineImage.Done response ->
  let stage :=
    TimelineImage.generateTimelineImage env visualPrompt size language in
  (stage = TimelineImage.Raised TimelineImage.TypeError
   <-> TimelineImage.candidates response = Some []
       \/ exists first others,
            TimelineImage.candidates response = Some (first :: others)
            /\ TimelineImage.content first = None)
  /\ (stage = TimelineImage.Raised TimelineImage.noImage
      <-> TimelineImage.candidates response = None
          \/ exists first others c,
               TimelineImage.candidates response = Some (first :: others)
               /\ TimelineImage.content first = Some c
               /\ (TimelineImage.parts c = None
                   \/ exists ps, TimelineImage.parts c = Some ps
                        /\ forall p, In p ps ->
                             TimelineImage.inlineData p = None))
  /\ (forall t, stage = TimelineImage.Raised t ->
        t = TimelineImage.TypeError \/ t = TimelineImage.noImage).
Proof.
  intros Hk Hg. cbv zeta.
  rewrite (generateTimelineImage_answered env visualPrompt size language
             response Hk Hg).
  exact (readImage_failures response).
Qed.

Lemma image_failures_witness :
  TimelineImage.generateTimelineImage
    (image_env {| TimelineImage.candidates := Some [] |})
    (lit "A timeline of CRISPR.") (lit "2K") (lit "en")
  = TimelineImage.Raised TimelineImage.TypeError.
Proof.
  apply (proj2 (proj1 (image_failures
           (image_env {| TimelineImage.candidates := Some [] |})
           (lit "A timeline of CRISPR.") (lit "2K") (lit "en")
           {| TimelineImage.candidates := Some [] |} eq_refl eq_refl))).
  left. reflexivity.
Defined.

(** * The export *)

Ltac bool_to_prop :=
  repeat rewrite ?orb_true_iff, ?andb_true_iff, ?orb_false_iff,
    ?andb_false_iff, ?N.leb_le, ?N.leb_gt, ?N.eqb_eq, ?N.eqb_neq in *.

(** One unit of the topic, after the replacement and the lower-casing. *)
Lemma slug_unit (c : code_unit) :
  isSlugUnit
    (if N.leb 65 (if JsRegExp.isAsciiAlnum c then c else 45%N)
        && N.leb (if JsRegExp.isAsciiAlnum c then c else 45%N) 90
     then ((if JsRegExp.isAsciiAlnum c then c else 45%N) + 32)%N
     else (if JsRegExp.isAsciiAlnum c then c else 45%N)) = true.
Proof.
  destruct (JsRegExp.isAsciiAlnum c) eqn:E; [|reflexivity].
  unfold JsRegExp.isAsciiAlnum in E.
  destruct (N.leb 65 c && N.leb c 90) eqn:U; unfold isSlugUnit;
    bool_to_prop; lia.
Qed.

Lemma slug_fixed (c : code_unit) :
  isSlugUnit c = true ->
  (if N.leb 65 (if JsRegExp.isAsciiAlnum c then c else 45%N)
      && N.leb (if JsRegExp.isAsciiAlnum c then c else 45%N) 90
   then ((if JsRegExp.isAsciiAlnum c then c else 45%N) + 32)%N
   else (if JsRegExp.isAsciiAlnum c then c else 45%N)) = c.
Proof.
  intros H. unfold isSlugUnit in H.
  destruct (JsRegExp.isAsciiAlnum c) eqn:E.
  - destruct (N.leb 65 c && N.leb c 90) eqn:U; [|reflexivity].
    bool_to_prop. lia.
  - unfold JsRegExp.isAsciiAlnum in E. cbn.
    bool_to_prop. lia.
Qed.

(** X15.  The name of the exported file is "DeepResearch-", a slug and
    ".md", where the slug has one unit per unit of the topic and is made
    of lower-case ASCII letters, digits and hyphens only; a topic that is
    already such a slug is kept as it is. *)
Theorem download_name_safe (result : ResearchResult.t) :
  exists slug,
    AppExport.download_name result = lit "DeepResearch-" ++ slug ++ lit ".md"
    /\ length slug = length (ResearchResult.topic result)
    /\ Forall (fun c => isSlugUnit c = true) slug
    /\ (Forall (fun c => isSlugUnit c = true) (ResearchResult.topic result) ->
        slug = ResearchResult.topic result).
Proof.
  exists (JsRegExp.toLowerCase_ascii
            (JsRegExp.replace_nonalnum (ResearchResult.topic result))).
  split; [|split; [|split]].
  - unfold AppExport.download_name. cbn [concat]. rewrite app_nil_r.
    reflexivity.
  - unfold JsRegExp.toLowerCase_ascii, JsRegExp.replace_nonalnum.
    rewrite !length_map. reflexivity.
  - unfold JsRegExp.toLowerCase_ascii, JsRegExp.replace_nonalnum.
    rewrite map_map. apply Forall_forall. intros c Hin.
    apply in_map_iff in Hin. destruct Hin as (x & <- & _). apply slug_unit.
  - intros Hall. unfold JsRegExp.toLowerCase_ascii, JsRegExp.replace_nonalnum.
    rewrite map_map.
    rewrite <- (map_id (ResearchResult.topic result)) at 2.
    apply map_ext_in. intros c Hin. apply slug_fixed.
    rewrite Forall_forall in Hall. exact (Hall c Hin).
Qed.

Lemma download_name_safe_witness :
  exists slug,
    AppExport.download_name export_result
    = lit "DeepResearch-" ++ slug ++ lit ".md"
    /\ length slug = 11
    /\ Forall (fun c => isSlugUnit c = true) slug.
Proof.
  destruct (download_name_safe export_result) as (slug & E & Hlen & Hall & _).
  exists slug. split; [exact E|]. split; [exact Hlen | exact Hall].
Defined.

Example download_name_example :
  AppExport.download_name export_result = lit "DeepResearch-crispr-cas9.md".
Proof. vm_compute. reflexivity. Qed.

Lemma lines_nonempty (s : jsstring) : lines s <> [].
Proof.
  destruct s as [|c r]; simpl; [discriminate|].
  destruct (N.eqb c 10); [discriminate|].
  destruct (lines r); discriminate.
Qed.

Lemma join_cons_app (sep a b : jsstring) (rest : list jsstring) :
  JsString.join sep ((a ++ b) :: rest) = a ++ JsString.join sep (b :: rest).
Proof.
  destruct rest as [|x rest]; simpl; [reflexivity|].
  rewrite <- app_assoc. reflexivity.
Qed.

(** The replacement puts the mark at the head of every line but the
    first. *)
Lemma replace_newlines_lines (q s : jsstring) :
  JsRegExp.replace_newlines ([10%N] ++ q) s
  = match lines s with
    | [] => []
    | l :: ls => JsString.join [10%N] (l :: map (app q) ls)
    end.
Proof.
  induction s as [|c r IH]; [reflexivity|].
  cbn [JsRegExp.replace_newlines lines].
  destruct (N.eqb c 10).
  - rewrite IH. pose proof (lines_nonempty r) as Hne.
    destruct (lines r) as [|l ls]; [contradiction|].
    change (JsString.join [10%N] ([] :: map (app q) (l :: ls)))
      with ([10%N] ++ JsString.join [10%N] ((q ++ l) :: map (app q) ls)).
    rewrite (join_cons_app [10%N] q l), <- app_assoc. reflexivity.
  - rewrite IH. pose proof (lines_nonempty r) as Hne.
    destruct (lines r) as [|l ls]; [contradiction|].
    change (c :: l) with ([c] ++ l). rewrite join_cons_app. reflexivity.
Qed.

Lemma lines_count (s : jsstring) :
  length (lines s) = S (count_occ N.eq_dec s 10%N).
Proof.
  induction s as [|c r IH]; [reflexivity|].
  cbn [lines count_occ].
  destruct (N.eqb_spec c 10) as [->|Hne].
  - destruct (N.eq_dec 10 10) as [_|H]; [|contradiction].
    cbn [length]. rewrite IH. reflexivity.
  - destruct (N.eq_dec c 10) as [H|_]; [contradiction|].
    pose proof (lines_nonempty r) as Hn.
    destruct (lines r) as [|l ls]; [contradiction|]. exact IH.
Qed.

Lemma append_article_app (content : jsstring) (article : Article.t)
  (index : nat) :
  AppExport.append_article content article index
  = content ++ article_section article index.
Proof.
  unfold article_section, AppExport.append_article. cbv zeta.
  destruct (Article.publication_date article) as [|d ds];
    destruct (Article.url article) as [[|u us]|];
    rewrite <- ?app_assoc; reflexivity.
Qed.

Lemma forEach_from_sections (l : list Article.t) (index : nat)
  (content : jsstring) :
  AppExport.forEach_from AppExport.append_article l index content
  = content ++ concat (mapi_from article_section l index).
Proof.
  revert index content; induction l as [|a l IH]; intros index content;
    cbn [AppExport.forEach_from mapi_from concat].
  - rewrite app_nil_r. reflexivity.
  - rewrite IH, append_article_app, <- app_assoc. reflexivity.
Qed.

Lemma includes_app_l (s t x : jsstring) :
  JsString.includes s x -> JsString.includes (s ++ t) x.
Proof.
  intros (pre & post & ->). exists pre, (post ++ t).
  rewrite <- !app_assoc. reflexivity.
Qed.

Lemma includes_refl_mid (a x b : jsstring) : JsString.includes (a ++ x ++ b) x.
Proof. exists a, b. reflexivity. Qed.

(** The text of the export up to the articles, and then the articles. *)
Lemma export_shape (date : jsstring) (result : ResearchResult.t)
  (timelineImage literatureReview : option jsstring) :
  exists head middle,
    AppExport.handleExportMarkdown date (Some result) timelineImage
      literatureReview
    = Some (AppExport.download_name result,
            (head
             ++ (lit "> "
                 ++ JsRegExp.replace_newlines ([10%N] ++ lit "> ")
                      (ResearchResult.summary result))
             ++ middle)
            ++ concat (mapi article_section (ResearchResult.articles result)))
    /\ JsString.includes head (ResearchResult.topic result)
    /\ JsString.includes head date.
Proof.
  unfold AppExport.handleExportMarkdown. cbv zeta.
  rewrite forEach_from_sections. unfold mapi, AppExport.nl.
  exists (lit "# DeepResearch: " ++ ResearchResult.topic result ++ [10%N]
          ++ lit "*Generated by Gemini 3 Pro on " ++ date ++ lit "*"
          ++ [10%N] ++ [10%N] ++ lit "## Development Summary" ++ [10%N]).
  exists ([10%N] ++ [10%N]
          ++ match timelineImage with
             | Some (c :: r) =>
                 lit "## Visual Timeline" ++ [10%N] ++ lit "![Timeline of "
                 ++ ResearchResult.topic result ++ lit "](" ++ (c :: r)
                 ++ lit ")" ++ [10%N] ++ [10%N]
             | _ => []
             end
          ++ match literatureReview with
             | Some (c :: r) =>
                 lit "## Literature Review" ++ [10%N] ++ [10%N] ++ (c :: r)
                 ++ [10%N] ++ [10%N]
             | _ => []
             end
          ++ lit "## Seminal & Important Articles" ++ [10%N] ++ [10%N]).
  split; [|split].
  - f_equal. f_equal. f_equal.
    destruct timelineImage as [[|t ts]|];
      destruct literatureReview as [[|v vs]|];
      cbn [concat]; rewrite ?app_nil_r; rewrite <- ?app_assoc; reflexivity.
  - apply includes_refl_mid.
  - do 3 apply includes_skip. apply includes_refl_mid.
Qed.

(** X16.  The export quotes the summary line by line: its text contains
    the lines of the summary, each one behind the mark "> ", joined by
    line feeds; the lines are one more than the line feeds of the
    summary.  The text also bears the topic and the date. *)
Theorem export_quotes_summary (date : jsstring) (result : ResearchResult.t)
  (timelineImage literatureReview : option jsstring) :
  exists name content,
    AppExport.handleExportMarkdown date (Some result) timelineImage
      literatureReview = Some (name, content)
    /\ JsString.includes content
         (JsString.join [10%N]
            (map (app (lit "> ")) (lines (ResearchResult.summary result))))
    /\ length (lines (ResearchResult.summary result))
       = S (count_occ N.eq_dec (ResearchResult.summary result) 10%N)
    /\ JsString.includes content (ResearchResult.topic result)
    /\ JsString.includes content date.
Proof.
  assert (Hq : lit "> "
               ++ JsRegExp.replace_newlines ([10%N] ++ lit "> ")
                    (ResearchResult.summary result)
               = JsString.join [10%N]
                   (map (app (lit "> "))
                        (lines (ResearchResult.summary result)))).
  { rewrite replace_newlines_lines.
    pose proof (lines_nonempty (ResearchResult.summary result)) as Hne.
    destruct (lines (ResearchResult.summary result)) as [|l ls];
      [contradiction|].
    cbn [map]. rewrite join_cons_app. reflexivity. }
  destruct (export_shape date result timelineImage literatureReview)
    as (head & middle & E & Ht & Hd).
  eexists _, _. split; [exact E|]. rewrite <- Hq.
  split; [|split; [apply lines_count|split]].
  - apply includes_app_l. apply includes_refl_mid.
  - do 2 apply includes_app_l. exact Ht.
  - do 2 apply includes_app_l. exact Hd.
Qed.

Lemma section_shape (a : Article.t) (k : nat) :
  exists body,
    article_section a k
    = lit "### " ++ JsString.ofNumber (N.of_nat (k + 1)) ++ lit ". "
      ++ Article.title a ++ [10%N] ++ lit "*" ++ Article.authors a ++ lit "*"
      ++ body ++ lit "---" ++ [10%N; 10%N]
    /\ JsString.includes body (Article.significance a)
    /\ JsString.includes body (Article.ai_summary a).
Proof.
  exists (match Article.publication_date a with
          | _ :: _ =>
              [32; 8226; 32]%N ++ lit "**" ++ Article.publication_date a
              ++ lit "**"
          | [] => []
          end
          ++ [10%N] ++ [10%N]
          ++ match Article.url a with
             | Some (c :: r) =>
                 lit "[Read Full Paper](" ++ (c :: r) ++ lit ")" ++ [10%N]
                 ++ [10%N]
             | _ => []
             end
          ++ lit "**Significance**" ++ [10%N] ++ Article.significance a
          ++ [10%N] ++ [10%N] ++ lit "**AI Summary**" ++ [10%N]
          ++ Article.ai_summary a ++ [10%N] ++ [10%N]).
  split; [|split].
  - unfold article_section, AppExport.append_article, AppExport.nl. cbv zeta.
    destruct (Article.publication_date a) as [|d ds];
      destruct (Article.url a) as [[|u us]|];
      cbn [concat]; rewrite ?app_nil_r; rewrite <- ?app_assoc; reflexivity.
  - do 5 apply includes_skip. apply includes_refl_mid.
  - do 10 apply includes_skip. apply includes_refl_mid.
Qed.

(** X17.  The export writes one section per article, in the order of the
    articles, after everything else: the section of the article at
    position k starts with the heading "### k+1. title" and the authors in
    emphasis, carries the significance and the summary, and ends with a
    rule.  Without a result nothing is exported. *)
Theorem export_enumerates (date : jsstring) (result : ResearchResult.t)
  (timelineImage literatureReview : option jsstring) :
  (exists name preamble sections,
     AppExport.handleExportMarkdown date (Some result) timelineImage
       literatureReview = Some (name, preamble ++ concat sections)
     /\ length sections = length (ResearchResult.articles result)
     /\ forall k a, nth_error (ResearchResult.articles result) k = Some a ->
          exists body,
            nth_error sections k
            = Some (lit "### " ++ JsString.ofNumber (N.of_nat (k + 1))
                    ++ lit ". " ++ Article.title a ++ [10%N]
                    ++ lit "*" ++ Article.authors a ++ lit "*"
                    ++ body ++ lit "---" ++ [10%N; 10%N])
            /\ JsString.includes body (Article.significance a)
            /\ JsString.includes body (Article.ai_summary a))
  /\ AppExport.handleExportMarkdown date None timelineImage literatureReview
     = None.
Proof.
  split; [|reflexivity].
  destruct (export_shape date result timelineImage literatureReview)
    as (head & middle & E & _).
  eexists _, _, _. split; [exact E|].
  split; [apply mapi_from_length|].
  intros k a Hk. destruct (section_shape a k) as (body & Es & H1 & H2).
  exists body. split; [|split; assumption].
  pose proof (mapi_from_nth _ _ article_section
                (ResearchResult.articles result) 0 k a Hk) as Hn.
  cbn [Nat.add] in Hn. rewrite Es in Hn. exact Hn.
Qed.

Lemma export_enumerates_witness :
  exists name preamble sections body,
    AppExport.handleExportMarkdown (lit "11/2/2026, 1:00:00 PM")
      (Some export_result) None None = Some (name, preamble ++ concat sections)
    /\ nth_error sections 1
       = Some (lit "### 2. Paper 2" ++ [10%N]
               ++ lit "*Doudna, J.; Charpentier, E.*" ++ body
               ++ lit "---" ++ [10%N; 10%N]).
Proof.
  destruct (export_enumerates (lit "11/2/2026, 1:00:00 PM") export_result
              None None) as [(name & preamble & sections & E & _ & H) _].
  destruct (H 1 (sample_article 2) eq_refl) as (body & Hs & _).
  exists name, preamble, sections, body. split; [exact E|].
  rewrite Hs. vm_compute. reflexivity.
Defined.

(** * The authors of an article card *)

Lemma split_from_nonempty (b : bool) (s : jsstring) :
  JsRegExp.split_from b s <> [].
Proof.
  revert b; induction s as [|c r IH]; intros b; simpl; [discriminate|].
  destruct (b && JsString.isWhiteSpace c); [apply IH|].
  destruct (N.eqb c 44); [discriminate|].
  destruct (JsRegExp.split_from false r); discriminate.
Qed.

(** The pieces are one more than the commas. *)
Lemma split_from_length (b : bool) (s : jsstring) :
  length (JsRegExp.split_from b s) = S (count_occ N.eq_dec s 44%N).
Proof.
  revert b; induction s as [|c r IH]; intros b; [reflexivity|].
  cbn [JsRegExp.split_from count_occ].
  destruct (N.eq_dec c 44%N) as [->|Hne].
  - destruct (b && JsString.isWhiteSpace 44%N) eqn:E.
    + destruct b; discriminate E.
    + cbn [N.eqb Pos.eqb length]. rewrite IH. reflexivity.
  - destruct (b && JsString.isWhiteSpace c); [apply IH|].
    destruct (N.eqb_spec c 44) as [E|_]; [contradiction|].
    pose proof (split_from_nonempty false r) as Hn.
    specialize (IH false).
    destruct (JsRegExp.split_from false r) as [|p ps]; [contradiction|].
    exact IH.
Qed.

(** No piece holds a comma. *)
Lemma split_from_plain (b : bool) (s : jsstring) :
  Forall plain_name (JsRegExp.split_from b s).
Proof.
  revert b; induction s as [|c r IH]; intros b; simpl.
  - constructor; [intros [] | constructor].
  - destruct (b && JsString.isWhiteSpace c); [apply IH|].
    destruct (N.eqb_spec c 44) as [E|Hne].
    + constructor; [intros [] | apply IH].
    + specialize (IH false).
      destruct (JsRegExp.split_from false r) as [|p ps].
      * constructor; [|constructor]. intros [H|[]]. congruence.
      * inversion IH as [|? ? Hp Hps]; subst. constructor; [|exact Hps].
        intros [H|H]; [congruence | exact (Hp H)].
Qed.

Lemma split_cons (c : code_unit) (r : jsstring) :
  c <> 44%N ->
  JsRegExp.split_from false (c :: r)
  = (c :: hd [] (JsRegExp.split_from false r))
    :: tl (JsRegExp.split_from false r).
Proof.
  intros Hne. cbn [JsRegExp.split_from andb].
  destruct (N.eqb_spec c 44) as [E|_]; [contradiction|].
  destruct (JsRegExp.split_from false r); reflexivity.
Qed.

Lemma split_prefix (name s : jsstring) :
  plain_name name ->
  JsRegExp.split_from false (name ++ s)
  = (name ++ hd [] (JsRegExp.split_from false s))
    :: tl (JsRegExp.split_from false s).
Proof.
  unfold plain_name. intros Hn. induction name as [|c name IH].
  - simpl. pose proof (split_from_nonempty false s) as H.
    destruct (JsRegExp.split_from false s); [contradiction | reflexivity].
  - cbn [app]. rewrite split_cons by (intros ->; apply Hn; left; reflexivity).
    rewrite IH by (intros H; apply Hn; right; exact H). reflexivity.
Qed.

(** After a comma, a text that does not begin with white space is split as
    at the start. *)
Lemma split_skipping (s : jsstring) :
  starts_clean s -> JsRegExp.split_from true s = JsRegExp.split_from false s.
Proof.
  destruct s as [|c r]; [reflexivity|]. simpl. intros ->. reflexivity.
Qed.

Lemma join_starts_clean (names : list jsstring) :
  Forall starts_clean (firstn 1 names) ->
  starts_clean (JsString.join (lit ", ") names).
Proof.
  destruct names as [|n [|m rest]]; simpl; intros H; [exact I| |].
  - inversion H; assumption.
  - inversion H as [|? ? Hn _]; subst.
    destruct n as [|c n]; [reflexivity | exact Hn].
Qed.

(** Splitting undoes joining. *)
Lemma split_join (names : list jsstring) :
  names <> [] -> author_names names ->
  JsRegExp.split_commas (JsString.join (lit ", ") names) = names.
Proof.
  unfold JsRegExp.split_commas, author_names.
  induction names as [|n names IH]; intros Hne [Hplain Hclean];
    [contradiction|].
  inversion Hplain as [|? ? Hn Hrest]; subst.
  destruct names as [|m rest].
  - cbn [JsString.join]. rewrite <- (app_nil_r n) at 1.
    rewrite split_prefix by exact Hn. cbn. rewrite app_nil_r. reflexivity.
  - change (JsString.join (lit ", ") (n :: m :: rest))
      with (n ++ 44%N :: 32%N :: JsString.join (lit ", ") (m :: rest)).
    rewrite split_prefix by exact Hn.
    change (JsRegExp.split_from false
              (44%N :: 32%N :: JsString.join (lit ", ") (m :: rest)))
      with ([] :: JsRegExp.split_from true
                    (JsString.join (lit ", ") (m :: rest))).
    cbn [hd tl]. rewrite app_nil_r.
    cbn [tl] in Hclean. inversion Hclean as [|? ? Hm Hmore]; subst.
    rewrite split_skipping.
    + rewrite IH; [reflexivity | discriminate |].
      split; [exact Hrest | exact Hmore].
    + apply join_starts_clean. cbn [firstn]. constructor; [exact Hm|constructor].
Qed.

Lemma formatAuthors_unfold (authors : jsstring) :
  ArticleCard.formatAuthors authors
  = if Nat.leb (length (JsRegExp.split_commas authors)) 3 then authors
    else JsString.join (lit ", ") (firstn 3 (JsRegExp.split_commas authors))
         ++ lit " et al.".
Proof. destruct authors; reflexivity. Qed.

Lemma plain_count (name : jsstring) :
  plain_name name -> count_occ N.eq_dec name 44%N = 0.
Proof. intros H. apply count_occ_not_In. exact H. Qed.

(** The shortened text holds two commas. *)
Lemma shortened_commas (p q r : jsstring) :
  plain_name p -> plain_name q -> plain_name r ->
  count_occ N.eq_dec
    (JsString.join (lit ", ") [p; q; r] ++ lit " et al.") 44%N = 2.
Proof.
  intros Hp Hq Hr.
  change (JsString.join (lit ", ") [p; q; r])
    with (p ++ (44%N :: 32%N :: q) ++ (44%N :: 32%N :: r)).
  rewrite !count_occ_app.
  change (count_occ N.eq_dec (44%N :: 32%N :: q) 44%N)
    with (S (count_occ N.eq_dec q 44%N)).
  change (count_occ N.eq_dec (44%N :: 32%N :: r) 44%N)
    with (S (count_occ N.eq_dec r 44%N)).
  pose proof (plain_count _ Hp) as Cp.
  pose proof (plain_count _ Hq) as Cq.
  pose proof (plain_count _ Hr) as Cr.
  unfold code_unit in *.
  rewrite Cp, Cq, Cr. vm_compute. reflexivity.
Qed.

(** X18.  A list of at most three authors is shown as it is; of a longer
    list the first three names are shown, joined by ", " and followed by
    " et al.".  The names are those of a list written with ", " between
    names, no comma inside a name and no white space at the head of a
    name. *)
Theorem formatAuthors_names (names : list jsstring) :
  author_names names ->
  ArticleCard.formatAuthors (JsString.join (lit ", ") names)
  = if Nat.leb (length names) 3 then JsString.join (lit ", ") names
    else JsString.join (lit ", ") (firstn 3 names) ++ lit " et al.".
Proof.
  intros Hwf. destruct names as [|n names]; [reflexivity|].
  rewrite formatAuthors_unfold, split_join by (discriminate || exact Hwf).
  reflexivity.
Qed.

Lemma formatAuthors_names_witness :
  ArticleCard.formatAuthors
    (lit "Jinek, M., Chylinski, K., Fonfara, I., Hauer, M., Doudna, J. A.")
  = lit "Jinek, M., Chylinski et al.".
Proof.
  change (lit "Jinek, M., Chylinski, K., Fonfara, I., Hauer, M., Doudna, J. A.")
    with (JsString.join (lit ", ")
            [lit "Jinek"; lit "M."; lit "Chylinski"; lit "K."; lit "Fonfara";
             lit "I."; lit "Hauer"; lit "M."; lit "Doudna"; lit "J. A."]).
  rewrite formatAuthors_names; [vm_compute; reflexivity|].
  split; repeat constructor; vm_compute; intuition discriminate.
Defined.

(** X19.  Formatting the authors a second time changes nothing: what
    [formatAuthors] returns is returned unchanged by [formatAuthors]. *)
Theorem formatAuthors_idempotent (authors : jsstring) :
  ArticleCard.formatAuthors (ArticleCard.formatAuthors authors)
  = ArticleCard.formatAuthors authors.
Proof.
  rewrite (formatAuthors_unfold authors).
  destruct (Nat.leb (length (JsRegExp.split_commas authors)) 3) eqn:E.
  - rewrite formatAuthors_unfold, E. reflexivity.
  - apply Nat.leb_gt in E.
    pose proof (split_from_plain false authors) as Hplain.
    unfold JsRegExp.split_commas in *.
    destruct (JsRegExp.split_from false authors) as [|p [|q [|r [|x rest]]]];
      cbn [length] in E; try lia.
    inversion Hplain as [|? ? Hp H1]; subst.
    inversion H1 as [|? ? Hq H2]; subst.
    inversion H2 as [|? ? Hr _]; subst.
    cbn [firstn].
    rewrite formatAuthors_unfold. unfold JsRegExp.split_commas.
    rewrite split_from_length, (shortened_commas p q r Hp Hq Hr).
    reflexivity.
Qed.

(** * The chat widget *)

Lemma reply_to_nonempty
  (chat : jsstring -> completion GeminiService.GenerateContentResponse)
  (question : jsstring) : reply_to chat question <> [].
Proof.
  unfold reply_to. destruct (chat question) as [response|e]; [|discriminate].
  destruct (GeminiService.text response) as [[|c r]|]; discriminate.
Qed.

Lemma handleSend_sent (now_user now_reply : N) (render s : ChatWidget.State)
  (chat : jsstring -> completion GeminiService.GenerateContentResponse) :
  JsString.trim (ChatWidget.input render) <> [] ->
  ChatWidget.chatSessionRef s = Some chat ->
  ChatWidget.isLoading render = false ->
  ChatWidget.handleSend now_user now_reply render s
  = {| ChatWidget.isOpen := ChatWidget.isOpen s;
       ChatWidget.messages :=
         ChatWidget.messages s
         ++ [ {| ChatWidget.id := JsString.ofNumber now_user;
                 ChatWidget.role_of := ChatWidget.user;
                 ChatWidget.text := ChatWidget.input render |};
              {| ChatWidget.id := JsString.ofNumber now_reply;
                 ChatWidget.role_of := ChatWidget.model;
                 ChatWidget.text := reply_to chat (ChatWidget.input render) |} ];
       ChatWidget.input := [];
       ChatWidget.isLoading := false;
       ChatWidget.chatSessionRef := Some chat |}.
Proof.
  intros Hin Hchat Hload. unfold ChatWidget.handleSend, reply_to.
  rewrite Hchat, Hload.
  destruct (JsString.trim (ChatWidget.input render)) as [|c r];
    [contradiction|].
  cbn [ChatWidget.text]. rewrite <- app_assoc. reflexivity.
Qed.

Lemma handleSend_kept (now_user now_reply : N) (render s : ChatWidget.State) :
  JsString.trim (ChatWidget.input render) = []
  \/ ChatWidget.chatSessionRef s = None
  \/ ChatWidget.isLoading render = true ->
  ChatWidget.handleSend now_user now_reply render s = s.
Proof.
  unfold ChatWidget.handleSend. intros [H|[H|H]]; rewrite H.
  - reflexivity.
  - destruct (JsString.trim (ChatWidget.input render)); reflexivity.
  - destruct (JsString.trim (ChatWidget.input render));
      [|destruct (ChatWidget.chatSessionRef s)]; reflexivity.
Qed.

(** X20.  A send does nothing when the input is blank, when no chat
    exists or while an answer is awaited.  Otherwise it appends to the
    transcript, which it leaves as it was, the input as typed and one
    answer that is never empty: the text of the response, a fixed text when
    the response has none, another when the chat fails; the input is
    cleared and the widget is no longer loading. *)
Theorem handleSend_appends (now_user now_reply : N)
  (render s : ChatWidget.State) :
  (JsString.trim (ChatWidget.input render) = []
   \/ ChatWidget.chatSessionRef s = None
   \/ ChatWidget.isLoading render = true ->
   ChatWidget.handleSend now_user now_reply render s = s)
  /\ (forall chat,
        JsString.trim (ChatWidget.input render) <> [] ->
        ChatWidget.chatSessionRef s = Some chat ->
        ChatWidget.isLoading render = false ->
        exists u m,
          ChatWidget.messages (ChatWidget.handleSend now_user now_reply render s)
          = ChatWidget.messages s ++ [u; m]
          /\ ChatWidget.role_of u = ChatWidget.user
          /\ ChatWidget.text u = ChatWidget.input render
          /\ ChatWidget.role_of m = ChatWidget.model
          /\ ChatWidget.text m <> []
          /\ (forall response t,
                chat (ChatWidget.input render) = Return response ->
                GeminiService.text response = Some t -> t <> [] ->
                ChatWidget.text m = t)
          /\ (forall e, chat (ChatWidget.input render) = Throw e ->
                ChatWidget.text m
                = lit "Sorry, I encountered an error while trying to answer that.")
          /\ ChatWidget.input
               (ChatWidget.handleSend now_user now_reply render s) = []
          /\ ChatWidget.isLoading
               (ChatWidget.handleSend now_user now_reply render s) = false).
Proof.
  split; [apply handleSend_kept|].
  intros chat Hin Hchat Hload.
  rewrite (handleSend_sent now_user now_reply render s chat Hin Hchat Hload).
  eexists _, _. split; [reflexivity|]. cbn.
  split; [reflexivity|]. split; [reflexivity|]. split; [reflexivity|].
  split; [apply reply_to_nonempty|].
  split; [|split; [|split; reflexivity]].
  - intros response t E Ht Hne. unfold reply_to. rewrite E, Ht.
    destruct t; [contradiction | reflexivity].
  - intros e E. unfold reply_to. rewrite E. reflexivity.
Qed.

Lemma handleSend_appends_witness :
  ChatWidget.messages
    (ChatWidget.handleSend 7 8
       (ChatWidget.setInput (lit " why? ") chat_mounted)
       (ChatWidget.setInput (lit " why? ")
          {| ChatWidget.isOpen := true;
             ChatWidget.messages := [ChatWidget.welcome sample_result];
             ChatWidget.input := [];
             ChatWidget.isLoading := false;
             ChatWidget.chatSessionRef :=
               Some (chat_failing (lit "m", lit "i")) |}))
  = [ ChatWidget.welcome sample_result;
      {| ChatWidget.id := lit "7"; ChatWidget.role_of := ChatWidget.user;
         ChatWidget.text := lit " why? " |};
      {| ChatWidget.id := lit "8"; ChatWidget.role_of := ChatWidget.model;
         ChatWidget.text :=
           lit "Sorry, I encountered an error while trying to answer that." |} ].
Proof.
  match goal with
  | |- ChatWidget.messages (ChatWidget.handleSend _ _ ?r ?s) = _ =>
      destruct (handleSend_appends 7 8 r s) as [_ H];
      destruct (H (chat_failing (lit "m", lit "i")))
        as (u & m & E & _)
  end.
  - vm_compute. discriminate.
  - reflexivity.
  - reflexivity.
  - vm_compute. reflexivity.
Defined.

Lemma initialize_cases (env : GeminiService.Env)
  (connect : jsstring * jsstring ->
             jsstring -> completion GeminiService.GenerateContentResponse)
  (researchResult : ResearchResult.t) (s : ChatWidget.State) :
  (JsString.truthy (GeminiService.API_KEY env) = false
   /\ ChatWidget.initialize env connect researchResult s
      = Throw (Error (lit "API Key is missing")))
  \/ (JsString.truthy (GeminiService.API_KEY env) = true
      /\ ChatWidget.initialize env connect researchResult s
         = Return
             {| ChatWidget.isOpen := ChatWidget.isOpen s;
                ChatWidget.messages := [ChatWidget.welcome researchResult];
                ChatWidget.input := ChatWidget.input s;
                ChatWidget.isLoading := ChatWidget.isLoading s;
                ChatWidget.chatSessionRef :=
                  Some (connect
                          (lit "gemini-3-pro-preview",
                           GeminiService.chat_systemInstruction researchResult
                             (GeminiService.contextString researchResult))) |}).
Proof.
  unfold ChatWidget.initialize, GeminiService.getResearchChatSession.
  destruct (JsString.truthy (GeminiService.API_KEY env));
    [right | left]; split; reflexivity.
Qed.

(** [handleSend] is its two halves, one after the other. *)
Lemma handleSend_halves (now_user now_reply : N) (render s : ChatWidget.State) :
  ChatWidget.handleSend now_user now_reply render s
  = match ChatWidget.handleSend_asks now_user render s with
    | Some (asked, request) =>
        ChatWidget.handleSend_settles now_reply request asked
    | None => s
    end.
Proof.
  unfold ChatWidget.handleSend, ChatWidget.handleSend_asks,
    ChatWidget.handleSend_settles.
  destruct (JsString.trim (ChatWidget.input render)); [reflexivity|].
  destruct (ChatWidget.chatSessionRef s); [|reflexivity].
  destruct (ChatWidget.isLoading render); reflexivity.
Qed.








(** X22.  Initialising the widget fails exactly when the key is missing or
    empty, with the error "API Key is missing"; otherwise it discards the
    transcript in favour of the welcome message alone, which names the
    topic, creates the chat, and keeps what was typed and whether the
    widget is open. *)
Theorem initialize_outcome (env : GeminiService.Env)
  (connect : jsstring * jsstring ->
             jsstring -> completion GeminiService.GenerateContentResponse)
  (researchResult : ResearchResult.t) (s : ChatWidget.State) :
  (JsString.truthy (GeminiService.API_KEY env) = false <->
   ChatWidget.initialize env connect researchResult s
   = Throw (Error (lit "API Key is missing")))
  /\ (JsString.truthy (GeminiService.API_KEY env) = true <->
      exists s',
        ChatWidget.initialize env connect researchResult s = Return s'
        /\ ChatWidget.messages s' = [ChatWidget.welcome researchResult]
        /\ JsString.includes (ChatWidget.text (ChatWidget.welcome researchResult))
             (ResearchResult.topic researchResult)
        /\ ChatWidget.chatSessionRef s' <> None
        /\ ChatWidget.input s' = ChatWidget.input s
        /\ ChatWidget.isOpen s' = ChatWidget.isOpen s).
Proof.
  destruct (initialize_cases env connect researchResult s)
    as [[Hk E] | [Hk E]]; rewrite E, Hk.
  - split; split; try reflexivity; try discriminate.
    intros (s' & H & _). discriminate H.
  - split; split; try discriminate; try reflexivity.
    intros _. eexists. split; [reflexivity|].
    cbn [ChatWidget.messages ChatWidget.chatSessionRef ChatWidget.input
         ChatWidget.isOpen].
    split; [reflexivity|]. split.
    + exists (lit "Hi! I've studied the research on **"),
        (lit "**. Ask me anything about the summary or the articles!").
      unfold ChatWidget.welcome. cbn [ChatWidget.text concat].
      rewrite app_nil_r. reflexivity.
    + split; [discriminate|]. split; reflexivity.
Qed.

(** * The export of a chat *)

Lemma exportEntry_shape (m : ChatWidget.Message) :
  ChatWidget.exportEntry m
  = lit "### "
    ++ match ChatWidget.role_of m with
       | ChatWidget.user => lit "User"
       | ChatWidget.model => lit "Assistant"
       end
    ++ [10%N] ++ ChatWidget.text m ++ [10%N].
Proof.
  unfold ChatWidget.exportEntry, ChatWidget.roleTitle. cbn [concat].
  rewrite app_nil_r. destruct (ChatWidget.role_of m); reflexivity.
Qed.

(** X23.  The export of a chat returns at once exactly when the transcript
    is empty.  Otherwise the file is named "chat-", the slug of the topic
    that the export of the session uses, and ".md"; its text is a title
    with the topic, the date, and one entry per message in the order of
    the transcript, separated by rules: "### User" or "### Assistant" by
    the role, then the text of the message. *)
Theorem chat_export_shape (date : jsstring) (researchResult : ResearchResult.t)
  (s : ChatWidget.State) :
  (ChatWidget.handleExport date researchResult s = None
   <-> ChatWidget.messages s = [])
  /\ forall name content,
       ChatWidget.handleExport date researchResult s = Some (name, content) ->
       (exists slug,
          name = lit "chat-" ++ slug ++ lit ".md"
          /\ AppExport.download_name researchResult
             = lit "DeepResearch-" ++ slug ++ lit ".md")
       /\ exists entries,
            content
            = lit "# Research Chat - " ++ ResearchResult.topic researchResult
              ++ [10%N] ++ lit "Date: " ++ date ++ [10%N; 10%N]
              ++ JsString.join ([10%N] ++ lit "---" ++ [10%N; 10%N]) entries
            /\ length entries = length (ChatWidget.messages s)
            /\ forall k m,
                 nth_error (ChatWidget.messages s) k = Some m ->
                 nth_error entries k
                 = Some (lit "### "
                         ++ match ChatWidget.role_of m with
                            | ChatWidget.user => lit "User"
                            | ChatWidget.model => lit "Assistant"
                            end
                         ++ [10%N] ++ ChatWidget.text m ++ [10%N]).
Proof.
  unfold ChatWidget.handleExport.
  destruct (ChatWidget.messages s) as [|first rest] eqn:Ems.
  - split; [split; reflexivity | discriminate].
  - split; [split; discriminate|].
    intros name content H. injection H as <- <-. split.
    + exists (JsRegExp.toLowerCase_ascii
                (JsRegExp.replace_nonalnum
                   (ResearchResult.topic researchResult))).
      split; reflexivity.
    + exists (map ChatWidget.exportEntry (first :: rest)). split.
      * cbv zeta. cbn [concat]. rewrite app_nil_r. reflexivity.
      * split; [apply length_map|].
        intros k m Hk. rewrite nth_error_map, Hk. cbn [option_map].
        rewrite exportEntry_shape. reflexivity.
Qed.

Lemma chat_export_shape_witness :
  ChatWidget.handleExport (lit "11/2/2026") export_result
    {| ChatWidget.isOpen := true;
       ChatWidget.messages :=
         [ {| ChatWidget.id := lit "welcome";
              ChatWidget.role_of := ChatWidget.model;
              ChatWidget.text := lit "Hi!" |};
           {| ChatWidget.id := lit "1";
              ChatWidget.role_of := ChatWidget.user;
              ChatWidget.text := lit "Why?" |} ];
       ChatWidget.input := [];
       ChatWidget.isLoading := false;
       ChatWidget.chatSessionRef := None |}
  <> None
  /\ exists name content entries,
       ChatWidget.handleExport (lit "11/2/2026") export_result
         {| ChatWidget.isOpen := true;
            ChatWidget.messages :=
              [ {| ChatWidget.id := lit "welcome";
                   ChatWidget.role_of := ChatWidget.model;
                   ChatWidget.text := lit "Hi!" |};
                {| ChatWidget.id := lit "1";
                   ChatWidget.role_of := ChatWidget.user;
                   ChatWidget.text := lit "Why?" |} ];
            ChatWidget.input := [];
            ChatWidget.isLoading := false;
            ChatWidget.chatSessionRef := None |}
       = Some (name, content)
       /\ length entries = 2
       /\ nth_error entries 1
          = Some (lit "### User" ++ [10%N] ++ lit "Why?" ++ [10%N]).
Proof.
  match goal with
  | |- ChatWidget.handleExport ?d ?r ?s <> None /\ _ =>
      destruct (chat_export_shape d r s) as [[Hnone _] Hsome]
  end.
  split.
  - intros H. apply Hnone in H. discriminate H.
  - eexists _, _.
    match type of Hsome with
    | forall name content, ?lhs = _ -> _ =>
        let v := eval vm_compute in lhs in
        match v with
        | Some (?n, ?c) =>
            destruct (Hsome n c) as [_ (entries & _ & Hlen & Hnth)];
              [vm_compute; reflexivity|];
            exists entries; split; [vm_compute; reflexivity|];
            split; [exact Hlen|];
            exact (Hnth 1 _ eq_refl)
        end
    end.
Defined.

(** * The timeline section *)


(** X24.  Where an exception of the image stage comes from: the check of
    the selected key, the transport, or the reading of the response, which
    raises a [TypeError] or "No image data found in response".  A missing
    [API_KEY] is none of them: this stage hands the key to the transport
    as it finds it. *)
Theorem image_stage_sources (env : TimelineImage.Env)
  (visualPrompt size language : jsstring) (t : TimelineImage.thrown) :
  TimelineImage.generateTimelineImage env visualPrompt size language
  = TimelineImage.Raised t ->
  TimelineImage.ensureKey env = TimelineImage.Raised t
  \/ (TimelineImage.ensureKey env = TimelineImage.Done tt
      /\ TimelineImage.generateContent env (TimelineImage.API_KEY env)
           (image_request visualPrompt size language)
         = TimelineImage.Raised t)
  \/ (TimelineImage.ensureKey env = TimelineImage.Done tt
      /\ (exists response,
            TimelineImage.generateContent env (TimelineImage.API_KEY env)
              (image_request visualPrompt size language)
            = TimelineImage.Done response)
      /\ (t = TimelineImage.TypeError \/ t = TimelineImage.noImage)).
Proof.
  unfold TimelineImage.generateTimelineImage.
  fold (image_request visualPrompt size language).
  destruct (TimelineImage.ensureKey env) as [[]|t0] eqn:Ek.
  - destruct (TimelineImage.generateContent env (TimelineImage.API_KEY env)
                (image_request visualPrompt size language))
      as [response|t1] eqn:Eg.
    + intros H. right. right. split; [reflexivity|].
      split; [exists response; reflexivity|].
      destruct (readImage_failures response) as (_ & _ & Hall).
      exact (Hall t H).
    + intros H. injection H as <-. right. left. split; reflexivity.
  - intros H. injection H as <-. left. reflexivity.
Qed.

Lemma image_stage_sources_witness :
  TimelineImage.ensureKey
    {| TimelineImage.aistudio :=
         Some {| TimelineImage.hasSelectedApiKey :=
                   Some (TimelineImage.Done false);
                 TimelineImage.openSelectKey := None |};
       TimelineImage.API_KEY := None;
       TimelineImage.generateContent :=
         fun _ _ => TimelineImage.Done (response_with [png_part (lit "AAAA")]) |}
  = TimelineImage.Raised TimelineImage.TypeError
  \/ TimelineImage.noImage = TimelineImage.TypeError.
Proof.
  destruct (image_stage_sources
              {| TimelineImage.aistudio :=
                   Some {| TimelineImage.hasSelectedApiKey :=
                             Some (TimelineImage.Done false);
                           TimelineImage.openSelectKey := None |};
                 TimelineImage.API_KEY := None;
                 TimelineImage.generateContent :=
                   fun _ _ =>
                     TimelineImage.Done (response_with [png_part (lit "AAAA")]) |}
              (lit "A timeline of CRISPR.") (lit "2K") (lit "en")
              TimelineImage.TypeError eq_refl) as [H|[[H _]|[H _]]].
  - left. exact H.
  - discriminate H.
  - discriminate H.
Defined.


